(** * Sale-order report pipeline: a shallow embedding of [sale_order.py]

    The development follows the source file function by function:

    - text helpers standing for the Python string methods the code calls
      ([upper], [lower], [strip], [in], [split], [zfill], [str] on integers);
    - the order-id sequencer [generate_unique_order_id], with the SQLite
      counter table as an explicit store;
    - the category normalizer [normalize_category];
    - the derived-field calculator ([calculate_sqft], [get_sqft_formula],
      [get_weight_formula], [extract_thickness_from_category]);
    - the loader [prepare_data] over a small model of the workbook;
    - the data-row part of [write_report], together with an evaluator for
      the fragment of spreadsheet formulas that the writer emits.

    Conventions.  A Python float and a numpy float64 are IEEE 754 binary64
    values: the [spec_float] of the Standard Library at 53 bits of
    precision, with its multiplication, division and comparison, so that
    every operation rounds as the machine does and infinities and NaN are
    values.  An empty cell is the [CNaN] cell.  What [pd.to_numeric] makes
    of a text belongs to pandas and not to this repository: the loader is
    modelled for every such reading, which is an argument of [prepare_data].
    Text is ASCII: [upper] and [lower] change the 26 letters only.  A raised
    Python exception is a [Raise] result.  A frame is read row by row; what
    pandas does with [apply] on a frame without rows depends on its version
    and is not modelled. *)

From Stdlib Require Import ZArith QArith Qround Lia List Ascii String Bool Permutation.
From Stdlib Require Import SpecFloat.
From stdpp Require Import gmap strings.

Open Scope string_scope.

(* ===================================================================== *)
(** ** Python text helpers *)
(* ===================================================================== *)

Definition is_upper_letter (c : ascii) : bool :=
  let n := nat_of_ascii c in (65 <=? n)%nat && (n <=? 90)%nat.

Definition is_lower_letter (c : ascii) : bool :=
  let n := nat_of_ascii c in (97 <=? n)%nat && (n <=? 122)%nat.

Definition is_digit (c : ascii) : bool :=
  let n := nat_of_ascii c in (48 <=? n)%nat && (n <=? 57)%nat.

(** [str.isspace] on ASCII: space, \t, \n, \v, \f, \r and the four
    separators 0x1c-0x1f. *)
Definition is_space (c : ascii) : bool :=
  let n := nat_of_ascii c in
  (n =? 32)%nat || ((9 <=? n)%nat && (n <=? 13)%nat)
  || ((28 <=? n)%nat && (n <=? 31)%nat).

Definition upper_char (c : ascii) : ascii :=
  if is_lower_letter c then ascii_of_nat (nat_of_ascii c - 32) else c.

Definition lower_char (c : ascii) : ascii :=
  if is_upper_letter c then ascii_of_nat (nat_of_ascii c + 32) else c.

Fixpoint map_string (f : ascii -> ascii) (s : string) : string :=
  match s with
  | EmptyString => EmptyString
  | String c s' => String (f c) (map_string f s')
  end.

(** [s.upper()] and [s.lower()] *)
Definition upper (s : string) : string := map_string upper_char s.
Definition lower (s : string) : string := map_string lower_char s.

(** [s.startswith(p)] *)
Fixpoint startswith (p s : string) : bool :=
  match p with
  | EmptyString => true
  | String a p' =>
      match s with
      | EmptyString => false
      | String b s' => Ascii.eqb a b && startswith p' s'
      end
  end.

(** [sub in s] *)
Fixpoint contains (sub s : string) : bool :=
  startswith sub s
  || match s with
     | EmptyString => false
     | String _ s' => contains sub s'
     end.

(** [c in s] for a single character *)
Fixpoint has_char (p : ascii -> bool) (s : string) : bool :=
  match s with
  | EmptyString => false
  | String c s' => p c || has_char p s'
  end.

(** Splitting at every character satisfying [p]: [s.split(c)], and
    [re.split] with a one-character class. *)
Fixpoint split_on (p : ascii -> bool) (s : string) : list string :=
  match s with
  | EmptyString => [EmptyString]
  | String c s' =>
      if p c then EmptyString :: split_on p s'
      else match split_on p s' with
           | h :: t => String c h :: t
           | [] => [String c EmptyString]
           end
  end.

Fixpoint lstrip (s : string) : string :=
  match s with
  | EmptyString => EmptyString
  | String c s' => if is_space c then lstrip s' else s
  end.

Fixpoint rstrip (s : string) : string :=
  match s with
  | EmptyString => EmptyString
  | String c s' =>
      match rstrip s' with
      | EmptyString => if is_space c then EmptyString else String c EmptyString
      | r => String c r
      end
  end.

(** [s.strip()] *)
Definition strip (s : string) : string := rstrip (lstrip s).

Fixpoint repeat_char (c : ascii) (n : nat) : string :=
  match n with
  | O => EmptyString
  | S n' => String c (repeat_char c n')
  end.

(** [s.zfill(width)]: zeros are inserted after a leading sign. *)
Definition zfill (width : nat) (s : string) : string :=
  let pad := repeat_char "0" (width - String.length s) in
  match s with
  | String c s' =>
      if (Ascii.eqb c "+" || Ascii.eqb c "-")%bool then String c (pad ++ s')
      else pad ++ s
  | EmptyString => pad
  end.

(** *** Decimal rendering and reading of integers *)

Definition digit_char (d : N) : ascii := ascii_of_N (48 + d).

Definition digit_val (c : ascii) : N := N_of_ascii c - 48.

Fixpoint str_digits (fuel : nat) (n : N) (acc : string) : string :=
  match fuel with
  | O => acc
  | S f =>
      let acc' := String (digit_char (n mod 10)) acc in
      if (n / 10 =? 0)%N then acc' else str_digits f (n / 10) acc'
  end.

Definition str_N (n : N) : string :=
  str_digits (S (N.to_nat (N.log2 n))) n EmptyString.

(** [str(z)] for a Python integer *)
Definition str_int (z : Z) : string :=
  if (z <? 0)%Z then String "-" (str_N (Z.to_N (- z))) else str_N (Z.to_N z).

Fixpoint read_digits (acc : N) (s : string) : option N :=
  match s with
  | EmptyString => Some acc
  | String c s' =>
      if is_digit c then read_digits (10 * acc + digit_val c) s' else None
  end.

(** Reading an unsigned decimal numeral: at least one digit, digits only. *)
Definition read_N (s : string) : option N :=
  match s with
  | EmptyString => None
  | _ => read_digits 0 s
  end.

(* ===================================================================== *)
(** ** Numbers and exceptions *)
(* ===================================================================== *)

Inductive exn := KeyError | ValueError | OverflowError.

Inductive result (A : Type) :=
| Ok (a : A)
| Raise (e : exn).
Arguments Ok {A} a.
Arguments Raise {A} e.

Definition bind {A B} (r : result A) (k : A -> result B) : result B :=
  match r with
  | Ok a => k a
  | Raise e => Raise e
  end.

Notation "x <- r ;; k" := (bind r (fun x => k))
  (at level 100, r at next level, right associativity).

Definition is_ok {A} (r : result A) : bool :=
  match r with Ok _ => true | Raise _ => false end.

(** *** Floats

    Binary64: a sign, and either a zero, an infinity, NaN, or a mantissa
    [m] below [2 ^ 53] with an exponent [e], standing for [m * 2 ^ e].  The
    values met in a run are in the canonical form in which every operation
    returns its result. *)

Abbreviation float := spec_float (only parsing).

Definition prec64 : Z := 53.
Definition emax64 : Z := 1024.

(** [x * y] and [x / y] *)
Definition fmul (x y : float) : float := SFmul prec64 emax64 x y.
Definition fdiv (x y : float) : float := SFdiv prec64 emax64 x y.

(** [x <= y], [x < y] and [x == y]; all three are false when an argument
    is NaN. *)
Definition fle (x y : float) : bool := SFleb x y.
Definition flt (x y : float) : bool := SFltb x y.
Definition feq (x y : float) : bool := SFeqb x y.

Definition nan : float := S754_nan.
Definition fzero : float := S754_zero false.

Definition is_nan (x : float) : bool :=
  match x with S754_nan => true | _ => false end.

Definition is_finite (x : float) : bool :=
  match x with
  | S754_zero _ | S754_finite _ _ _ => true
  | _ => false
  end.

(** The float of an integer constant or of an integer cell: the nearest
    binary64 value. *)
Definition float_of_Z (z : Z) : float := binary_normalize prec64 emax64 z 0 false.

(** The float nearest to [m * 10 ^ e], with the sign [neg]: what a decimal
    numeral reads as. *)
Definition float_of_decimal (neg : bool) (m : N) (e : Z) : float :=
  match m with
  | N0 => S754_zero neg
  | Npos p =>
      if (0 <=? e)%Z
      then binary_round prec64 emax64 neg (p * Z.to_pos (10 ^ e)) 0
      else SFdiv prec64 emax64 (S754_finite neg p 0)
                 (S754_finite false (Z.to_pos (10 ^ (- e))) 0)
  end.

(** The rational number a finite float stands for. *)
Definition float_value (x : float) : Q :=
  match x with
  | S754_finite s m e =>
      let v := if (0 <=? e)%Z then inject_Z (Z.pos m * 2 ^ e)
               else Z.pos m # Z.to_pos (2 ^ (- e)) in
      if s then (- v)%Q else v
  | _ => 0%Q
  end.

(** [int(x)] on a float: truncation toward zero; OverflowError for an
    infinity, ValueError for NaN. *)
Definition py_int (x : float) : result Z :=
  match x with
  | S754_nan => Raise ValueError
  | S754_infinity _ => Raise OverflowError
  | S754_zero _ => Ok 0%Z
  | S754_finite s m e =>
      let n := Z.shiftl (Z.pos m) e in
      Ok (if s then (- n)%Z else n)
  end.

(** *** [float(s)] and [int(s)] on text

    Both strip the white space of C ([' '], [\t], [\n], [\v], [\f], [\r])
    from the two ends, accept single underscores between digits, and an
    optional sign.  [float] then reads [inf], [infinity] or [nan] in any
    letter case, or a decimal numeral: digits with an optional fraction,
    or a fraction alone, and an optional exponent. *)

Definition is_c_space (c : ascii) : bool :=
  let n := nat_of_ascii c in
  (n =? 32)%nat || ((9 <=? n)%nat && (n <=? 13)%nat).

Fixpoint lstrip_c (s : string) : string :=
  match s with
  | EmptyString => EmptyString
  | String c s' => if is_c_space c then lstrip_c s' else s
  end.

Fixpoint rstrip_c (s : string) : string :=
  match s with
  | EmptyString => EmptyString
  | String c s' =>
      match rstrip_c s' with
      | EmptyString => if is_c_space c then EmptyString else String c EmptyString
      | r => String c r
      end
  end.

Definition strip_c (s : string) : string := rstrip_c (lstrip_c s).

(** Digit-group underscores: each must stand between two digits, and is
    dropped.  [prev] is the character before [s]. *)
Fixpoint drop_underscores (prev : ascii) (s : string) : option string :=
  match s with
  | EmptyString => Some EmptyString
  | String c s' =>
      if Ascii.eqb c "_" then
        match s' with
        | String d _ =>
            if is_digit prev && is_digit d then drop_underscores c s' else None
        | EmptyString => None
        end
      else option_map (String c) (drop_underscores c s')
  end.

Definition split_sign (s : string) : bool * string :=
  match s with
  | String c r =>
      if Ascii.eqb c "-" then (true, r)
      else if Ascii.eqb c "+" then (false, r)
      else (false, s)
  | EmptyString => (false, s)
  end.

(** The scanner of unsigned decimal numerals. *)
Inductive fphase :=
| PStart | PInt | PDot0 | PFrac | PExp0 | PExpSign | PExp | PFail.

Record fstate := {
  phase : fphase;
  mant : N;          (* mantissa digits read so far *)
  scale : N;         (* number of digits after the point *)
  eneg : bool;       (* exponent sign *)
  expo : N           (* exponent digits read so far *)
}.

Definition fstate0 : fstate :=
  {| phase := PStart; mant := 0; scale := 0; eneg := false; expo := 0 |}.

Definition set_phase (p : fphase) (st : fstate) : fstate :=
  {| phase := p; mant := mant st; scale := scale st;
     eneg := eneg st; expo := expo st |}.

Definition push_int (d : N) (st : fstate) : fstate :=
  {| phase := PInt; mant := 10 * mant st + d; scale := scale st;
     eneg := eneg st; expo := expo st |}.

Definition push_frac (d : N) (st : fstate) : fstate :=
  {| phase := PFrac; mant := 10 * mant st + d; scale := scale st + 1;
     eneg := eneg st; expo := expo st |}.

Definition push_exp (d : N) (st : fstate) : fstate :=
  {| phase := PExp; mant := mant st; scale := scale st;
     eneg := eneg st; expo := 10 * expo st + d |}.

Definition set_eneg (b : bool) (st : fstate) : fstate :=
  {| phase := PExpSign; mant := mant st; scale := scale st;
     eneg := b; expo := expo st |}.

Definition is_e (c : ascii) : bool := Ascii.eqb c "e" || Ascii.eqb c "E".

Definition fstep (st : fstate) (c : ascii) : fstate :=
  let fail := set_phase PFail st in
  match phase st with
  | PStart =>
      if is_digit c then push_int (digit_val c) st
      else if Ascii.eqb c "." then set_phase PDot0 st
      else fail
  | PInt =>
      if is_digit c then push_int (digit_val c) st
      else if Ascii.eqb c "." then set_phase PFrac st
      else if is_e c then set_phase PExp0 st
      else fail
  | PDot0 =>
      if is_digit c then push_frac (digit_val c) st else fail
  | PFrac =>
      if is_digit c then push_frac (digit_val c) st
      else if is_e c then set_phase PExp0 st
      else fail
  | PExp0 =>
      if is_digit c then push_exp (digit_val c) st
      else if Ascii.eqb c "+" then set_eneg false st
      else if Ascii.eqb c "-" then set_eneg true st
      else fail
  | PExpSign =>
      if is_digit c then push_exp (digit_val c) st else fail
  | PExp =>
      if is_digit c then push_exp (digit_val c) st else fail
  | PFail => st
  end.

Fixpoint frun (st : fstate) (s : string) : fstate :=
  match s with
  | EmptyString => st
  | String c s' => frun (fstep st c) s'
  end.

(** The power of ten by which the mantissa digits are scaled. *)
Definition exponent (st : fstate) : Z :=
  ((if eneg st then - Z.of_N (expo st) else Z.of_N (expo st))
   - Z.of_N (scale st))%Z.

(** An unsigned decimal numeral, read with the sign [neg]. *)
Definition read_decimal (neg : bool) (s : string) : option float :=
  let st := frun fstate0 s in
  match phase st with
  | PInt | PFrac | PExp => Some (float_of_decimal neg (mant st) (exponent st))
  | _ => None
  end.

(** A signed numeral or one of the words. *)
Definition read_float (s : string) : option float :=
  let '(neg, body) := split_sign s in
  let word := lower body in
  if String.eqb word "inf" || String.eqb word "infinity"
  then Some (S754_infinity neg)
  else if String.eqb word "nan" then Some S754_nan
  else read_decimal neg body.

(** [float(s)]; [None] is ValueError. *)
Definition py_float (s : string) : option float :=
  match drop_underscores Ascii.zero (strip_c s) with
  | Some t => read_float t
  | None => None
  end.

(** [int(s)]; [None] is ValueError.  The bound that an interpreter may be
    set to put on the number of digits is left out. *)
Definition int_of_text (s : string) : option Z :=
  match drop_underscores Ascii.zero (strip_c s) with
  | Some t =>
      let '(neg, body) := split_sign t in
      option_map (fun n => if neg then (- Z.of_N n)%Z else Z.of_N n) (read_N body)
  | None => None
  end.

(** A reading of text cells for [pd.to_numeric(..., errors='coerce')]: a
    signed decimal numeral or one of the words inf, infinity and nan, between
    blanks, gives its float, a numeral rounded to the nearest one; any other
    text gives NaN.  It serves the sample documents; the loader is stated
    for every reading. *)
Definition decimal_of_text (s : string) : float :=
  match read_float (strip_c s) with
  | Some x => x
  | None => nan
  end.

(* ===================================================================== *)
(** ** Cells and frames *)
(* ===================================================================== *)

(** A cell of a sheet read by pandas: empty (NaN), text, or a number.  A
    number carries the text Python's [str] gives for it, since the code uses
    numbers both by value and inside f-strings. *)
Inductive cell :=
| CNaN
| CStr (s : string)
| CNum (x : float) (repr : string).

(** A numeric cell, given by the numeral it shows. *)
Definition num (repr : string) : cell :=
  CNum (match py_float repr with Some x => x | None => nan end) repr.

(** [str(c)] *)
Definition py_str (c : cell) : string :=
  match c with
  | CNaN => "nan"
  | CStr s => s
  | CNum _ r => r
  end.

(** [pd.isna(c)] *)
Definition isna (c : cell) : bool :=
  match c with
  | CNaN => true
  | CStr _ => false
  | CNum x _ => is_nan x
  end.

(** Python [a == b] on cell values: NaN equals nothing. *)
Definition cell_eqb (a b : cell) : bool :=
  match a, b with
  | CStr s, CStr t => String.eqb s t
  | CNum p _, CNum q _ => feq p q
  | _, _ => false
  end.

(** Equality as pandas' [unique] and [drop_duplicates] see it: all missing
    values are one value. *)
Definition cell_same (a b : cell) : bool :=
  (isna a && isna b) || cell_eqb a b.

Definition is_text (c : cell) : bool :=
  match c with CStr _ => true | _ => false end.

(** [c in l] *)
Definition mem (c : cell) (l : list cell) : bool := existsb (cell_eqb c) l.

(** [Series.unique()] / [Series.drop_duplicates()]: first occurrences, in
    order. *)
Fixpoint unique (l : list cell) : list cell :=
  match l with
  | [] => []
  | x :: t => x :: List.filter (fun y => negb (cell_same x y)) (unique t)
  end.

(** [Series.fillna(v)] *)
Definition fillna (v : cell) (c : cell) : cell :=
  if isna c then v else c.

Record frame := {
  columns : list string;
  rows : list (list cell)
}.

Fixpoint col_index (c : string) (cols : list string) : option nat :=
  match cols with
  | [] => None
  | h :: t => if String.eqb c h then Some O
              else option_map S (col_index c t)
  end.

(** [row[c]] for a row of frame [f] *)
Definition getitem (f : frame) (row : list cell) (c : string) : result cell :=
  match col_index c (columns f) with
  | Some i => Ok (nth i row CNaN)
  | None => Raise KeyError
  end.

(** [f[c]], a column as a list *)
Definition column (f : frame) (c : string) : result (list cell) :=
  match col_index c (columns f) with
  | Some i => Ok (map (fun row => nth i row CNaN) (rows f))
  | None => Raise KeyError
  end.

Definition has_column (f : frame) (c : string) : bool :=
  match col_index c (columns f) with Some _ => true | None => false end.

(** [pd.DataFrame()] *)
Definition empty_frame : frame := {| columns := []; rows := [] |}.

Fixpoint mapM {A B} (f : A -> result B) (l : list A) : result (list B) :=
  match l with
  | [] => Ok []
  | x :: t => y <- f x ;; ys <- mapM f t ;; Ok (y :: ys)
  end.

(* ===================================================================== *)
(** ** Order-ID sequencer *)
(* ===================================================================== *)

(** The part of [datetime.now()] that the sequencer reads. *)
Record datetime := { dt_year : Z; dt_month : Z }.

(** [now.strftime("%m-%y")] *)
Definition strftime_m_y (now : datetime) : string :=
  zfill 2 (str_int (dt_month now)) ++ "-" ++ zfill 2 (str_int (dt_year now mod 100)).

(** [datetime] keeps the month between 1 and 12. *)
Definition valid_month (now : datetime) : Prop :=
  (1 <= dt_month now <= 12)%Z.

(** The [counters] table, keyed by [month_year].  A database that cannot be
    opened or queried ([sqlite3.Error]) is [None]. *)
Definition generate_unique_order_id (now : datetime) (db : option (gmap string Z))
  : string * option (gmap string Z) :=
  match db with
  | None => ("ERROR-ID", None)
  | Some counters =>
      let current_month_year := strftime_m_y now in
      let new_counter :=
        match counters !! current_month_year with
        | None => 1%Z
        | Some current_counter => (current_counter + 1)%Z
        end in
      let order_number_str := zfill 5 (str_int new_counter) in
      (current_month_year ++ "-" ++ order_number_str,
       Some (<[current_month_year := new_counter]> counters))
  end.

(** Successive calls, one per clock reading. *)
Fixpoint issue_ids (clock : list datetime) (db : option (gmap string Z))
  : list string * option (gmap string Z) :=
  match clock with
  | [] => ([], db)
  | now :: later =>
      let '(id, db1) := generate_unique_order_id now db in
      let '(ids, db2) := issue_ids later db1 in
      (id :: ids, db2)
  end.

(** The numeric suffix of an identifier: the text after the six characters
    ["MM-YY-"], read as a decimal numeral. *)
Definition id_suffix (id : string) : string :=
  String.substring 6 (String.length id - 6) id.

Definition id_prefix (id : string) : string := String.substring 0 5 id.

(** Number of earlier readings in [clock] with the same month key as [now]. *)
Definition calls_in_month (now : datetime) (clock : list datetime) : Z :=
  Z.of_nat (List.length
    (List.filter (fun t => String.eqb (strftime_m_y t) (strftime_m_y now)) clock)).

(* ===================================================================== *)
(** ** Category normalizer *)
(* ===================================================================== *)

Definition is_laminate_or_liner (product : string) : bool :=
  String.eqb product "laminate" || String.eqb product "liner".

Definition is_plus (c : ascii) : bool := Ascii.eqb c "+".

(** The test made on one mapping row whose keyword is not the wildcard. *)
Definition keyword_hits (keyword raw_cat : string) : bool :=
  if has_char is_plus keyword
  then forallb (fun k => contains (strip k) raw_cat) (split_on is_plus keyword)
  else contains keyword raw_cat.

(** A mapping row decides the scan for [raw_cat]: its keyword is not the
    wildcard and its test succeeds. *)
Definition rule_hits (cat_map_df : frame) (raw_cat : string) (row : list cell) : bool :=
  match getitem cat_map_df row "MATCH KEYWORD" with
  | Ok k =>
      let keyword := upper (py_str k) in
      negb (String.eqb keyword "*") && keyword_hits keyword raw_cat
  | Raise _ => false
  end.

(** A mapping row is a wildcard entry. *)
Definition is_wildcard_row (cat_map_df : frame) (row : list cell) : bool :=
  match getitem cat_map_df row "MATCH KEYWORD" with
  | Ok k => cell_eqb k (CStr "*")
  | Raise _ => false
  end.

(** The [for _, row in cat_map_df.iterrows()] loop: [Some target] when a
    rule returns, [None] when the loop runs to its end. *)
Fixpoint scan_rules (cat_map_df : frame) (rs : list (list cell)) (raw_cat : string)
  : result (option cell) :=
  match rs with
  | [] => Ok None
  | row :: rs' =>
      k <- getitem cat_map_df row "MATCH KEYWORD" ;;
      let keyword := upper (py_str k) in
      target <- getitem cat_map_df row "NORMALIZED CATEGORY" ;;
      if String.eqb keyword "*" then scan_rules cat_map_df rs' raw_cat
      else if keyword_hits keyword raw_cat then Ok (Some target)
      else scan_rules cat_map_df rs' raw_cat
  end.

(** [cat_map_df[cat_map_df['MATCH KEYWORD'] == '*']['NORMALIZED CATEGORY']] *)
Definition wildcard_targets (cat_map_df : frame) : result (list cell) :=
  keys <- column cat_map_df "MATCH KEYWORD" ;;
  targets <- column cat_map_df "NORMALIZED CATEGORY" ;;
  Ok (map snd
        (List.filter (fun kt => cell_eqb (fst kt) (CStr "*"))
                     (combine keys targets))).

(** Python's [None] result is the [CNaN] cell: [fillna] treats both alike. *)
Definition normalize_category (raw_category : cell) (cat_map_df : frame) (product : cell)
  : result cell :=
  if isna raw_category then Ok CNaN
  else
    let raw_cat := upper (py_str raw_category) in
    if contains "TEX" raw_cat then Ok (CStr "TEX CATEGORY")
    else
      let product := lower (py_str product) in
      if is_laminate_or_liner product then
        hit <- scan_rules cat_map_df (rows cat_map_df) raw_cat ;;
        match hit with
        | Some target => Ok target
        | None =>
            default <- wildcard_targets cat_map_df ;;
            match default with
            | d :: _ => Ok d
            | [] => Ok (CStr raw_cat)
            end
        end
      else Ok raw_category.

(* ===================================================================== *)
(** ** Derived-field calculator *)
(* ===================================================================== *)

Definition is_x (c : ascii) : bool := Ascii.eqb c "x" || Ascii.eqb c "X".

(** [calculate_sqft(size, qty)]; every failure inside the [try] gives 0. *)
Definition calculate_sqft (size : cell) (qty : float) : float :=
  match size with
  | CStr size =>
      if negb (contains "X" (upper size)) then fzero
      else
        match split_on is_x size with
        | [p0; p1] =>
            match py_float p0, py_float p1 with
            | Some l, Some b =>
                if fle l (float_of_Z 15) && fle b (float_of_Z 15)
                then fmul (fmul l b) qty
                else fmul (fdiv (fmul l b) (float_of_Z 144)) qty
            | _, _ => fzero
            end
        | _ => fzero
        end
  | _ => fzero
  end.

Fixpoint span (p : ascii -> bool) (s : string) : string * string :=
  match s with
  | EmptyString => (EmptyString, EmptyString)
  | String c s' =>
      if p c then let '(a, b) := span p s' in (String c a, b)
      else (EmptyString, s)
  end.

(** [re.match] at the start of the lowered text, and [float] of the matched
    group: one or more digits, an optional point, further digits; the
    group must be followed by the two letters mm. *)
Definition extract_thickness_from_category (category : string) : option float :=
  let s := lower category in
  let '(d1, r1) := span is_digit s in
  match d1 with
  | EmptyString => None
  | _ =>
      let '(dot, r2) :=
        match r1 with
        | String "." r => (".", r)
        | _ => (EmptyString, r1)
        end in
      let '(d2, r3) := span is_digit r2 in
      if startswith "mm" r3 then py_float (d1 ++ dot ++ d2) else None
  end.

(** A row of the prepared data frame. *)
Record item := {
  PRODUCT : string;
  SIZE : string;
  CATEGORY : string;
  BRAND : string;
  QUANTITY : float;
  CATEGORY_NORM : cell;
  SQFT : float
}.

Definition get_sqft_formula (row : item) (row_num : Z) : string :=
  let product := lower (PRODUCT row) in
  let n := str_int row_num in
  if is_laminate_or_liner product then "0"
  else "=LET(a,LEFT(B" ++ n ++ ",1)*RIGHT(B" ++ n ++ ",1)*E" ++ n
       ++ ",b,LEFT(B" ++ n ++ ",2)*RIGHT(B" ++ n ++ ",2)/144*E" ++ n
       ++ ",IF(LEN(B" ++ n ++ ")<4,a,b))".

(** Float-keyed dictionaries.  Equal floats are one key, the two zeros
    included; NaN equals nothing and is no key. *)
Abbreviation float_id := (Z * Z + bool)%type (only parsing).

Definition float_key (x : float) : option float_id :=
  match x with
  | S754_nan => None
  | S754_zero _ => Some (inl (0, 0)%Z)
  | S754_infinity s => Some (inr s)
  | S754_finite s m e => Some (inl (if s then Z.neg m else Z.pos m, e))
  end.

(** [d[x]] when [x in d] *)
Definition float_lookup (d : gmap float_id cell) (x : float) : option cell :=
  match float_key x with
  | Some k => d !! k
  | None => None
  end.

Definition hardcoded_weights (product : string) : option string :=
  if String.eqb product "door" then Some "1.5"
  else if String.eqb product "board" then Some "1"
  else None.

(** The dictionary [thickness_maps] *)
Definition thickness_maps (hdmr_map mdf_map ply_map pvc_map wpc_map : gmap float_id cell)
    (product : string) : option (gmap float_id cell) :=
  if String.eqb product "hdmr" then Some hdmr_map
  else if String.eqb product "mdf" then Some mdf_map
  else if String.eqb product "ply" then Some ply_map
  else if String.eqb product "pvc door" then Some pvc_map
  else if String.eqb product "wpc board" then Some wpc_map
  else None.

Definition get_weight_formula (row : item)
    (weight_map : gmap (string * string) cell)
    (hdmr_map mdf_map ply_map pvc_map wpc_map : gmap float_id cell)
    (row_num : Z) : string :=
  let product := lower (PRODUCT row) in
  let brand := upper (BRAND row) in
  let category := lower (CATEGORY row) in
  let n := str_int row_num in
  match hardcoded_weights product with
  | Some weight_val => "=F" ++ n ++ "*" ++ weight_val
  | None =>
      let by_thickness :=
        match thickness_maps hdmr_map mdf_map ply_map pvc_map wpc_map product with
        | Some m =>
            match extract_thickness_from_category category with
            | Some thickness =>
                match float_lookup m thickness with
                | Some weight_val =>
                    if String.eqb product "ply" || String.eqb product "pvc door"
                    then Some ("=F" ++ n ++ "*" ++ py_str weight_val)
                    else Some ("=E" ++ n ++ "*" ++ py_str weight_val)
                | None => None
                end
            | None => None
            end
        | None => None
        end in
      match by_thickness with
      | Some formula => formula
      | None =>
          let key := (product, brand) in
          if is_laminate_or_liner product then
            match weight_map !! key with
            | Some weight_val => "=E" ++ n ++ "*" ++ py_str weight_val
            | None => "0"
            end
          else "0"
      end
  end.

(* ===================================================================== *)
(** ** Data loader and sorter *)
(* ===================================================================== *)

(** The uploaded document: [None] when it cannot be opened, otherwise its
    sheets by name.  [pd.read_excel] raises for a missing sheet. *)
Definition read_excel (input_file : option (gmap string frame)) (sheet_name : string)
  : result frame :=
  match input_file with
  | None => Raise ValueError
  | Some sheets =>
      match sheets !! sheet_name with
      | Some f => Ok f
      | None => Raise ValueError
      end
  end.

Record sheets := {
  s_df : frame;
  s_cat_map : frame;
  s_weight_map_df : frame;
  s_hdmr_map_df : frame;
  s_mdf_map_df : frame;
  s_ply_map_df : frame;
  s_pvc_map_df : frame;
  s_wpc_map_df : frame
}.

(** The built-in data of the first [except] branch. *)
Definition fallback_df : frame :=
  {| columns := ["PRODUCT"; "SIZE"; "CATEGORY"; "BRAND"; "QUANTITY"];
     rows := [[CStr "Laminate"; CStr "72x48"; CStr "SF"; CStr "Test"; num "10"]] |}.

Definition fallback_cat_map : frame :=
  {| columns := ["MATCH KEYWORD"; "NORMALIZED CATEGORY"];
     rows := [[CStr "*"; CStr "Default"]] |}.

Definition fallback_sheets : sheets :=
  {| s_df := fallback_df; s_cat_map := fallback_cat_map;
     s_weight_map_df := empty_frame; s_hdmr_map_df := empty_frame;
     s_mdf_map_df := empty_frame; s_ply_map_df := empty_frame;
     s_pvc_map_df := empty_frame; s_wpc_map_df := empty_frame |}.

(** The eight reads share one [try]. *)
Definition read_sheets (input_file : option (gmap string frame)) : result sheets :=
  df <- read_excel input_file "Master" ;;
  cat_map <- read_excel input_file "CategoryMap" ;;
  weight_map_df <- read_excel input_file "WeightMap" ;;
  hdmr_map_df <- read_excel input_file "HDMRWeightMap" ;;
  mdf_map_df <- read_excel input_file "MDFWeightMap" ;;
  ply_map_df <- read_excel input_file "PlyWeightMap" ;;
  pvc_map_df <- read_excel input_file "PVCWeightMap" ;;
  wpc_map_df <- read_excel input_file "WPCBoardWeightMap" ;;
  Ok {| s_df := df; s_cat_map := cat_map; s_weight_map_df := weight_map_df;
        s_hdmr_map_df := hdmr_map_df; s_mdf_map_df := mdf_map_df;
        s_ply_map_df := ply_map_df; s_pvc_map_df := pvc_map_df;
        s_wpc_map_df := wpc_map_df |}.

Definition load_sheets (input_file : option (gmap string frame)) : sheets :=
  match read_sheets input_file with
  | Ok l => l
  | Raise _ => fallback_sheets
  end.

(** The dictionary comprehension over [WeightMap]; any exception gives [{}]. *)
Definition build_weight_map (weight_map_df : frame) : gmap (string * string) cell :=
  match mapM (fun row =>
                p <- getitem weight_map_df row "PRODUCT" ;;
                b <- getitem weight_map_df row "BRAND" ;;
                w <- getitem weight_map_df row "WEIGHT_PER_PCS" ;;
                Ok ((lower (py_str p), upper (py_str b)), w))
             (rows weight_map_df) with
  | Ok kvs => fold_left (fun m kv => <[fst kv := snd kv]> m) kvs ∅
  | Raise _ => ∅
  end.

(** A WeightMap sheet lacking one of the columns the comprehension reads. *)
Definition malformed_weight_sheet (f : frame) : bool :=
  negb (has_column f "PRODUCT" && has_column f "BRAND"
        && has_column f "WEIGHT_PER_PCS").

(** A thickness sheet lacking one of the columns its comprehension reads. *)
Definition malformed_thickness_sheet (f : frame) (value_col : string) : bool :=
  negb (has_column f "THICKNESS" && has_column f value_col).

(** [float(c)]: a missing value converts to NaN; text that [float] does
    not read raises. *)
Definition float_of_cell (c : cell) : result float :=
  match c with
  | CNaN => Ok nan
  | CNum x _ => Ok x
  | CStr s => match py_float s with
              | Some x => Ok x
              | None => Raise ValueError
              end
  end.

(** The comprehensions over the thickness tables.  A NaN key can never be
    looked up again, so its entry is left out. *)
Definition build_thickness_map (map_df : frame) (value_col : string)
  : gmap float_id cell :=
  match mapM (fun row =>
                t <- getitem map_df row "THICKNESS" ;;
                k <- float_of_cell t ;;
                w <- getitem map_df row value_col ;;
                Ok (k, w))
             (rows map_df) with
  | Ok kvs =>
      fold_left (fun m kv =>
                   match float_key (fst kv) with
                   | Some k => <[k := snd kv]> m
                   | None => m
                   end) kvs ∅
  | Raise _ => ∅
  end.

(** [cat_map[cat_map['MATCH KEYWORD'] != '*']['NORMALIZED CATEGORY']
      .drop_duplicates().tolist()] *)
Definition mapped_categories_of (cat_map : frame) : result (list cell) :=
  keys <- column cat_map "MATCH KEYWORD" ;;
  targets <- column cat_map "NORMALIZED CATEGORY" ;;
  Ok (unique (map snd
        (List.filter (fun kt => negb (cell_eqb (fst kt) (CStr "*")))
                     (combine keys targets)))).

Definition SF : cell := CStr "SF".
Definition HG : cell := CStr "HG".
Definition TEX_CATEGORY : cell := CStr "TEX CATEGORY".
Definition UNSPECIFIED : cell := CStr "UNSPECIFIED".

(** The statements building [cat_order], in order. *)
Definition build_cat_order (mapped_categories all_unique_categories : list cell)
  : list cell :=
  (let o1 := if mem SF mapped_categories && mem SF all_unique_categories
            then [SF] else [] in
  let o2 := o1 ++ (if mem HG mapped_categories && mem HG all_unique_categories
                   then [HG] else []) in
  let o3 := o2 ++ List.filter
                    (fun cat => mem cat all_unique_categories
                                && negb (mem cat [SF; HG; TEX_CATEGORY]))
                    mapped_categories in
  let o4 := o3 ++ (if mem TEX_CATEGORY all_unique_categories
                   then [TEX_CATEGORY] else []) in
  let o5 := o4 ++ (if mem UNSPECIFIED all_unique_categories
                   then [UNSPECIFIED] else []) in
  fold_left (fun order cat => if mem cat order then order else order ++ [cat])
            all_unique_categories o5)%list.

(** [df.apply(lambda row: normalize_category(...), axis=1)] *)
Definition category_norm_column (df cat_map : frame) : result (list cell) :=
  mapM (fun row =>
          c <- getitem df row "CATEGORY" ;;
          p <- getitem df row "PRODUCT" ;;
          normalize_category c cat_map p)
       (rows df).

(** The [try] block computing the category order.  On success the frame has
    its [CATEGORY_NORM] column; in the [except] branch it has none and the
    order is empty. *)
Definition category_block (df cat_map : frame) : option (list cell) * list cell :=
  match (mapped_categories <- mapped_categories_of cat_map ;;
         norm <- category_norm_column df cat_map ;;
         let filled := map (fillna UNSPECIFIED) norm in
         let all_unique_categories := unique filled in
         Ok (filled, build_cat_order mapped_categories all_unique_categories)) with
  | Ok (col, order) => (Some col, order)
  | Raise _ => (None, [])
  end.

(** [Series.astype(str).str.strip()] on one value *)
Definition astype_str_strip (c : cell) : string := strip (py_str c).

(** What [pd.to_numeric(..., errors='coerce')] makes of a text: the float
    it reads, NaN when it reads none. *)
Abbreviation reader := (string -> float) (only parsing).

(** [pd.to_numeric(..., errors='coerce')] on one value *)
Definition to_numeric (numeric_of_text : reader) (c : cell) : float :=
  match c with
  | CNaN => nan
  | CNum x _ => x
  | CStr s => numeric_of_text s
  end.

(** [Series.fillna(0)] on one value *)
Definition fillna0 (x : float) : float := if is_nan x then fzero else x.

(** [pd.to_numeric(df['QUANTITY'], errors='coerce').fillna(0)] on one value *)
Definition coerce_quantity (numeric_of_text : reader) (c : cell) : float :=
  fillna0 (to_numeric numeric_of_text c).

Definition has_duplicates (l : list cell) : bool :=
  negb (Nat.eqb (List.length (unique l)) (List.length l)).

(** [pd.Categorical(col, categories=cat_order, ordered=True)]: duplicate
    categories are refused; a value outside the categories becomes NaN. *)
Definition categorical (cat_order col : list cell) : result (list cell) :=
  if has_duplicates cat_order then Raise ValueError
  else Ok (map (fun c => if mem c cat_order then c else CNaN) col).

Fixpoint make_items (product size category brand : list string)
    (quantity : list float) (norm : list cell) : list item :=
  match product, size, category, brand, quantity, norm with
  | p :: ps, s :: ss, c :: cs, b :: bs, q :: qs, n :: ns =>
      {| PRODUCT := p; SIZE := s; CATEGORY := c; BRAND := b; QUANTITY := q;
         CATEGORY_NORM := n; SQFT := calculate_sqft (CStr s) q |}
      :: make_items ps ss cs bs qs ns
  | _, _, _, _, _, _ => []
  end.

(** *** Sort order *)

Definition lex (c1 c2 : comparison) : comparison :=
  match c1 with Eq => c2 | _ => c1 end.

(** Missing keys sort last ([na_position='last']). *)
Definition compare_last {A} (cmp : A -> A -> comparison) (a b : option A) : comparison :=
  match a, b with
  | Some x, Some y => cmp x y
  | Some _, None => Lt
  | None, Some _ => Gt
  | None, None => Eq
  end.

Fixpoint position (c : cell) (l : list cell) : option nat :=
  match l with
  | [] => None
  | h :: t => if cell_eqb c h then Some O else option_map S (position c t)
  end.

(** The order of a float column: by value, the two zeros alike, NaN last. *)
Definition float_compare (x y : float) : comparison :=
  match SFcompare x y with
  | Some c => c
  | None =>
      match is_nan x, is_nan y with
      | true, false => Gt
      | false, true => Lt
      | _, _ => Eq
      end
  end.

(** The sort keys BRAND, CATEGORY_NORM, PRODUCT and SIZE_NUMERIC, the last
    being [pd.to_numeric(df['SIZE'], errors='coerce')]. *)
Definition sort_compare (numeric_of_text : reader) (cat_order : list cell)
    (a b : item) : comparison :=
  lex (String.compare (BRAND a) (BRAND b))
  (lex (compare_last Nat.compare (position (CATEGORY_NORM a) cat_order)
                                 (position (CATEGORY_NORM b) cat_order))
  (lex (String.compare (PRODUCT a) (PRODUCT b))
       (float_compare (numeric_of_text (SIZE a)) (numeric_of_text (SIZE b))))).

Fixpoint insert_sorted (cmp : item -> item -> comparison) (x : item) (l : list item)
  : list item :=
  match l with
  | [] => [x]
  | y :: l' =>
      match cmp x y with
      | Gt => y :: insert_sorted cmp x l'
      | _ => x :: l
      end
  end.

(** [df.sort_values([...], ascending=True, na_position='last')]: a stable
    sort. *)
Definition sort_values (cmp : item -> item -> comparison) (l : list item) : list item :=
  fold_right (insert_sorted cmp) [] l.

Record prepared := {
  df : list item;
  cat_order : list cell;
  weight_map : gmap (string * string) cell;
  hdmr_map : gmap float_id cell;
  mdf_map : gmap float_id cell;
  ply_map : gmap float_id cell;
  pvc_map : gmap float_id cell;
  wpc_map : gmap float_id cell
}.

(** The rows before sorting, from the columns of the loaded frame. *)
Definition annotate (numeric_of_text : reader) (df0 : frame)
    (norm_col : option (list cell)) (cat_order : list cell)
  : result (list item) :=
  product <- column df0 "PRODUCT" ;;
  size <- column df0 "SIZE" ;;
  brand <- column df0 "BRAND" ;;
  category <- column df0 "CATEGORY" ;;
  quantity <- column df0 "QUANTITY" ;;
  norm_col <-
    match cat_order with
    | [] => Ok norm_col
    | _ =>
        match norm_col with
        | Some col => c <- categorical cat_order col ;; Ok (Some c)
        | None => Raise KeyError
        end
    end ;;
  match norm_col with
  | None => Raise KeyError          (* sort_values: no CATEGORY_NORM column *)
  | Some col =>
      Ok (make_items (map astype_str_strip product) (map astype_str_strip size)
                     (map astype_str_strip category) (map astype_str_strip brand)
                     (map (coerce_quantity numeric_of_text) quantity) col)
  end.

(** Everything after the first [try]/[except] of [prepare_data]. *)
Definition prepare_loaded (numeric_of_text : reader) (l : sheets)
  : result prepared :=
  let weight_map := build_weight_map (s_weight_map_df l) in
  let hdmr_map := build_thickness_map (s_hdmr_map_df l) "WEIGHT_PER_PCS" in
  let mdf_map := build_thickness_map (s_mdf_map_df l) "WEIGHT_PER_PCS" in
  let ply_map := build_thickness_map (s_ply_map_df l) "WEIGHT_PER_SQFT" in
  let pvc_map := build_thickness_map (s_pvc_map_df l) "WEIGHT_PER_SQFT" in
  let wpc_map := build_thickness_map (s_wpc_map_df l) "WEIGHT_PER_PCS" in
  let '(norm_col, cat_order) := category_block (s_df l) (s_cat_map l) in
  items <- annotate numeric_of_text (s_df l) norm_col cat_order ;;
  Ok {| df := sort_values (sort_compare numeric_of_text cat_order) items;
        cat_order := cat_order;
        weight_map := weight_map; hdmr_map := hdmr_map; mdf_map := mdf_map;
        ply_map := ply_map; pvc_map := pvc_map; wpc_map := wpc_map |}.

Definition prepare_data (numeric_of_text : reader)
    (input_file : option (gmap string frame)) : result prepared :=
  prepare_loaded numeric_of_text (load_sheets input_file).

(** The five thickness sheets: name, value column, and the dictionary the
    loader builds from each. *)
Definition thickness_sheets
  : list (string * string * (prepared -> gmap float_id cell)) :=
  [("HDMRWeightMap", "WEIGHT_PER_PCS", hdmr_map);
   ("MDFWeightMap", "WEIGHT_PER_PCS", mdf_map);
   ("PlyWeightMap", "WEIGHT_PER_SQFT", ply_map);
   ("PVCWeightMap", "WEIGHT_PER_SQFT", pvc_map);
   ("WPCBoardWeightMap", "WEIGHT_PER_PCS", wpc_map)].

(** The six sheets that hold weights. *)
Definition weight_sheet_names : list string :=
  ["WeightMap"; "HDMRWeightMap"; "MDFWeightMap"; "PlyWeightMap";
   "PVCWeightMap"; "WPCBoardWeightMap"].

(** Two runs of the loader end alike: the same failure, or the same rows in
    the same order with the same category order. *)
Definition same_rows (r r' : result prepared) : Prop :=
  match r, r' with
  | Ok p, Ok p' => df p = df p' /\ cat_order p = cat_order p'
  | Raise e, Raise e' => e = e'
  | _, _ => False
  end.

(** What the loader returns from the built-in data. *)
Definition builtin_prepared : prepared :=
  {| df := [ {| PRODUCT := "Laminate"; SIZE := "72x48"; CATEGORY := "SF";
                BRAND := "Test"; QUANTITY := float_of_Z 10;
                CATEGORY_NORM := CStr "Default";
                SQFT := float_of_Z 240 |} ];
     cat_order := [CStr "Default"];
     weight_map := ∅; hdmr_map := ∅; mdf_map := ∅;
     ply_map := ∅; pvc_map := ∅; wpc_map := ∅ |}.

(* ===================================================================== *)
(** ** Report writer: the data rows *)
(* ===================================================================== *)

(** A value handed to [ws.cell(..., value=...)]: text (a formula when it
    starts with "=") or an integer. *)
Inductive xl_cell :=
| XlStr (s : string)
| XlInt (z : Z).

(** The [try] body of the loop over [category_group.iterrows()]: the
    seven cells of one data row.  The worksheet is keyed by (row, column).
    The conversion of the quantity is the one statement that can raise, for
    a quantity that is infinite or NaN; the four cells written before it
    stay on the sheet.  The result is the sheet and the exception raised, if any. *)
Definition write_data_row (ws : gmap (Z * Z) xl_cell) (row : item)
    (weight_map : gmap (string * string) cell)
    (hdmr_map mdf_map ply_map pvc_map wpc_map : gmap float_id cell)
    (current_row : Z) : gmap (Z * Z) xl_cell * option exn :=
  let ws := <[(current_row, 1%Z) := XlStr (PRODUCT row)]> ws in
  let ws := <[(current_row, 2%Z) := XlStr (SIZE row)]> ws in
  let ws := <[(current_row, 3%Z) := XlStr (CATEGORY row)]> ws in
  let ws := <[(current_row, 4%Z) := XlStr (BRAND row)]> ws in
  match py_int (QUANTITY row) with
  | Raise e => (ws, Some e)
  | Ok quantity =>
      let ws := <[(current_row, 5%Z) := XlInt quantity]> ws in
      let sqft_formula := get_sqft_formula row current_row in
      let ws := <[(current_row, 6%Z) := XlStr sqft_formula]> ws in
      let weight_formula :=
        get_weight_formula row weight_map hdmr_map mdf_map ply_map pvc_map wpc_map
                           current_row in
      (<[(current_row, 7%Z) := XlStr weight_formula]> ws, None)
  end.

(* ===================================================================== *)
(** ** The spreadsheet formulas the writer emits *)
(* ===================================================================== *)

(** Syntax of the fragment used by [get_sqft_formula]. *)
Inductive xl_expr :=
| ENum (z : Z)
| ERef (col row : Z)
| EName (x : string)
| EMul (a b : xl_expr)
| EDiv (a b : xl_expr)
| ELt (a b : xl_expr)
| ELeft (t n : xl_expr)
| ERight (t n : xl_expr)
| ELen (t : xl_expr)
| EIf (c a b : xl_expr)
| ELet (x : string) (e k : xl_expr).

(** [get_column_letter] for the first 26 columns *)
Definition column_letter (col : Z) : string :=
  String (ascii_of_N (64 + Z.to_N col)) EmptyString.

(** Formula text of an expression.  A chain of bindings is written as one
    [LET(x1,e1,x2,e2,body)]; [inlet] tells that the chain is open. *)
Fixpoint render_in (inlet : bool) (e : xl_expr) : string :=
  let close (s : string) := if inlet then s ++ ")" else s in
  match e with
  | ENum z => close (str_int z)
  | ERef col row => close (column_letter col ++ str_int row)
  | EName x => close x
  | EMul a b => close (render_in false a ++ "*" ++ render_in false b)
  | EDiv a b => close (render_in false a ++ "/" ++ render_in false b)
  | ELt a b => close (render_in false a ++ "<" ++ render_in false b)
  | ELeft t n => close ("LEFT(" ++ render_in false t ++ "," ++ render_in false n ++ ")")
  | ERight t n => close ("RIGHT(" ++ render_in false t ++ "," ++ render_in false n ++ ")")
  | ELen t => close ("LEN(" ++ render_in false t ++ ")")
  | EIf c a b =>
      close ("IF(" ++ render_in false c ++ "," ++ render_in false a ++ ","
             ++ render_in false b ++ ")")
  | ELet x e1 k =>
      (if inlet then EmptyString else "LET(")
      ++ x ++ "," ++ render_in false e1 ++ "," ++ render_in true k
  end.

Definition render (e : xl_expr) : string := render_in false e.

(** The formula of [get_sqft_formula] for row [n], as syntax. *)
Definition sqft_expr (n : Z) : xl_expr :=
  let B := ERef 2 n in
  let E := ERef 5 n in
  ELet "a" (EMul (EMul (ELeft B (ENum 1)) (ERight B (ENum 1))) E)
  (ELet "b" (EMul (EDiv (EMul (ELeft B (ENum 2)) (ERight B (ENum 2))) (ENum 144)) E)
  (EIf (ELt (ELen B) (ENum 4)) (EName "a") (EName "b"))).

(** Values of the evaluator: numbers are binary64.  An error value
    ([#VALUE!], [#DIV/0!], [#NUM!], [#NAME?]) is [None]. *)
Inductive xl_value :=
| VEmpty
| VNum (x : float)
| VText (s : string)
| VBool (b : bool).

(** What a reference sees in a cell holding a constant.  Cells holding a
    formula are outside the fragment. *)
Definition cell_value (c : option xl_cell) : option xl_value :=
  match c with
  | None => Some VEmpty
  | Some (XlInt z) => Some (VNum (float_of_Z z))
  | Some (XlStr s) => if startswith "=" s then None else Some (VText s)
  end.

(** Text that stands for a number: a signed decimal numeral between
    blanks. *)
Definition number_of_text (s : string) : option float :=
  let '(neg, body) := split_sign (strip s) in read_decimal neg body.

(** Coercion of an operand of [*] and [/]. *)
Definition to_number (v : xl_value) : option float :=
  match v with
  | VEmpty => Some fzero
  | VNum x => Some x
  | VText s => number_of_text s
  | VBool b => Some (float_of_Z (if b then 1 else 0))
  end.

(** The result of an operation: a number too large for a cell is the
    error [#NUM!]. *)
Definition xl_result (x : float) : option float :=
  if is_finite x then Some x else None.

(** Coercion of the argument of a text function; numbers are rendered when
    they are whole. *)
Definition to_text (v : xl_value) : option string :=
  match v with
  | VEmpty => Some EmptyString
  | VNum x =>
      match py_int x with
      | Ok z => if feq x (float_of_Z z) then Some (str_int z) else None
      | Raise _ => None
      end
  | VText s => Some s
  | VBool b => Some (if b then "TRUE" else "FALSE")
  end.

Definition to_bool (v : xl_value) : option bool :=
  match v with
  | VEmpty => Some false
  | VNum x => Some (negb (feq x fzero))
  | VText _ => None
  | VBool b => Some b
  end.

Definition to_count (v : xl_value) : option nat :=
  match to_number v with
  | Some x =>
      match py_int x with
      | Ok z => if fle fzero x then Some (Z.to_nat z) else None
      | Raise _ => None
      end
  | None => None
  end.

Fixpoint lookup_name (x : string) (env : list (string * option xl_value))
  : option xl_value :=
  match env with
  | [] => None
  | (y, v) :: env' => if String.eqb x y then v else lookup_name x env'
  end.

Definition opt_bind {A B} (o : option A) (k : A -> option B) : option B :=
  match o with Some a => k a | None => None end.

Fixpoint eval (ws : gmap (Z * Z) xl_cell) (env : list (string * option xl_value))
    (e : xl_expr) : option xl_value :=
  match e with
  | ENum z => Some (VNum (float_of_Z z))
  | ERef col row => cell_value (ws !! (row, col))
  | EName x => lookup_name x env
  | EMul a b =>
      opt_bind (opt_bind (eval ws env a) to_number) (fun x =>
      opt_bind (opt_bind (eval ws env b) to_number) (fun y =>
      option_map VNum (xl_result (fmul x y))))
  | EDiv a b =>
      opt_bind (opt_bind (eval ws env a) to_number) (fun x =>
      opt_bind (opt_bind (eval ws env b) to_number) (fun y =>
      if feq y fzero then None else option_map VNum (xl_result (fdiv x y))))
  | ELt a b =>
      opt_bind (eval ws env a) (fun va =>
      opt_bind (eval ws env b) (fun vb =>
      match va, vb with
      | VNum x, VNum y => Some (VBool (flt x y))
      | _, _ => None
      end))
  | ELeft t n =>
      opt_bind (opt_bind (eval ws env t) to_text) (fun s =>
      opt_bind (opt_bind (eval ws env n) to_count) (fun k =>
      Some (VText (String.substring 0 k s))))
  | ERight t n =>
      opt_bind (opt_bind (eval ws env t) to_text) (fun s =>
      opt_bind (opt_bind (eval ws env n) to_count) (fun k =>
      Some (VText (String.substring (String.length s - k) k s))))
  | ELen t =>
      opt_bind (opt_bind (eval ws env t) to_text) (fun s =>
      Some (VNum (float_of_Z (Z.of_nat (String.length s)))))
  | EIf c a b =>
      opt_bind (opt_bind (eval ws env c) to_bool) (fun c' =>
      if c' then eval ws env a else eval ws env b)
  | ELet x e1 k => eval ws ((x, eval ws env e1) :: env) k
  end.

(** The number shown in the SQFT cell of row [n]: the value of the formula
    of [get_sqft_formula] when the cell holds it, the number a constant
    reads as otherwise. *)
Definition sqft_cell_number (ws : gmap (Z * Z) xl_cell) (n : Z) : option float :=
  match ws !! (n, 6%Z) with
  | Some (XlStr s) =>
      if String.eqb s ("=" ++ render (sqft_expr n))
      then opt_bind (eval ws [] (sqft_expr n)) to_number
      else if startswith "=" s then None else number_of_text s
  | Some (XlInt z) => Some (float_of_Z z)
  | None => None
  end.

(** Products of three operands, as the two branches of the formula form them. *)
Definition times3 (x y z : option float) : option xl_value :=
  opt_bind x (fun a => opt_bind y (fun b => opt_bind z (fun c =>
    opt_bind (xl_result (fmul a b)) (fun ab =>
    option_map VNum (xl_result (fmul ab c)))))).

Definition times3_per_144 (x y z : option float) : option xl_value :=
  opt_bind x (fun a => opt_bind y (fun b => opt_bind z (fun c =>
    opt_bind (xl_result (fmul a b)) (fun ab =>
    opt_bind (xl_result (fdiv ab (float_of_Z 144))) (fun q =>
    option_map VNum (xl_result (fmul q c))))))).

Fixpoint all_digits (s : string) : bool :=
  match s with
  | EmptyString => true
  | String c s' => is_digit c && all_digits s'
  end.

(* ===================================================================== *)
(** ** Sample documents *)
(* ===================================================================== *)

Definition master_columns : list string :=
  ["PRODUCT"; "SIZE"; "CATEGORY"; "BRAND"; "QUANTITY"].

Definition cat_map_columns : list string :=
  ["MATCH KEYWORD"; "NORMALIZED CATEGORY"].

Definition weight_columns : list string :=
  ["PRODUCT"; "BRAND"; "WEIGHT_PER_PCS"].

(** A document with all eight sheets; the five thickness sheets are empty. *)
Definition workbook (master cat_map weight : frame) : gmap string frame :=
  <["Master" := master]>
  (<["CategoryMap" := cat_map]>
  (<["WeightMap" := weight]>
  (<["HDMRWeightMap" := empty_frame]>
  (<["MDFWeightMap" := empty_frame]>
  (<["PlyWeightMap" := empty_frame]>
  (<["PVCWeightMap" := empty_frame]>
  (<["WPCBoardWeightMap" := empty_frame]> ∅))))))).

Definition sample_cat_map : frame :=
  {| columns := cat_map_columns;
     rows := [[CStr "gloss"; CStr "HG"]; [CStr "zebra"; CStr "Z"]] |}.

Definition sample_weights : frame :=
  {| columns := weight_columns;
     rows := [[CStr "Laminate"; CStr "Acme"; num "2.5"]] |}.

(** Rows whose normalized categories are SF, Z, HG and TEX CATEGORY, in
    that first-seen order. *)
Definition sample_master : frame :=
  {| columns := master_columns;
     rows := [[CStr "Laminate"; CStr "8x4"; CStr "sf"; CStr "Acme"; num "4"];
              [CStr "Laminate"; CStr "8x4"; CStr "Zebra"; CStr "Acme"; num "2.5"];
              [CStr "Liner"; CStr "10x12"; CStr "High Gloss"; CStr "Acme"; CStr "n/a"];
              [CStr "Door"; CStr "72x48"; CStr "Textured"; CStr "Bolt"; num "-5"]] |}.

(** A mapping table with a rule whose target is the label UNSPECIFIED. *)
Definition unspecified_cat_map : frame :=
  {| columns := cat_map_columns;
     rows := [[CStr "plain"; CStr "UNSPECIFIED"]] |}.

Definition blank_category_master : frame :=
  {| columns := master_columns;
     rows := [[CStr "Laminate"; CStr "8x4"; CNaN; CStr "Acme"; num "5"]] |}.

(** An HDMR sheet without its THICKNESS column. *)
Definition malformed_hdmr : frame :=
  {| columns := ["WEIGHT_PER_PCS"]; rows := [[num "30"]] |}.

(** A WeightMap sheet without its BRAND column. *)
Definition malformed_weights : frame :=
  {| columns := ["PRODUCT"; "WEIGHT_PER_PCS"];
     rows := [[CStr "Laminate"; num "2.5"]] |}.

(** A mapping sheet without its NORMALIZED CATEGORY column. *)
Definition malformed_cat_map : frame :=
  {| columns := ["MATCH KEYWORD"]; rows := [[CStr "gloss"]] |}.

Definition sample_workbook : option (gmap string frame) :=
  Some (workbook sample_master sample_cat_map sample_weights).

Definition sample_row (product size : string) (quantity : float) : item :=
  {| PRODUCT := product; SIZE := size; CATEGORY := "Plain"; BRAND := "Acme";
     QUANTITY := quantity; CATEGORY_NORM := CStr "Plain";
     SQFT := calculate_sqft (CStr size) quantity |}.

Definition march_2026 : datetime := {| dt_year := 2026; dt_month := 3 |}.
Definition april_2026 : datetime := {| dt_year := 2026; dt_month := 4 |}.
Definition november_2026 : datetime := {| dt_year := 2026; dt_month := 11 |}.

(** Two reports in March, then one in April. *)
Definition sample_clock : list datetime := [march_2026; march_2026; april_2026].

(** A month with a hundred thousand reports. *)
Definition busy_month : list datetime := repeat november_2026 (N.to_nat 100000).

(* ===================================================================== *)
(** ** Further sample documents *)
(* ===================================================================== *)

(** A mapping table in which several rules and two wildcard entries
    compete. *)
Definition layered_cat_map : frame :=
  {| columns := cat_map_columns;
     rows := [[CStr "suede"; CStr "SF"];
              [CStr "*"; CStr "OTHER"];
              [CStr "gloss + high"; CStr "HG"];
              [CStr "gloss"; CStr "GL"];
              [CStr "*"; CStr "LAST"]] |}.

(** An HDMR sheet that lists the 18 mm board twice, once as a number and
    once as text. *)
Definition hdmr_sheet : frame :=
  {| columns := ["THICKNESS"; "WEIGHT_PER_PCS"];
     rows := [[num "18"; num "30"];
              [num "12"; num "21"];
              [CStr "18.0"; num "31.5"]] |}.

(** An HDMR sheet with one thickness that is not a numeral. *)
Definition unreadable_hdmr_sheet : frame :=
  {| columns := ["THICKNESS"; "WEIGHT_PER_PCS"];
     rows := [[num "18"; num "30"];
              [CStr "twelve"; num "21"]] |}.

(** A WeightMap sheet that lists one product and brand twice, in different
    letter case. *)
Definition repeated_weights : frame :=
  {| columns := weight_columns;
     rows := [[CStr "Laminate"; CStr "Acme"; num "2.5"];
              [CStr "Liner"; CStr "Acme"; num "1"];
              [CStr "LAMINATE"; CStr "acme"; num "3"]] |}.

(** Two HDMR rows: a category that begins with the thickness, and one that
    begins with a word. *)
Definition hdmr_row : item :=
  {| PRODUCT := "HDMR"; SIZE := "8x4"; CATEGORY := "18MM Plain"; BRAND := "Acme";
     QUANTITY := float_of_Z 2; CATEGORY_NORM := CStr "18MM Plain";
     SQFT := float_of_Z 64 |}.

Definition worded_hdmr_row : item :=
  {| PRODUCT := "HDMR"; SIZE := "8x4"; CATEGORY := "Plain 18mm"; BRAND := "Acme";
     QUANTITY := float_of_Z 2; CATEGORY_NORM := CStr "Plain 18mm";
     SQFT := float_of_Z 64 |}.

(* ===================================================================== *)
(** ** Three-way comparisons *)
(* ===================================================================== *)

(** The laws that make a three-way comparison a total preorder: swapping
    the arguments reverses the answer, "less" is transitive, and arguments
    that compare equal compare alike against everything else. *)
Record ordering {A : Type} (cmp : A -> A -> comparison) : Prop := {
  ord_sym : forall x y, cmp y x = CompOpp (cmp x y);
  ord_trans : forall x y z, cmp x y = Lt -> cmp y z = Lt -> cmp x z = Lt;
  ord_eq : forall x y z, cmp x y = Eq -> cmp x z = cmp y z
}.

(** The order of floats is the order of three integers: the kind of the
    float (negative infinity, negative, zero, positive, positive infinity,
    NaN), then the exponent, then the mantissa, the last two counted
    downwards for a negative float. *)
Definition float_rank (x : float) : Z * Z * Z :=
  match x with
  | S754_infinity true => (-2, 0, 0)
  | S754_finite true m e => (-1, - e, Z.neg m)
  | S754_zero _ => (0, 0, 0)
  | S754_finite false m e => (1, e, Z.pos m)
  | S754_infinity false => (2, 0, 0)
  | S754_nan => (3, 0, 0)
  end%Z.

Definition rank_compare (r r' : Z * Z * Z) : comparison :=
  lex (Z.compare (fst (fst r)) (fst (fst r')))
      (lex (Z.compare (snd (fst r)) (snd (fst r')))
           (Z.compare (snd r) (snd r'))).

(* ===================================================================== *)
(** ** Loader: the fields of a returned row *)
(* ===================================================================== *)

(** The five fields of a returned row, from the cells of a Master row. *)
Definition row_fields (numeric_of_text : reader) (product size category brand quantity : cell)
  : string * string * string * string * float :=
  (strip (py_str product), strip (py_str size), strip (py_str category),
   strip (py_str brand), coerce_quantity numeric_of_text quantity).

(* ===================================================================== *)
(** ** Report writer: groups, totals and the order record *)
(* ===================================================================== *)

(** The worksheet as the values of its cells, keyed by (row, column).  Fonts,
    fills, borders, merged ranges, column widths and the page setup carry no
    value and are left out; so are [style_row] and the border loop of
    [add_blank_row]. *)
Abbreviation sheet := (gmap (Z * Z) xl_cell) (only parsing).

(** [add_blank_row(ws, current_row)] *)
Definition add_blank_row (ws : sheet) (current_row : Z) : sheet * Z :=
  (ws, (current_row + 1)%Z).

(** [add_separator_row(ws, current_row, height)]: seven empty texts. *)
Definition add_separator_row (ws : sheet) (current_row : Z) : sheet * Z :=
  (fold_left (fun ws c => <[(current_row, c) := XlStr EmptyString]> ws)
             [1; 2; 3; 4; 5; 6; 7]%Z ws,
   (current_row + 1)%Z).

(** *** [groupby(..., sort=False)]

    Groups come in the order in which their keys first appear and keep
    their rows in frame order; rows whose key is missing belong to no
    group.  The empty groups that pandas yields for categories without rows
    are left out: the writer does nothing for them. *)
Fixpoint add_to_group {K : Type} (eqb : K -> K -> bool) (k : K) (x : item)
    (groups : list (K * list item)) : list (K * list item) :=
  match groups with
  | [] => [(k, [x])]
  | (k', g) :: rest =>
      if eqb k k' then (k', (g ++ [x])%list) :: rest
      else (k', g) :: add_to_group eqb k x rest
  end.

Definition groupby {K : Type} (eqb : K -> K -> bool) (key : item -> option K)
    (rows : list item) : list (K * list item) :=
  fold_left (fun groups x =>
               match key x with
               | Some k => add_to_group eqb k x groups
               | None => groups
               end) rows [].

Definition brand_key (row : item) : option string := Some (BRAND row).

Definition category_key (row : item) : option cell :=
  if isna (CATEGORY_NORM row) then None else Some (CATEGORY_NORM row).

(** *** Ranges and totals *)

(** [f"{col}{first}:{col}{last}"] *)
Definition cell_range (col : string) (first last : Z) : string :=
  col ++ str_int first ++ ":" ++ col ++ str_int last.

(** [sep.join(l)] *)
Fixpoint join (sep : string) (l : list string) : string :=
  match l with
  | [] => EmptyString
  | [x] => x
  | x :: t => x ++ sep ++ join sep t
  end.

(** The three lists of ranges that the writer keeps side by side. *)
Record ranges := {
  qty_ranges : list string;
  sqft_ranges : list string;
  weight_ranges : list string
}.

Definition no_ranges : ranges :=
  {| qty_ranges := []; sqft_ranges := []; weight_ranges := [] |}.

(** The three [append] calls after a category subtotal. *)
Definition append_ranges (rg : ranges) (first last : Z) : ranges :=
  {| qty_ranges := (qty_ranges rg ++ [cell_range "E" first last])%list;
     sqft_ranges := (sqft_ranges rg ++ [cell_range "F" first last])%list;
     weight_ranges := (weight_ranges rg ++ [cell_range "G" first last])%list |}.

(** The three [extend] calls after a brand. *)
Definition extend_ranges (rg more : ranges) : ranges :=
  {| qty_ranges := (qty_ranges rg ++ qty_ranges more)%list;
     sqft_ranges := (sqft_ranges rg ++ sqft_ranges more)%list;
     weight_ranges := (weight_ranges rg ++ weight_ranges more)%list |}.

(** The value of a total cell: [f"=SUM({','.join(ranges)})"]. *)
Definition sum_formula (rs : list string) : string :=
  "=SUM(" ++ join "," rs ++ ")".

(** Columns 5 to 7 of a brand total or of the grand total: sums over the
    collected ranges, or 0 when there are none. *)
Definition write_totals (ws : sheet) (current_row : Z) (rg : ranges) : sheet :=
  match qty_ranges rg with
  | _ :: _ =>
      let ws := <[(current_row, 5%Z) := XlStr (sum_formula (qty_ranges rg))]> ws in
      let ws := <[(current_row, 6%Z) := XlStr (sum_formula (sqft_ranges rg))]> ws in
      <[(current_row, 7%Z) := XlStr (sum_formula (weight_ranges rg))]> ws
  | [] =>
      let ws := <[(current_row, 5%Z) := XlInt 0]> ws in
      let ws := <[(current_row, 6%Z) := XlInt 0]> ws in
      <[(current_row, 7%Z) := XlInt 0]> ws
  end.

(** *** The loops of [write_report] *)

Section Writer.

Context (wm : gmap (string * string) cell)
        (hd md pl pv wp : gmap float_id cell).

(** [for _, row in category_group.iterrows()]: one data row each.  The
    row counter only chooses the fill colour.  When the body raises, the
    [except] branch goes on with the next row at the same sheet row. *)
Definition write_rows (category_group : list item) (st : sheet * Z) : sheet * Z :=
  fold_left (fun (st : sheet * Z) row =>
               let '(ws, current_row) := st in
               match write_data_row ws row wm hd md pl pv wp current_row with
               | (ws, None) => (ws, (current_row + 1)%Z)
               | (ws, Some _) => (ws, current_row)
               end)
            category_group st.

(** The body of [for category_name, category_group in category_norm_grouped]:
    the rows of the group, then its subtotal row and a blank row. *)
Definition write_category_group (st : sheet * Z * ranges)
    (group : cell * list item) : sheet * Z * ranges :=
  let '(ws, current_row, brand_total) := st in
  let '(category_name, category_group) := group in
  let category_data_start_row := current_row in
  let '(ws, current_row) := write_rows category_group (ws, current_row) in
  if (current_row >? category_data_start_row)%Z then
    let category_data_end_row := (current_row - 1)%Z in
    let ws := <[(current_row, 1%Z) := XlStr (py_str category_name)]> ws in
    let ws := <[(current_row, 5%Z) :=
                  XlStr ("=SUM(" ++ cell_range "E" category_data_start_row
                                               category_data_end_row ++ ")")]> ws in
    let ws := <[(current_row, 6%Z) :=
                  XlStr ("=SUM(" ++ cell_range "F" category_data_start_row
                                               category_data_end_row ++ ")")]> ws in
    let ws := <[(current_row, 7%Z) :=
                  XlStr ("=SUM(" ++ cell_range "G" category_data_start_row
                                               category_data_end_row ++ ")")]> ws in
    let brand_total :=
      append_ranges brand_total category_data_start_row category_data_end_row in
    let current_row := (current_row + 1)%Z in
    let '(ws, current_row) := add_blank_row ws current_row in
    (ws, current_row, brand_total)
  else (ws, current_row, brand_total).

(** The body of [for brand_name, brand_group in brand_grouped]: the
    category groups of the brand, its total row and a blank row. *)
Definition write_brand_group (st : sheet * Z * ranges)
    (group : string * list item) : sheet * Z * ranges :=
  let '(ws, current_row, all_ranges) := st in
  let '(brand_name, brand_group) := group in
  let category_norm_grouped := groupby cell_eqb category_key brand_group in
  let '(ws, current_row, brand_total) :=
    fold_left write_category_group category_norm_grouped
              (ws, current_row, no_ranges) in
  let '(ws, current_row) :=
    if (0 <? List.length brand_group)%nat then
      let ws := <[(current_row, 1%Z) := XlStr ("BRAND TOTAL: " ++ brand_name)]> ws in
      let ws := write_totals ws current_row brand_total in
      let current_row := (current_row + 1)%Z in
      add_blank_row ws current_row
    else (ws, current_row) in
  (ws, current_row, extend_ranges all_ranges brand_total).

End Writer.

(** *** The order record *)

(** A row of the [sale_orders] table; its [id] is its position. *)
Record sale_order := {
  so_username : string;
  so_dealer_name : string;
  so_city : string;
  so_order_id : string;
  so_report_name : string;
  so_generated_at : string
}.

(** [log_order_to_database]: one row is appended; with a database that
    cannot be used ([None]) the error is printed and nothing is stored.
    [generated_at] is the text of [datetime.now().isoformat()]. *)
Definition log_order_to_database (username dealer_name city order_id report_name : string)
    (generated_at : string) (sale_orders : option (list sale_order))
  : option (list sale_order) :=
  match sale_orders with
  | None => None
  | Some logged =>
      Some (logged ++ [ {| so_username := username; so_dealer_name := dealer_name;
                           so_city := city; so_order_id := order_id;
                           so_report_name := report_name;
                           so_generated_at := generated_at |} ])%list
  end.

(** [value if value else "N/A"] *)
Definition or_na (value : string) : string :=
  match value with
  | EmptyString => "N/A"
  | _ => value
  end.

(** [os.path.basename] *)
Definition basename (path : string) : string :=
  List.last (split_on (fun c => Ascii.eqb c "/") path) EmptyString.

Definition headers : list string :=
  ["PRODUCT"; "SIZE"; "CATEGORY"; "BRAND"; "QUANTITY"; "SQFT"; "WEIGHT"].

(** [enumerate(l, start)] *)
Fixpoint enumerate {A : Type} (start : Z) (l : list A) : list (Z * A) :=
  match l with
  | [] => []
  | x :: t => (start, x) :: enumerate (start + 1)%Z t
  end.

(** What [write_report] leaves behind: the saved worksheet, the value of
    [current_row] at that point, the counter table and the order log. *)
Record report := {
  saved : sheet;
  next_row : Z;
  counters_after : option (gmap string Z);
  sale_orders_after : option (list sale_order)
}.

(** [write_report].  [now] is the clock reading of the identifier,
    [generated_at] that of the log entry; saving the file is taken to
    succeed.  Grouping a frame that has its BRAND and CATEGORY_NORM columns
    does not raise, so the two fallback groupings are left out. *)
Definition write_report (df : list item) (output_file : string)
    (wm : gmap (string * string) cell)
    (hd md pl pv wp : gmap float_id cell)
    (username dealer_name city order_date freight_condition : string)
    (now : datetime) (generated_at : string)
    (counters : option (gmap string Z)) (sale_orders : option (list sale_order))
  : report :=
  let ws : sheet := ∅ in
  let ws := <[(1, 4)%Z := XlStr "PROVISIONAL ORDER"]> ws in
  let ws := <[(2, 4)%Z := XlStr "N T WOOD.PVT. LTD"]> ws in
  let current_row := 4%Z in
  let '(unique_id, counters) := generate_unique_order_id now counters in
  let info_data :=
    [("DATE", order_date); ("DEALER NAME", dealer_name); ("CITY", city);
     ("FREIGHT CONDITION", freight_condition); ("ORDER ID", unique_id)] in
  let '(ws, current_row) :=
    fold_left (fun (st : sheet * Z) (entry : string * string) =>
                 let '(ws, current_row) := st in
                 let '(title, value) := entry in
                 let ws := <[(current_row, 1%Z) := XlStr title]> ws in
                 let ws := <[(current_row, 2%Z) := XlStr (or_na value)]> ws in
                 (ws, (current_row + 1)%Z))
              info_data (ws, current_row) in
  let current_row := (current_row + 1)%Z in
  let ws :=
    fold_left (fun (ws : sheet) (h : Z * string) =>
                 <[(current_row, fst h) := XlStr (snd h)]> ws)
              (enumerate 1 headers) ws in
  let current_row := (current_row + 1)%Z in
  let brand_grouped := groupby String.eqb brand_key df in
  let '(ws, current_row, all_ranges) :=
    fold_left (write_brand_group wm hd md pl pv wp) brand_grouped
              (ws, current_row, no_ranges) in
  let '(ws, current_row) := add_separator_row ws current_row in
  let ws := <[(current_row, 1%Z) := XlStr "GRAND TOTAL"]> ws in
  let ws := write_totals ws current_row all_ranges in
  let current_row := (current_row + 1)%Z in
  let footer_text :=
    "Report Generated by NT Wood Management System | Total Items: "
    ++ str_int (Z.of_nat (List.length df)) ++ " | Brands: "
    ++ str_int (Z.of_nat (List.length (unique (map (fun row => CStr (BRAND row)) df)))) in
  let ws := <[(current_row, 1%Z) := XlStr footer_text]> ws in
  let current_row := (current_row + 1)%Z in
  let report_filename := basename output_file in
  let sale_orders :=
    log_order_to_database username dealer_name city unique_id report_filename
                          generated_at sale_orders in
  {| saved := ws; next_row := current_row;
     counters_after := counters; sale_orders_after := sale_orders |}.

(** *** Reading a written sheet *)

(** Row [n] of the sheet is the data row of [row]: its seven cells are the
    ones the row loop writes for [row] at [n]. *)
Definition is_data_row (ws : sheet) (wm : gmap (string * string) cell)
    (hd md pl pv wp : gmap float_id cell) (n : Z) (row : item) : Prop :=
  snd (write_data_row ∅ row wm hd md pl pv wp n) = None
  /\ forall c, (1 <= c <= 7)%Z ->
       ws !! (n, c) = fst (write_data_row ∅ row wm hd md pl pv wp n) !! (n, c).

(** A block: consecutive rows of the sheet, from a first row on, and the
    rows of the frame written there. *)
Abbreviation block := (Z * list item)%type (only parsing).

Definition block_first (b : block) : Z := fst b.

Definition block_last (b : block) : Z :=
  (fst b + Z.of_nat (List.length (snd b)) - 1)%Z.

Definition block_range (col : string) (b : block) : string :=
  cell_range col (block_first b) (block_last b).

(** Every row of the block is on the sheet, in order. *)
Definition placed (ws : sheet) (wm : gmap (string * string) cell)
    (hd md pl pv wp : gmap float_id cell) (b : block) : Prop :=
  forall i row, nth_error (snd b) i = Some row ->
    is_data_row ws wm hd md pl pv wp (fst b + Z.of_nat i)%Z row.

(** The integer cells of a column over the rows of some blocks, added up:
    the value of a SUM over these ranges when the column holds integers. *)
Definition integer_at (ws : sheet) (col : Z) (n : Z) : Z :=
  match ws !! (n, col) with
  | Some (XlInt z) => z
  | _ => 0%Z
  end.

Definition block_rows (b : block) : list Z :=
  map (fun i => (fst b + Z.of_nat i)%Z) (seq 0 (List.length (snd b))).

Definition sum_blocks (ws : sheet) (col : Z) (blocks : list block) : Z :=
  fold_right Z.add 0%Z (map (integer_at ws col) (flat_map block_rows blocks)).

(** The quantity of a row as its cell shows it. *)
Definition quantity_shown (row : item) : Z :=
  match py_int (QUANTITY row) with
  | Ok z => z
  | Raise _ => 0%Z
  end.

(** A row that the row loop writes: its quantity is a finite number. *)
Definition writable (row : item) : bool := is_finite (QUANTITY row).

(** The quantities, as written, of some rows of the frame, added up. *)
Definition total_quantity (l : list item) : Z :=
  fold_right Z.add 0%Z (map quantity_shown l).

(** The blocks lie one after the other between the rows [lo] and [hi],
    each followed by a row of its own (its subtotal) before the next block
    or [hi]. *)
Fixpoint ordered_blocks (lo : Z) (blocks : list block) (hi : Z) : Prop :=
  match blocks with
  | [] => (lo <= hi)%Z
  | b :: rest =>
      (lo <= block_first b)%Z /\ ordered_blocks (block_last b + 2) rest hi
  end.

(** The subtotal row of a block: directly below it, a label in column 1
    and, in columns 5 to 7, the sums over the rows of the block. *)
Definition has_subtotal (ws : sheet) (label : string) (b : block) : Prop :=
  let n := (block_last b + 1)%Z in
  ws !! (n, 1%Z) = Some (XlStr label)
  /\ ws !! (n, 5%Z) = Some (XlStr ("=SUM(" ++ block_range "E" b ++ ")"))
  /\ ws !! (n, 6%Z) = Some (XlStr ("=SUM(" ++ block_range "F" b ++ ")"))
  /\ ws !! (n, 7%Z) = Some (XlStr ("=SUM(" ++ block_range "G" b ++ ")")).

(** The ranges of some blocks, column by column. *)
Definition ranges_of (blocks : list block) : ranges :=
  {| qty_ranges := map (block_range "E") blocks;
     sqft_ranges := map (block_range "F") blocks;
     weight_ranges := map (block_range "G") blocks |}.

(** A total row: a label in column 1 and, in columns 5 to 7, what
    [write_totals] makes of the ranges of the blocks. *)
Definition has_totals (ws : sheet) (n : Z) (label : string) (blocks : list block)
  : Prop :=
  ws !! (n, 1%Z) = Some (XlStr label)
  /\ forall c, (5 <= c <= 7)%Z ->
       ws !! (n, c) = write_totals ∅ n (ranges_of blocks) !! (n, c).

(** What the writer leaves for one brand group between the rows [lo] and
    [hi]: the blocks of its category groups, each with its subtotal row,
    and the total row of the brand. *)
Definition brand_written (ws : sheet) (lo hi : Z) (group : string * list item)
    (blocks : list block) : Prop :=
  let categories := groupby cell_eqb category_key (snd group) in
  Forall2 (fun g b => snd b = snd g /\ has_subtotal ws (py_str (fst g)) b)
          categories blocks
  /\ exists n, (lo <= n < hi)%Z
               /\ has_totals ws n ("BRAND TOTAL: " ++ fst group) blocks.

(** *** Reading the groups *)

(** The row [x] has a key equal to [k]. *)
Definition has_key {K : Type} (eqb : K -> K -> bool) (key : item -> option K)
    (k : K) (x : item) : bool :=
  match key x with
  | Some k' => eqb k' k
  | None => false
  end.

(** Groups formed from the rows [l]: each holds, in frame order, the rows
    of [l] whose key equals its own, and at least one; no two groups have
    equal keys; every keyed row of [l] has its group. *)
Definition grouped {K : Type} (eqb : K -> K -> bool) (key : item -> option K)
    (l : list item) (groups : list (K * list item)) : Prop :=
  Forall (fun kg => snd kg = List.filter (has_key eqb key (fst kg)) l
                    /\ snd kg <> []) groups
  /\ ForallOrdPairs (fun kg kg' => eqb (fst kg) (fst kg') = false) groups
  /\ forall x k, In x l -> key x = Some k ->
       exists kg, In kg groups /\ eqb k (fst kg) = true.

(** *** Sample reports *)

Definition two_brand_rows : list item :=
  [ {| PRODUCT := "Laminate"; SIZE := "8x4"; CATEGORY := "sf"; BRAND := "Acme";
       QUANTITY := float_of_Z 4; CATEGORY_NORM := SF; SQFT := float_of_Z 128 |};
    {| PRODUCT := "Door"; SIZE := "72x48"; CATEGORY := "Textured"; BRAND := "Bolt";
       QUANTITY := float_of_decimal false 35 (-1); CATEGORY_NORM := TEX_CATEGORY;
       SQFT := float_of_Z 84 |};
    {| PRODUCT := "Laminate"; SIZE := "8x4"; CATEGORY := "suede"; BRAND := "Acme";
       QUANTITY := float_of_Z 2; CATEGORY_NORM := SF; SQFT := float_of_Z 64 |};
    {| PRODUCT := "Liner"; SIZE := "10x12"; CATEGORY := "High Gloss"; BRAND := "Acme";
       QUANTITY := float_of_Z 1; CATEGORY_NORM := HG; SQFT := float_of_Z 120 |};
    {| PRODUCT := "Board"; SIZE := "8x4"; CATEGORY := "lost"; BRAND := "Acme";
       QUANTITY := float_of_Z 9; CATEGORY_NORM := CNaN; SQFT := float_of_Z 288 |} ].

Definition sample_report : report :=
  write_report two_brand_rows "/var/data/reports/Acme_SALE_ORDER.xlsx"
               (build_weight_map sample_weights) ∅ ∅ ∅ ∅ ∅
               "asha" "Acme Traders" EmptyString "03-11-2026" "Paid"
               november_2026 "2026-11-03T10:15:00" (Some ∅) (Some []).

(* ===================================================================== *)
(** ** The web application: helpers of [app.py] *)
(* ===================================================================== *)

Definition is_dot (c : ascii) : bool := Ascii.eqb c ".".
Definition is_dash (c : ascii) : bool := Ascii.eqb c "-".
Definition is_slash (c : ascii) : bool := Ascii.eqb c "/".

Definition ALLOWED_EXTENSIONS : list string := ["xls"; "xlsx"].

(** [allowed_file]: [filename.rsplit('.', 1)[1]] is the text after the last
    dot. *)
Definition allowed_file (filename : string) : bool :=
  has_char is_dot filename
  && existsb (String.eqb (lower (List.last (split_on is_dot filename) EmptyString)))
             ALLOWED_EXTENSIONS.

(** [get_next_suggested_order_id], from the result of
    [get_latest_order_id_global] ([None] when there is no identifier or the
    query fails) and the clock. *)
Definition get_next_suggested_order_id (last_id : option string) (now : datetime)
  : string :=
  let first_of_month := (strftime_m_y now ++ "-") ++ "00001" in
  match last_id with
  | None | Some EmptyString => first_of_month
  | Some last_id =>
      match split_on is_dash last_id with
      | [p0; p1; num_part] =>
          let month_year := p0 ++ "-" ++ p1 in
          let current_month_year := strftime_m_y now in
          if String.eqb month_year current_month_year then
            match int_of_text num_part with
            | Some n => current_month_year ++ "-" ++ zfill 5 (str_int (n + 1))
            | None => first_of_month
            end
          else current_month_year ++ "-" ++ zfill 5 (str_int 1)
      | _ => first_of_month
      end
  end.

(** *** The name of a report ([order_form]) *)

Definition is_safe_char (c : ascii) : bool :=
  is_lower_letter c || is_upper_letter c || is_digit c
  || Ascii.eqb c "_" || Ascii.eqb c "." || Ascii.eqb c "-".

(** The substitution of "_" for every maximal run of characters outside
    a-z, A-Z, 0-9, "_", "." and "-"; [in_run] tells that the character
    before belonged to such a run. *)
Fixpoint sub_unsafe (in_run : bool) (s : string) : string :=
  match s with
  | EmptyString => EmptyString
  | String c s' =>
      if is_safe_char c then String c (sub_unsafe false s')
      else if in_run then sub_unsafe true s'
      else String "_" (sub_unsafe true s')
  end.

Definition safe_dealer_name (dealer_name : string) : string :=
  sub_unsafe false dealer_name.

(** [f"{safe_dealer_name}_{timestamp}_SALE_ORDER.xlsx"] *)
Definition report_name (dealer_name timestamp : string) : string :=
  safe_dealer_name dealer_name ++ "_" ++ timestamp ++ "_SALE_ORDER.xlsx".

Fixpoint endswith_slash (s : string) : bool :=
  match s with
  | EmptyString => false
  | String c EmptyString => is_slash c
  | String _ s' => endswith_slash s'
  end.

(** [os.path.join(a, b)] *)
Definition path_join (a b : string) : string :=
  if startswith "/" b then b
  else match a with
       | EmptyString => b
       | _ => if endswith_slash a then a ++ b else a ++ "/" ++ b
       end.

Definition REPORT_FOLDER : string := path_join "/var/data" "reports".

(** *** Sessions

    The dictionary [ACTIVE_SESSIONS] of the process and, for every client,
    the ['user'] entry of its session cookie. *)
Record server := {
  ACTIVE_SESSIONS : gset string;
  session_user : gmap nat string
}.

Definition fresh_server : server :=
  {| ACTIVE_SESSIONS := ∅; session_user := ∅ |}.

Inductive request :=
| PostLogin (username password : string)   (* POST /login *)
| Logout                                   (* /logout *)
| Protected                                (* a route behind login_required *)
| CookieLost.                              (* the cookie expires or is deleted *)

Definition is_empty (s : string) : bool :=
  match s with EmptyString => true | _ => false end.

Section Sessions.

(** The table of users and [bcrypt.check_password_hash]; a hash that the
    library rejects counts as a failed check. *)
Context (USERS : gmap string string)
        (check_password_hash : string -> string -> bool).

(** The POST branch of [login]. *)
Definition login (st : server) (client : nat) (username password : string)
  : server :=
  let uname := strip username in
  let pwd := password in
  if is_empty uname || is_empty pwd then st
  else
    match USERS !! uname with
    | Some hashed =>
        if check_password_hash hashed pwd then
          if bool_decide (uname ∈ ACTIVE_SESSIONS st) then st
          else {| ACTIVE_SESSIONS := {[uname]} ∪ ACTIVE_SESSIONS st;
                  session_user := <[client := uname]> (session_user st) |}
        else st
    | None => st
    end.

Definition logout (st : server) (client : nat) : server :=
  {| ACTIVE_SESSIONS :=
       match session_user st !! client with
       | Some uname =>
           if is_empty uname then ACTIVE_SESSIONS st
           else ACTIVE_SESSIONS st ∖ {[uname]}
       | None => ACTIVE_SESSIONS st
       end;
     session_user := delete client (session_user st) |}.

(** [validate_session] and [login_required] in front of a view: the new
    state, and whether the view is served. *)
Definition protected (st : server) (client : nat) : server * bool :=
  match session_user st !! client with
  | None => (st, false)
  | Some username =>
      if negb (bool_decide (username ∈ ACTIVE_SESSIONS st)) then
        ({| ACTIVE_SESSIONS := ACTIVE_SESSIONS st;
            session_user := delete client (session_user st) |}, false)
      else
        match USERS !! username with
        | None =>
            ({| ACTIVE_SESSIONS := ACTIVE_SESSIONS st ∖ {[username]};
                session_user := delete client (session_user st) |}, false)
        | Some _ => (st, true)
        end
  end.

Definition handle (st : server) (event : nat * request) : server :=
  let '(client, rq) := event in
  match rq with
  | PostLogin username password => login st client username password
  | Logout => logout st client
  | Protected => fst (protected st client)
  | CookieLost =>
      {| ACTIVE_SESSIONS := ACTIVE_SESSIONS st;
         session_user := delete client (session_user st) |}
  end.

Definition run (events : list (nat * request)) (st : server) : server :=
  fold_left handle events st.

End Sessions.

(** The session of some client names [u]. *)
Definition holds_session (st : server) (client : nat) (u : string) : Prop :=
  session_user st !! client = Some u.

(** Two users with their password hashes, and a check that accepts the
    hash spelled as the password with a prefix. *)
Definition sample_users : gmap string string :=
  <["asha" := "h:one"]> (<["ravi" := "h:two"]> ∅).

Definition sample_check (hashed pwd : string) : bool :=
  String.eqb hashed ("h:" ++ pwd).

(** Every session names a user who is marked active, and no two clients
    hold a session of the same user. *)
Definition sessions_consistent (st : server) : Prop :=
  (forall c u, holds_session st c u ->
     u ∈ ACTIVE_SESSIONS st /\ is_empty u = false)
  /\ (forall c c' u, holds_session st c u -> holds_session st c' u -> c = c').

(** One client logs in. *)
Definition asha_logged_in : server :=
  run sample_users sample_check [(1%nat, PostLogin " asha " "one")] fresh_server.

(* ===================================================================== *)
(** * Properties *)
(* ===================================================================== *)

(** ** Text *)

#[local] Arguments String.append !s1 s2 : simpl nomatch.

Lemma append_assoc (a b c : string) : (a ++ b) ++ c = a ++ (b ++ c).
Proof. induction a as [|x a IH]; simpl; [reflexivity | now f_equal]. Qed.

Lemma append_length (a b : string) :
  String.length (a ++ b) = (String.length a + String.length b)%nat.
Proof. induction a as [|x a IH]; simpl; [reflexivity | now f_equal]. Qed.

Lemma is_x_cases (c : ascii) : is_x c = true -> c = "x"%char \/ c = "X"%char.
Proof.
  unfold is_x. intros H. apply orb_true_iff in H.
  destruct H as [H | H]; apply Ascii.eqb_eq in H; auto.
Qed.

Lemma upper_char_x (c : ascii) : is_x c = true -> upper_char c = "X"%char.
Proof. intros H. destruct (is_x_cases c H); subst; reflexivity. Qed.

(** The separator makes the membership test ['X' in size.upper()] succeed. *)
Lemma contains_X_upper (L B : string) (sep : ascii) :
  is_x sep = true -> contains "X" (upper (L ++ String sep B)) = true.
Proof.
  intros Hsep. induction L as [|c L IH].
  - simpl. rewrite (upper_char_x sep Hsep). reflexivity.
  - change (upper (String c L ++ String sep B))
      with (String (upper_char c) (upper (L ++ String sep B))).
    cbn [contains]. rewrite IH. apply orb_true_r.
Qed.

Lemma split_on_no_sep (p : ascii -> bool) (s : string) :
  has_char p s = false -> split_on p s = [s].
Proof.
  induction s as [|c s IH]; simpl; [reflexivity |].
  intros H. apply orb_false_iff in H. destruct H as [Hc Hs].
  rewrite Hc, (IH Hs). reflexivity.
Qed.

(** [re.split] of ["L" + sep + "B"] gives the two parts. *)
Lemma split_on_two (p : ascii -> bool) (L B : string) (sep : ascii) :
  p sep = true -> has_char p L = false -> has_char p B = false ->
  split_on p (L ++ String sep B) = [L; B].
Proof.
  intros Hsep HL HB. induction L as [|c L IH]; simpl.
  - rewrite Hsep, (split_on_no_sep p B HB). reflexivity.
  - simpl in HL. apply orb_false_iff in HL. destruct HL as [Hc HL].
    rewrite Hc, (IH HL). reflexivity.
Qed.

(** ** The float scanner *)

Lemma frun_fail (s : string) (st : fstate) :
  phase st = PFail -> phase (frun st s) = PFail.
Proof.
  revert st. induction s as [|c s IH]; intros st H; simpl; [exact H |].
  apply IH. unfold fstep. rewrite H. exact H.
Qed.

Lemma x_facts (c : ascii) :
  is_x c = true ->
  is_digit c = false /\ is_c_space c = false /\ is_e c = false
  /\ Ascii.eqb c "_" = false /\ Ascii.eqb c "." = false
  /\ Ascii.eqb c "+" = false /\ Ascii.eqb c "-" = false
  /\ Ascii.eqb (lower_char c) "x" = true.
Proof.
  intros H. destruct (is_x_cases c H); subst; repeat split; reflexivity.
Qed.

Lemma fstep_x (st : fstate) (c : ascii) :
  is_x c = true -> phase (fstep st c) = PFail.
Proof.
  intros H. destruct (is_x_cases c H); subst; unfold fstep;
    destruct (phase st) eqn:E; simpl; try reflexivity; exact E.
Qed.

Lemma frun_x (s : string) (st : fstate) :
  has_char is_x s = true -> phase (frun st s) = PFail.
Proof.
  revert st. induction s as [|c s IH]; intros st H; simpl in *; [discriminate |].
  destruct (is_x c) eqn:Hc.
  - apply frun_fail, fstep_x, Hc.
  - apply IH, H.
Qed.

Lemma read_decimal_x (neg : bool) (s : string) :
  has_char is_x s = true -> read_decimal neg s = None.
Proof. intros H. unfold read_decimal. now rewrite (frun_x s fstate0 H). Qed.

(** Stripping, dropping underscores and taking off the sign keep a
    separator that the text holds. *)
Lemma lstrip_c_x (s : string) :
  has_char is_x s = true -> has_char is_x (lstrip_c s) = true.
Proof.
  induction s as [|c s IH]; cbn [lstrip_c has_char]; [discriminate |].
  intros H. destruct (is_c_space c) eqn:Hsp; [| exact H].
  apply IH. destruct (is_x c) eqn:Hx; [| exact H].
  destruct (x_facts c Hx) as (_ & Hn & _). congruence.
Qed.

Lemma rstrip_c_x (s : string) : has_char is_x (rstrip_c s) = has_char is_x s.
Proof.
  induction s as [|c s IH]; [reflexivity |].
  cbn [rstrip_c has_char]. destruct (rstrip_c s) as [|d r].
  - cbn [has_char] in IH. rewrite <- IH, orb_false_r.
    destruct (is_c_space c) eqn:Hsp; [| cbn [has_char]; apply orb_false_r].
    cbn [has_char]. destruct (is_x c) eqn:Hx; [| reflexivity].
    destruct (x_facts c Hx) as (_ & Hn & _). congruence.
  - change (has_char is_x (String c (String d r)))
      with (is_x c || has_char is_x (String d r)).
    now rewrite IH.
Qed.

Lemma drop_underscores_x (s : string) :
  forall prev t,
    drop_underscores prev s = Some t ->
    has_char is_x s = true -> has_char is_x t = true.
Proof.
  induction s as [|c s IH]; intros prev t Hd Hx; [discriminate Hx |].
  cbn [drop_underscores] in Hd. cbn [has_char] in Hx.
  destruct (Ascii.eqb c "_") eqn:Hu.
  - apply Ascii.eqb_eq in Hu. subst c. cbn in Hx.
    destruct s as [|d s']; [discriminate Hd |].
    destruct (is_digit prev && is_digit d); [| discriminate Hd].
    exact (IH _ _ Hd Hx).
  - destruct (drop_underscores c s) as [t'|] eqn:E; [| discriminate Hd].
    injection Hd as <-. cbn [has_char].
    destruct (is_x c); [reflexivity |]. exact (IH _ _ E Hx).
Qed.

Lemma split_sign_x (s : string) :
  has_char is_x s = true -> has_char is_x (snd (split_sign s)) = true.
Proof.
  destruct s as [|c r]; [discriminate |]. cbn [split_sign has_char].
  intros H. destruct (is_x c) eqn:Hx.
  - destruct (x_facts c Hx) as (_ & _ & _ & _ & _ & Hp & Hm & _).
    rewrite Hm, Hp. cbn [snd has_char]. now rewrite Hx.
  - destruct (Ascii.eqb c "-"); [exact H |].
    destruct (Ascii.eqb c "+"); [exact H |].
    cbn [snd has_char]. now rewrite Hx.
Qed.

Lemma lower_x (s : string) :
  has_char is_x s = true ->
  has_char (fun c => Ascii.eqb c "x") (lower s) = true.
Proof.
  induction s as [|c s IH]; [discriminate |].
  change (lower (String c s)) with (String (lower_char c) (lower s)).
  cbn [has_char]. intros H. destruct (is_x c) eqn:Hx.
  - destruct (x_facts c Hx) as (_ & _ & _ & _ & _ & _ & _ & Hl). now rewrite Hl.
  - rewrite (IH H). apply orb_true_r.
Qed.

Lemma read_float_x (s : string) :
  has_char is_x s = true -> read_float s = None.
Proof.
  intros H. apply split_sign_x in H. unfold read_float.
  destruct (split_sign s) as [neg body]. cbn [snd] in H.
  pose proof (lower_x body H) as Hl.
  assert (Hw : forall w, has_char (fun c => Ascii.eqb c "x") w = false ->
                         String.eqb (lower body) w = false).
  { intros w Hw. destruct (String.eqb_spec (lower body) w) as [E | _]; [| reflexivity].
    rewrite E in Hl. congruence. }
  rewrite !Hw by reflexivity. cbn [orb]. apply read_decimal_x, H.
Qed.

(** No text accepted by [float] contains the separator. *)
Lemma py_float_no_x (s : string) (v : float) :
  py_float s = Some v -> has_char is_x s = false.
Proof.
  unfold py_float. intros H.
  destruct (has_char is_x s) eqn:Hx; [| reflexivity].
  assert (Hs : has_char is_x (strip_c s) = true).
  { unfold strip_c. rewrite rstrip_c_x. apply lstrip_c_x, Hx. }
  destruct (drop_underscores Ascii.zero (strip_c s)) as [t|] eqn:E; [| discriminate].
  rewrite (read_float_x t (drop_underscores_x _ _ _ E Hs)) in H. discriminate.
Qed.

(** ** Area computation *)

Lemma calculate_sqft_parts (L B : string) (sep : ascii) (l b q : float) :
  is_x sep = true -> py_float L = Some l -> py_float B = Some b ->
  calculate_sqft (CStr (L ++ String sep B)) q
  = if fle l (float_of_Z 15) && fle b (float_of_Z 15)
    then fmul (fmul l b) q
    else fmul (fdiv (fmul l b) (float_of_Z 144)) q.
Proof.
  intros Hsep HL HB. unfold calculate_sqft.
  rewrite (contains_X_upper L B sep Hsep). cbn [negb].
  rewrite (split_on_two is_x L B sep Hsep
             (py_float_no_x L l HL) (py_float_no_x B b HB)).
  rewrite HL, HB. reflexivity.
Qed.

(** ** Float comparison *)

Lemma SFcompare_sym (x y : float) :
  SFcompare y x = option_map CompOpp (SFcompare x y).
Proof.
  destruct x as [sx | sx | | sx mx ex], y as [sy | sy | | sy my ey]; cbn;
    try reflexivity;
    try (destruct sx; reflexivity); try (destruct sy; reflexivity);
    try (destruct sx, sy; reflexivity).
  destruct sx, sy; try reflexivity; cbn [option_map].
  - rewrite (Z.compare_antisym ex ey).
    destruct (ex ?= ey)%Z; cbn [CompOpp]; try reflexivity.
    f_equal. rewrite (Pos.compare_cont_antisym mx my Eq). reflexivity.
  - rewrite (Z.compare_antisym ex ey).
    destruct (ex ?= ey)%Z; cbn [CompOpp]; try reflexivity.
    f_equal. rewrite (Pos.compare_cont_antisym mx my Eq). reflexivity.
Qed.

(** [y < x] excludes [x <= y]. *)
Lemma flt_not_fle (x y : float) : flt y x = true -> fle x y = false.
Proof.
  unfold flt, fle, SFltb, SFleb. rewrite (SFcompare_sym y x).
  destruct (SFcompare y x) as [[| |]|]; cbn; congruence.
Qed.

(** C5.  For a size ["L" sep "B"] whose separator is [x] or [X] and whose
    parts [float] reads as [l] and [b]: if both are at most 15 the area is
    [l * b * q], and if either exceeds 15 it is [(l * b / 144) * q], with
    the products and the quotient of binary64 arithmetic. *)
Theorem calculate_sqft_LxB (L B : string) (sep : ascii) (l b q : float) :
  is_x sep = true -> py_float L = Some l -> py_float B = Some b ->
  (fle l (float_of_Z 15) = true /\ fle b (float_of_Z 15) = true ->
     calculate_sqft (CStr (L ++ String sep B)) q = fmul (fmul l b) q) /\
  (flt (float_of_Z 15) l = true \/ flt (float_of_Z 15) b = true ->
     calculate_sqft (CStr (L ++ String sep B)) q
     = fmul (fdiv (fmul l b) (float_of_Z 144)) q).
Proof.
  intros Hsep HL HB. rewrite (calculate_sqft_parts L B sep l b q Hsep HL HB).
  split.
  - intros [Hl Hb]. now rewrite Hl, Hb.
  - intros Hgt.
    assert (fle l (float_of_Z 15) && fle b (float_of_Z 15) = false) as ->;
      [| reflexivity].
    apply andb_false_iff.
    destruct Hgt as [H | H]; [left | right]; apply flt_not_fle, H.
Qed.

Lemma calculate_sqft_LxB_witness :
  calculate_sqft (CStr "10X12") (float_of_Z 3)
    = fmul (fmul (float_of_Z 10) (float_of_Z 12)) (float_of_Z 3)
  /\ calculate_sqft (CStr "72x48") (float_of_Z 3)
     = fmul (fdiv (fmul (float_of_Z 72) (float_of_Z 48)) (float_of_Z 144))
            (float_of_Z 3)
  /\ calculate_sqft (CStr "72x48") (float_of_Z 3) = float_of_Z 72.
Proof.
  split; [| split].
  - apply (calculate_sqft_LxB "10" "12" "X" (float_of_Z 10) (float_of_Z 12)
             (float_of_Z 3));
      [reflexivity | reflexivity | reflexivity |].
    split; reflexivity.
  - apply (calculate_sqft_LxB "72" "48" "x" (float_of_Z 72) (float_of_Z 48)
             (float_of_Z 3));
      [reflexivity | reflexivity | reflexivity |].
    left. reflexivity.
  - reflexivity.
Defined.

(** ** Category normalizer *)

Lemma column_ok (f : frame) (c : string) :
  is_ok (column f c) = true -> exists i, col_index c (columns f) = Some i.
Proof.
  unfold column. destruct (col_index c (columns f)) as [i|]; [eauto | discriminate].
Qed.

Lemma scan_rules_none (cat_map_df : frame) (raw_cat : string) (i j : nat)
    (rs : list (list cell)) :
  col_index "MATCH KEYWORD" (columns cat_map_df) = Some i ->
  col_index "NORMALIZED CATEGORY" (columns cat_map_df) = Some j ->
  Forall (fun row => rule_hits cat_map_df raw_cat row = false) rs ->
  scan_rules cat_map_df rs raw_cat = Ok None.
Proof.
  intros Hi Hj. induction 1 as [|row rs Hrow _ IH]; [reflexivity |].
  unfold rule_hits, getitem in Hrow. rewrite Hi in Hrow.
  cbn [scan_rules]. unfold getitem. rewrite Hi, Hj. cbn [bind].
  destruct (String.eqb (upper (py_str (nth i row CNaN))) "*"); [exact IH |].
  cbn [negb andb] in Hrow. rewrite Hrow. exact IH.
Qed.

Lemma no_wildcard_targets (cat_map_df : frame) (i j : nat) :
  col_index "MATCH KEYWORD" (columns cat_map_df) = Some i ->
  col_index "NORMALIZED CATEGORY" (columns cat_map_df) = Some j ->
  Forall (fun row => is_wildcard_row cat_map_df row = false) (rows cat_map_df) ->
  wildcard_targets cat_map_df = Ok [].
Proof.
  intros Hi Hj Hall. unfold wildcard_targets, column. rewrite Hi, Hj. cbn [bind].
  f_equal. induction Hall as [|row rs Hrow _ IH]; [reflexivity |].
  unfold is_wildcard_row, getitem in Hrow. rewrite Hi in Hrow.
  cbn [map combine List.filter fst]. rewrite Hrow. exact IH.
Qed.

(** C7, as the code has it.  For a laminate or liner product and a raw
    category without TEX, when no rule of a well-formed mapping table hits
    and the table has no wildcard entry, the result is the raw category in
    upper case. *)
Theorem normalize_category_no_match (raw : string) (product : cell) (cat_map_df : frame) :
  is_laminate_or_liner (lower (py_str product)) = true ->
  contains "TEX" (upper raw) = false ->
  is_ok (column cat_map_df "MATCH KEYWORD") = true ->
  is_ok (column cat_map_df "NORMALIZED CATEGORY") = true ->
  Forall (fun row => rule_hits cat_map_df (upper raw) row = false
                     /\ is_wildcard_row cat_map_df row = false)
         (rows cat_map_df) ->
  normalize_category (CStr raw) cat_map_df product = Ok (CStr (upper raw)).
Proof.
  intros Hprod Htex Hk Ht Hall.
  destruct (column_ok _ _ Hk) as [i Hi]. destruct (column_ok _ _ Ht) as [j Hj].
  unfold normalize_category. cbn [isna py_str]. rewrite Htex, Hprod.
  rewrite (scan_rules_none cat_map_df (upper raw) i j (rows cat_map_df) Hi Hj).
  - cbn [bind]. rewrite (no_wildcard_targets cat_map_df i j Hi Hj); [reflexivity |].
    eapply List.Forall_impl; [| exact Hall]. intros row [_ H]. exact H.
  - eapply List.Forall_impl; [| exact Hall]. intros row [H _]. exact H.
Qed.

Lemma normalize_category_no_match_witness :
  normalize_category (CStr "Matt") sample_cat_map (CStr "Laminate") = Ok (CStr "MATT").
Proof.
  apply (normalize_category_no_match "Matt" (CStr "Laminate") sample_cat_map);
    try reflexivity.
  repeat constructor.
Defined.

(** C7 as stated fails: the category comes back in upper case, not in its
    original letter case. *)
Lemma normalize_category_changes_case :
  is_laminate_or_liner (lower "Laminate") = true /\
  contains "TEX" (upper "Matt") = false /\
  Forall (fun row => rule_hits sample_cat_map (upper "Matt") row = false
                     /\ is_wildcard_row sample_cat_map row = false)
         (rows sample_cat_map) /\
  normalize_category (CStr "Matt") sample_cat_map (CStr "Laminate") <> Ok (CStr "Matt").
Proof.
  split; [reflexivity |]. split; [reflexivity |].
  split; [repeat constructor | discriminate].
Qed.

(** ** Category order *)

Lemma prepare_data_cat_order (numeric_of_text : reader)
    (input_file : option (gmap string frame)) (p : prepared) :
  prepare_data numeric_of_text input_file = Ok p ->
  cat_order p
  = snd (category_block (s_df (load_sheets input_file))
                        (s_cat_map (load_sheets input_file))).
Proof.
  unfold prepare_data, prepare_loaded.
  destruct (category_block _ _) as [norm_col order].
  destruct (annotate _ _ _); cbn [bind]; [| discriminate].
  intros H. injection H as <-. reflexivity.
Qed.

Lemma category_block_order (df0 cat_map : frame) (mapped norm : list cell) :
  mapped_categories_of cat_map = Ok mapped ->
  category_norm_column df0 cat_map = Ok norm ->
  snd (category_block df0 cat_map)
  = build_cat_order mapped (unique (map (fillna UNSPECIFIED) norm)).
Proof.
  intros Hm Hn. unfold category_block. rewrite Hm, Hn. reflexivity.
Qed.

Ltac nodup_absurd H :=
  exfalso;
  repeat (let Hn := fresh "Hn" in
          apply List.NoDup_cons_iff in H; destruct H as [Hn H];
          try (apply Hn; simpl; tauto)).

(** With mapping targets HG, Z and the four categories SF, Z, HG and
    TEX CATEGORY present, whatever their first-seen order. *)
Lemma build_cat_order_four (present : list cell) :
  Permutation present [SF; CStr "Z"; HG; TEX_CATEGORY] ->
  build_cat_order [HG; CStr "Z"] present = [HG; CStr "Z"; TEX_CATEGORY; SF].
Proof.
  intros Hp.
  assert (Hlen := Permutation_length Hp).
  assert (Hnd : List.NoDup present).
  { apply (Permutation_NoDup (Permutation_sym Hp)).
    repeat constructor; simpl; intuition discriminate. }
  assert (Hin : forall x, In x present -> In x [SF; CStr "Z"; HG; TEX_CATEGORY]).
  { intros x. apply Permutation_in, Hp. }
  destruct present as [|x1 [|x2 [|x3 [|x4 [|x5 rest]]]]]; try discriminate Hlen.
  pose proof (Hin x1 (or_introl eq_refl)) as H1.
  pose proof (Hin x2 (or_intror (or_introl eq_refl))) as H2.
  pose proof (Hin x3 (or_intror (or_intror (or_introl eq_refl)))) as H3.
  pose proof (Hin x4 (or_intror (or_intror (or_intror (or_introl eq_refl))))) as H4.
  clear Hin Hp Hlen. simpl in H1, H2, H3, H4.
  destruct H1 as [<- | [<- | [<- | [<- | []]]]];
  destruct H2 as [<- | [<- | [<- | [<- | []]]]];
  try (nodup_absurd Hnd; fail);
  destruct H3 as [<- | [<- | [<- | [<- | []]]]];
  try (nodup_absurd Hnd; fail);
  destruct H4 as [<- | [<- | [<- | [<- | []]]]];
  try (nodup_absurd Hnd; fail);
  reflexivity.
Qed.

(** C2, as the code has it.  With mapping targets [HG; Z] and the present
    categories SF, Z, HG and TEX CATEGORY (in any first-seen order), the
    category order of [prepare_data] is [HG; Z; TEX CATEGORY; SF]: SF is not
    put first because it is not a mapping target. *)
Theorem cat_order_four_categories (numeric_of_text : reader)
    (input_file : option (gmap string frame)) (p : prepared) (norm : list cell) :
  prepare_data numeric_of_text input_file = Ok p ->
  mapped_categories_of (s_cat_map (load_sheets input_file)) = Ok [HG; CStr "Z"] ->
  category_norm_column (s_df (load_sheets input_file))
                       (s_cat_map (load_sheets input_file)) = Ok norm ->
  Permutation (unique (map (fillna UNSPECIFIED) norm))
              [SF; CStr "Z"; HG; TEX_CATEGORY] ->
  cat_order p = [HG; CStr "Z"; TEX_CATEGORY; SF].
Proof.
  intros Hp Hm Hn Hperm.
  rewrite (prepare_data_cat_order numeric_of_text input_file p Hp).
  rewrite (category_block_order _ _ _ _ Hm Hn).
  apply build_cat_order_four, Hperm.
Qed.

Lemma cat_order_four_categories_witness :
  exists p, prepare_data decimal_of_text sample_workbook = Ok p
            /\ cat_order p = [HG; CStr "Z"; TEX_CATEGORY; SF].
Proof.
  destruct (prepare_data decimal_of_text sample_workbook) as [p|e] eqn:E;
    [| vm_compute in E; discriminate].
  exists p. split; [reflexivity |].
  apply (cat_order_four_categories decimal_of_text sample_workbook p
           [CStr "SF"; CStr "Z"; CStr "HG"; CStr "TEX CATEGORY"] E);
    vm_compute; reflexivity.
Defined.

(** C2 as stated fails on a document with exactly these categories and
    mapping targets: SF comes last, not first. *)
Lemma cat_order_sf_not_first :
  mapped_categories_of sample_cat_map = Ok [HG; CStr "Z"] /\
  option_map unique (fst (category_block sample_master sample_cat_map))
    = Some [SF; CStr "Z"; HG; TEX_CATEGORY] /\
  match prepare_data decimal_of_text sample_workbook with
  | Ok p => cat_order p = [HG; CStr "Z"; TEX_CATEGORY; SF]
            /\ cat_order p <> [SF; HG; CStr "Z"; TEX_CATEGORY]
  | Raise _ => False
  end.
Proof.
  split; [reflexivity |]. split; [reflexivity |].
  vm_compute. split; [reflexivity | discriminate].
Qed.

(** C3 at a failing input: a mapping rule targets the label UNSPECIFIED and
    a row has no category.  The order lists UNSPECIFIED twice, and the
    categorical column built from it is refused. *)
Theorem cat_order_repeats_unspecified :
  category_block blank_category_master unspecified_cat_map
    = (Some [UNSPECIFIED], [UNSPECIFIED; UNSPECIFIED]) /\
  forall numeric_of_text : reader,
    prepare_data numeric_of_text
      (Some (workbook blank_category_master unspecified_cat_map sample_weights))
    = Raise ValueError.
Proof. split; [| intros numeric_of_text]; vm_compute; reflexivity. Qed.

(** ** Category order: every present label once, apart from UNSPECIFIED *)

Lemma cell_eqb_text (a b : cell) :
  is_text a = true -> (cell_eqb a b = true <-> a = b).
Proof.
  destruct a as [| s | q r]; try discriminate. intros _.
  destruct b as [| t | q r]; simpl; split; try discriminate.
  - intros H. apply String.eqb_eq in H. now subst.
  - intros [= ->]. apply String.eqb_refl.
Qed.

Lemma mem_In (c : cell) (l : list cell) :
  is_text c = true -> (mem c l = true <-> In c l).
Proof.
  intros Hc. unfold mem. induction l as [|x l IH]; simpl.
  - split; [discriminate | tauto].
  - rewrite orb_true_iff, IH, (cell_eqb_text c x Hc). split; intros [H | H]; auto.
Qed.

Lemma mem_not_In (c : cell) (l : list cell) :
  is_text c = true -> (mem c l = false <-> ~ In c l).
Proof.
  intros Hc. rewrite <- (mem_In c l Hc). destruct (mem c l); split; congruence.
Qed.

(** The loop appending the categories not yet listed. *)
Lemma append_missing_spec (present : list cell) :
  forall (l acc : list cell),
    Forall (fun c => is_text c = true) l ->
    List.NoDup acc -> incl acc present -> incl l present ->
    let order := fold_left (fun order cat =>
                              if mem cat order then order else (order ++ [cat])%list)
                           l acc in
    List.NoDup order /\ incl order present /\ incl acc order /\ incl l order.
Proof.
  induction l as [|x l IH]; intros acc Htext Hnd Hacc Hl; cbn [fold_left].
  - repeat split; auto; [apply incl_refl | intros y []].
  - inversion Htext as [|? ? Hx Htext']; subst.
    assert (Hxp : In x present) by (apply Hl; left; reflexivity).
    assert (Hl' : incl l present) by (intros y Hy; apply Hl; right; exact Hy).
    destruct (mem x acc) eqn:E.
    + destruct (IH acc Htext' Hnd Hacc Hl') as (H1 & H2 & H3 & H4).
      repeat split; auto.
      intros y [<- | Hy]; [apply H3, (mem_In x acc Hx), E | apply H4, Hy].
    + apply (mem_not_In x acc Hx) in E.
      destruct (IH (acc ++ [x])%list Htext') as (H1 & H2 & H3 & H4); auto.
      * apply List.NoDup_app; auto.
        -- repeat constructor. simpl. tauto.
        -- intros a Ha [<- | []]. exact (E Ha).
      * apply incl_app; auto. intros y [<- | []]. exact Hxp.
      * repeat split; auto.
        -- intros y Hy. apply H3, in_or_app. left. exact Hy.
        -- intros y [<- | Hy]; [| apply H4, Hy].
           apply H3, in_or_app. right. left. reflexivity.
Qed.

Lemma In_optional (b : bool) (x y : cell) :
  In y (if b then [x] else []) -> b = true /\ y = x.
Proof. destruct b; simpl; intuition. Qed.

Lemma NoDup_optional (b : bool) (x : cell) : List.NoDup (if b then [x] else []).
Proof. destruct b; repeat constructor. simpl. tauto. Qed.

Ltac labels_differ :=
  unfold SF, HG, TEX_CATEGORY, UNSPECIFIED in *; congruence.

Ltac optional_members :=
  repeat match goal with
         | H : In _ (if _ then _ else _) |- _ =>
             apply In_optional in H; destruct H as [? ?]
         | H : In _ (_ ++ _) |- _ => apply in_app_or in H; destruct H as [H | H]
         end.

(** When no mapping rule targets the label UNSPECIFIED, the category order
    lists every present category once and nothing else. *)
Lemma build_cat_order_permutation (mapped present : list cell) :
  Forall (fun c => is_text c = true) mapped ->
  Forall (fun c => is_text c = true) present ->
  List.NoDup mapped -> List.NoDup present ->
  ~ In UNSPECIFIED mapped ->
  Permutation (build_cat_order mapped present) present.
Proof.
  intros Htm Htp Hndm Hndp Hun. unfold build_cat_order.
  set (F := List.filter
              (fun cat => mem cat present && negb (mem cat [SF; HG; TEX_CATEGORY]))
              mapped).
  assert (HF : forall c, In c F ->
             In c present /\ c <> SF /\ c <> HG /\ c <> TEX_CATEGORY
             /\ c <> UNSPECIFIED).
  { intros c Hc. apply filter_In in Hc. destruct Hc as [Hm Hc].
    apply andb_true_iff in Hc. destruct Hc as [Hp Hn].
    rewrite List.Forall_forall in Htm. pose proof (Htm c Hm) as Ht.
    apply (mem_In c present Ht) in Hp.
    apply negb_true_iff, (mem_not_In c _ Ht) in Hn. simpl in Hn.
    repeat split; auto;
      first [intros ->; exact (Hun Hm) | intros ->; apply Hn; tauto]. }
  assert (HndF : List.NoDup F) by (apply List.NoDup_filter, Hndm).
  assert (HSF : mem SF mapped && mem SF present = true -> In SF present).
  { intros H. apply andb_true_iff in H. apply (mem_In SF present eq_refl), H. }
  assert (HHG : mem HG mapped && mem HG present = true -> In HG present).
  { intros H. apply andb_true_iff in H. apply (mem_In HG present eq_refl), H. }
  pose proof (proj1 (mem_In TEX_CATEGORY present eq_refl)) as HTX.
  pose proof (proj1 (mem_In UNSPECIFIED present eq_refl)) as HUN.
  match goal with
  | |- Permutation (fold_left _ _ ?o5) _ =>
      assert (H5 : List.NoDup o5 /\ incl o5 present)
  end.
  { rewrite <- !app_assoc. cbn [app]. split.
    - apply List.NoDup_app; [apply NoDup_optional | |].
      + apply List.NoDup_app; [apply NoDup_optional | |].
        * apply List.NoDup_app; [exact HndF | |].
          -- apply List.NoDup_app; [apply NoDup_optional | apply NoDup_optional |].
             intros a Ha Hb. optional_members. labels_differ.
          -- intros a Ha Hb. apply HF in Ha. optional_members; subst; tauto.
        * intros a Ha Hb. optional_members; subst; try labels_differ.
          apply HF in Hb. tauto.
      + intros a Ha Hb. optional_members; subst; try labels_differ.
        apply HF in Hb. tauto.
    - intros c Hc. optional_members; subst; auto.
      apply HF, Hc. }
  destruct H5 as [Hnd5 Hin5].
  destruct (append_missing_spec present present _ Htp Hnd5 Hin5 (incl_refl _))
    as (H1 & H2 & _ & H4).
  apply Permutation.NoDup_Permutation; [exact H1 | exact Hndp |].
  intros x. split; [apply H2 | apply H4].
Qed.

(** ** Loader: rows and sorting *)

Lemma insert_sorted_perm (cmp : item -> item -> comparison) (x : item) (l : list item) :
  Permutation (insert_sorted cmp x l) (x :: l).
Proof.
  induction l as [|y l IH]; simpl; [reflexivity |].
  destruct (cmp x y); try reflexivity.
  rewrite IH. apply perm_swap.
Qed.

(** Sorting moves rows, it neither adds nor drops any. *)
Lemma sort_values_perm (cmp : item -> item -> comparison) (l : list item) :
  Permutation (sort_values cmp l) l.
Proof.
  induction l as [|x l IH]; simpl; [reflexivity |].
  unfold sort_values in *. simpl.
  rewrite insert_sorted_perm. now apply perm_skip.
Qed.

Lemma mapM_length {A B} (f : A -> result B) (l : list A) (l' : list B) :
  mapM f l = Ok l' -> List.length l' = List.length l.
Proof.
  revert l'. induction l as [|x l IH]; intros l' H; simpl in H.
  - injection H as <-. reflexivity.
  - destruct (f x); cbn [bind] in H; [| discriminate].
    destruct (mapM f l); cbn [bind] in H; [| discriminate].
    injection H as <-. simpl. f_equal. now apply IH.
Qed.

Lemma make_items_quantity (ps ss cs bs : list string) (qs : list float) (ns : list cell) :
  List.length ss = List.length ps -> List.length cs = List.length ps ->
  List.length bs = List.length ps -> List.length qs = List.length ps ->
  List.length ns = List.length ps ->
  map QUANTITY (make_items ps ss cs bs qs ns) = qs.
Proof.
  revert ss cs bs qs ns.
  induction ps as [|p ps IH]; intros [|s ss] [|c cs] [|b bs] [|q qs] [|n ns];
    simpl; intros; try discriminate; try reflexivity.
  f_equal. apply IH; congruence.
Qed.

Lemma make_items_sqft (ps ss cs bs : list string) (qs : list float) (ns : list cell) :
  Forall (fun it => SQFT it = calculate_sqft (CStr (SIZE it)) (QUANTITY it))
         (make_items ps ss cs bs qs ns).
Proof.
  revert ss cs bs qs ns.
  induction ps as [|p ps IH]; intros [|s ss] [|c cs] [|b bs] [|q qs] [|n ns];
    simpl; try constructor; [reflexivity | apply IH].
Qed.

Lemma categorical_length (order col col' : list cell) :
  categorical order col = Ok col' -> List.length col' = List.length col.
Proof.
  unfold categorical. destruct (has_duplicates order); [discriminate |].
  intros H. injection H as <-. apply List.length_map.
Qed.

Lemma category_block_length (df0 cat_map : frame) (col order : list cell) :
  category_block df0 cat_map = (Some col, order) ->
  List.length col = List.length (rows df0).
Proof.
  unfold category_block.
  destruct (mapped_categories_of cat_map); cbn [bind]; [| discriminate].
  destruct (category_norm_column df0 cat_map) as [norm|] eqn:E; cbn [bind];
    [| discriminate].
  intros H. injection H as <- _. rewrite List.length_map.
  exact (mapM_length _ _ _ E).
Qed.

(** What [annotate] returns, column by column. *)
Lemma annotate_ok (numeric_of_text : reader) (df0 cat_map : frame)
    (norm_col : option (list cell)) (order : list cell) (items : list item) :
  category_block df0 cat_map = (norm_col, order) ->
  annotate numeric_of_text df0 norm_col order = Ok items ->
  exists quantity,
    column df0 "QUANTITY" = Ok quantity
    /\ map QUANTITY items = map (coerce_quantity numeric_of_text) quantity
    /\ Forall (fun it => SQFT it = calculate_sqft (CStr (SIZE it)) (QUANTITY it)) items.
Proof.
  intros Hblock. unfold annotate, column.
  destruct (col_index "PRODUCT" _) as [ip|]; cbn [bind]; [| discriminate].
  destruct (col_index "SIZE" _) as [isz|]; cbn [bind]; [| discriminate].
  destruct (col_index "BRAND" _) as [ib|]; cbn [bind]; [| discriminate].
  destruct (col_index "CATEGORY" _) as [ic|]; cbn [bind]; [| discriminate].
  destruct (col_index "QUANTITY" _) as [iq|]; cbn [bind]; [| discriminate].
  intros H.
  assert (exists col, List.length col = List.length (rows df0)
            /\ Ok (make_items
                 (map astype_str_strip (map (fun row => nth ip row CNaN) (rows df0)))
                 (map astype_str_strip (map (fun row => nth isz row CNaN) (rows df0)))
                 (map astype_str_strip (map (fun row => nth ic row CNaN) (rows df0)))
                 (map astype_str_strip (map (fun row => nth ib row CNaN) (rows df0)))
                 (map (coerce_quantity numeric_of_text)
                      (map (fun row => nth iq row CNaN) (rows df0)))
                 col) = Ok items) as (col & Hlen & Hitems).
  { destruct norm_col as [col0|].
    - pose proof (category_block_length _ _ _ _ Hblock) as Hl0.
      destruct order as [|o order'].
      + cbn [bind] in H. exists col0. split; assumption.
      + destruct (categorical (o :: order') col0) as [col1|] eqn:Ec;
          cbn [bind] in H; [| discriminate].
        exists col1. split; [| assumption].
        rewrite (categorical_length _ _ _ Ec). exact Hl0.
    - destruct order; cbn [bind] in H; discriminate. }
  injection Hitems as <-.
  eexists. split; [reflexivity |]. split.
  - apply make_items_quantity; rewrite ?List.length_map; auto.
  - apply make_items_sqft.
Qed.

Lemma prepare_data_rows (numeric_of_text : reader)
    (input_file : option (gmap string frame)) (p : prepared) :
  prepare_data numeric_of_text input_file = Ok p ->
  exists quantity,
    column (s_df (load_sheets input_file)) "QUANTITY" = Ok quantity
    /\ Permutation (map QUANTITY (df p))
                   (map (coerce_quantity numeric_of_text) quantity)
    /\ Forall (fun it => SQFT it = calculate_sqft (CStr (SIZE it)) (QUANTITY it)) (df p).
Proof.
  unfold prepare_data, prepare_loaded.
  destruct (category_block _ _) as [norm_col order] eqn:Hblock.
  destruct (annotate _ _ _ _) as [items|] eqn:Hann; cbn [bind]; [| discriminate].
  intros H. injection H as <-. cbn [df].
  destruct (annotate_ok _ _ _ _ _ _ Hblock Hann) as (quantity & Hq & Hmap & Hsq).
  exists quantity. split; [exact Hq |]. split.
  - rewrite <- Hmap. apply Permutation_map, sort_values_perm.
  - apply List.Forall_forall. intros it Hin.
    rewrite List.Forall_forall in Hsq. apply Hsq.
    eapply Permutation_in; [apply sort_values_perm | exact Hin].
Qed.

(** What [annotate] needs to succeed, and what it then returns. *)
Lemma annotate_inv (numeric_of_text : reader) (df0 : frame)
    (norm_col : option (list cell)) (order : list cell) (items : list item) :
  annotate numeric_of_text df0 norm_col order = Ok items ->
  exists ip isz ic ib iq col0 col,
    col_index "PRODUCT" (columns df0) = Some ip
    /\ col_index "SIZE" (columns df0) = Some isz
    /\ col_index "CATEGORY" (columns df0) = Some ic
    /\ col_index "BRAND" (columns df0) = Some ib
    /\ col_index "QUANTITY" (columns df0) = Some iq
    /\ norm_col = Some col0
    /\ (order = [] /\ col = col0
        \/ has_duplicates order = false /\ categorical order col0 = Ok col)
    /\ items = make_items
                 (map astype_str_strip (map (fun row => nth ip row CNaN) (rows df0)))
                 (map astype_str_strip (map (fun row => nth isz row CNaN) (rows df0)))
                 (map astype_str_strip (map (fun row => nth ic row CNaN) (rows df0)))
                 (map astype_str_strip (map (fun row => nth ib row CNaN) (rows df0)))
                 (map (coerce_quantity numeric_of_text)
                      (map (fun row => nth iq row CNaN) (rows df0)))
                 col.
Proof.
  unfold annotate, column.
  destruct (col_index "PRODUCT" _) as [ip|]; cbn [bind]; [| discriminate].
  destruct (col_index "SIZE" _) as [isz|]; cbn [bind]; [| discriminate].
  destruct (col_index "BRAND" _) as [ib|]; cbn [bind]; [| discriminate].
  destruct (col_index "CATEGORY" _) as [ic|]; cbn [bind]; [| discriminate].
  destruct (col_index "QUANTITY" _) as [iq|]; cbn [bind]; [| discriminate].
  intros H. exists ip, isz, ic, ib, iq.
  destruct norm_col as [col0|]; [| destruct order; discriminate H].
  destruct order as [|o order'].
  - cbn [bind] in H. injection H as <-. exists col0, col0. repeat split; auto.
  - destruct (categorical (o :: order') col0) as [col|] eqn:Ec; cbn [bind] in H;
      [| discriminate].
    injection H as <-. exists col0, col. repeat split; auto. right. split; auto.
    unfold categorical in Ec.
    destruct (has_duplicates (o :: order')); [discriminate | reflexivity].
Qed.

Lemma prepare_data_inv (numeric_of_text : reader)
    (input_file : option (gmap string frame)) (p : prepared) :
  prepare_data numeric_of_text input_file = Ok p ->
  exists norm_col items,
    category_block (s_df (load_sheets input_file)) (s_cat_map (load_sheets input_file))
    = (norm_col, cat_order p)
    /\ annotate numeric_of_text (s_df (load_sheets input_file)) norm_col (cat_order p)
       = Ok items
    /\ df p = sort_values (sort_compare numeric_of_text (cat_order p)) items.
Proof.
  unfold prepare_data, prepare_loaded.
  destruct (category_block _ _) as [norm_col order].
  destruct (annotate _ _ norm_col order) as [items|] eqn:E; cbn [bind];
    [| discriminate].
  intros [= <-]. cbn [df cat_order]. eauto.
Qed.

Lemma make_items_fields {R} (f1 f2 f3 f4 : R -> string) (f5 : R -> float)
    (rs : list R) :
  forall ns, List.length ns = List.length rs ->
    map (fun it => (PRODUCT it, SIZE it, CATEGORY it, BRAND it, QUANTITY it))
        (make_items (map f1 rs) (map f2 rs) (map f3 rs) (map f4 rs) (map f5 rs) ns)
    = map (fun r => (f1 r, f2 r, f3 r, f4 r, f5 r)) rs.
Proof.
  induction rs as [|r rs IH]; intros [|n ns] Hlen; try discriminate Hlen;
    [reflexivity |].
  cbn [map make_items PRODUCT SIZE CATEGORY BRAND QUANTITY]. f_equal.
  apply IH. now injection Hlen.
Qed.

(** The returned rows are the rows of the Master sheet, reordered, each
    with its own five fields. *)
Lemma prepare_data_fields (numeric_of_text : reader)
    (input_file : option (gmap string frame)) (p : prepared) :
  prepare_data numeric_of_text input_file = Ok p ->
  let master := s_df (load_sheets input_file) in
  exists product size category brand quantity,
    (forall row, getitem master row "PRODUCT" = Ok (product row))
    /\ (forall row, getitem master row "SIZE" = Ok (size row))
    /\ (forall row, getitem master row "CATEGORY" = Ok (category row))
    /\ (forall row, getitem master row "BRAND" = Ok (brand row))
    /\ (forall row, getitem master row "QUANTITY" = Ok (quantity row))
    /\ Permutation
         (map (fun it => (PRODUCT it, SIZE it, CATEGORY it, BRAND it, QUANTITY it))
              (df p))
         (map (fun row => row_fields numeric_of_text (product row) (size row)
                                     (category row) (brand row) (quantity row))
              (rows master)).
Proof.
  intros H master.
  destruct (prepare_data_inv _ _ _ H) as (norm_col & items & Hb & Ha & Hdf).
  destruct (annotate_inv _ _ _ _ _ Ha)
    as (ip & isz & ic & ib & iq & col0 & col & Hp & Hs & Hc & Hbr & Hq
        & -> & Hcol & ->).
  exists (fun row => nth ip row CNaN), (fun row => nth isz row CNaN),
         (fun row => nth ic row CNaN), (fun row => nth ib row CNaN),
         (fun row => nth iq row CNaN).
  unfold getitem. fold master in Hp, Hs, Hc, Hbr, Hq. rewrite Hp, Hs, Hc, Hbr, Hq.
  repeat (split; [reflexivity |]).
  rewrite Hdf, sort_values_perm, !map_map.
  rewrite (make_items_fields
             (fun row => astype_str_strip (nth ip row CNaN))
             (fun row => astype_str_strip (nth isz row CNaN))
             (fun row => astype_str_strip (nth ic row CNaN))
             (fun row => astype_str_strip (nth ib row CNaN))
             (fun row => coerce_quantity numeric_of_text (nth iq row CNaN))).
  - reflexivity.
  - pose proof (category_block_length _ _ _ _ Hb) as Hlen. fold master in Hlen.
    destruct Hcol as [[_ ->] | [_ Hcat]]; [exact Hlen |].
    now rewrite (categorical_length _ _ _ Hcat).
Qed.

Lemma map_eq_Forall2 {A B C} (f : A -> C) (g : B -> C) (l : list A) (l' : list B) :
  map f l = map g l' -> Forall2 (fun a b => f a = g b) l l'.
Proof.
  revert l'. induction l as [|a l IH]; intros [|b l'] H; try discriminate H;
    constructor; injection H as H1 H2; auto.
Qed.

(** C6, as the code has it.  Every returned row comes from a Master row of
    its own, with that row's product, size, category and brand, and its
    quantity is what the QUANTITY cell of that row is coerced to: a number
    is kept as it is, whatever its sign; a text gives the number that
    [pd.to_numeric] reads from it, and 0 when it reads none; an empty cell
    gives 0. *)
Theorem quantity_coerced (numeric_of_text : reader)
    (input_file : option (gmap string frame)) (p : prepared) :
  prepare_data numeric_of_text input_file = Ok p ->
  let master := s_df (load_sheets input_file) in
  (exists source : list (list cell),
     Permutation source (rows master)
     /\ Forall2 (fun it row =>
                   exists product size category brand quantity,
                     getitem master row "PRODUCT" = Ok product
                     /\ getitem master row "SIZE" = Ok size
                     /\ getitem master row "CATEGORY" = Ok category
                     /\ getitem master row "BRAND" = Ok brand
                     /\ getitem master row "QUANTITY" = Ok quantity
                     /\ PRODUCT it = strip (py_str product)
                     /\ SIZE it = strip (py_str size)
                     /\ CATEGORY it = strip (py_str category)
                     /\ BRAND it = strip (py_str brand)
                     /\ QUANTITY it = coerce_quantity numeric_of_text quantity)
                (df p) source)
  /\ (forall x r, is_nan x = false -> coerce_quantity numeric_of_text (CNum x r) = x)
  /\ (forall s, is_nan (numeric_of_text s) = false ->
        coerce_quantity numeric_of_text (CStr s) = numeric_of_text s)
  /\ (forall s, is_nan (numeric_of_text s) = true ->
        coerce_quantity numeric_of_text (CStr s) = fzero)
  /\ coerce_quantity numeric_of_text CNaN = fzero.
Proof.
  intros Hp master. split.
  - destruct (prepare_data_fields numeric_of_text input_file p Hp)
      as (product & size & category & brand & quantity
          & H1 & H2 & H3 & H4 & H5 & Hperm).
    fold master in H1, H2, H3, H4, H5, Hperm.
    apply Permutation_map_inv in Hperm. destruct Hperm as (source & Heq & Hperm).
    exists source. split; [now apply Permutation_sym |].
    apply map_eq_Forall2 in Heq.
    eapply Forall2_impl; [exact Heq |].
    intros it row E. unfold row_fields in E. injection E as E1 E2 E3 E4 E5.
    exists (product row), (size row), (category row), (brand row), (quantity row).
    repeat split; auto.
  - unfold coerce_quantity, fillna0. cbn [to_numeric]. repeat split.
    + intros x r H. now rewrite H.
    + intros s H. now rewrite H.
    + intros s H. now rewrite H.
Qed.

(** The quantity cells 4, 2.5, "n/a" and -5 of the sample rows. *)
Lemma quantity_coerced_witness :
  exists p, prepare_data decimal_of_text sample_workbook = Ok p
            /\ Permutation (map QUANTITY (df p))
                 [float_of_Z 4; float_of_decimal false 25 (-1); fzero;
                  float_of_Z (-5)].
Proof.
  destruct (prepare_data decimal_of_text sample_workbook) as [p|e] eqn:E;
    [| vm_compute in E; discriminate].
  exists p. split; [reflexivity |].
  destruct (quantity_coerced decimal_of_text sample_workbook p E)
    as [(source & Hperm & Hall) _].
  assert (Hq : map QUANTITY (df p)
               = map (fun row => coerce_quantity decimal_of_text (nth 4 row CNaN))
                     source).
  { clear Hperm. induction Hall as [|it row l l' H _ IH]; [reflexivity |].
    cbn [map]. f_equal; [| exact IH].
    destruct H as (pr & sz & ct & br & q & _ & _ & _ & _ & Hq & _ & _ & _ & _ & ->).
    vm_compute in Hq. now injection Hq as <-. }
  rewrite Hq.
  apply (Permutation_map (fun row => coerce_quantity decimal_of_text (nth 4 row CNaN)))
    in Hperm.
  exact Hperm.
Defined.

(** C6 as stated fails: a negative quantity stays negative. *)
Lemma quantity_can_be_negative :
  match prepare_data decimal_of_text sample_workbook with
  | Ok p => exists it, In it (df p) /\ flt (QUANTITY it) fzero = true
  | Raise _ => False
  end.
Proof.
  vm_compute. eexists. split; [do 3 right; left; reflexivity |]. reflexivity.
Qed.

(** ** Loader: missing and malformed sheets *)

Lemma prepare_loaded_fallback (numeric_of_text : reader) :
  prepare_loaded numeric_of_text fallback_sheets = Ok builtin_prepared.
Proof. vm_compute. reflexivity. Qed.

Lemma load_sheets_unreadable (input_file : option (gmap string frame)) (e : exn) :
  read_sheets input_file = Raise e -> load_sheets input_file = fallback_sheets.
Proof. unfold load_sheets. now intros ->. Qed.

(** A WeightMap sheet lacking a column gives the empty dictionary. *)
Lemma build_weight_map_malformed (f : frame) :
  malformed_weight_sheet f = true -> build_weight_map f = ∅.
Proof.
  unfold malformed_weight_sheet, has_column, build_weight_map. intros H.
  destruct (rows f) as [|row rs]; [reflexivity |].
  cbn [mapM]. unfold getitem.
  destruct (col_index "PRODUCT" (columns f)); cbn [bind]; [| reflexivity].
  destruct (col_index "BRAND" (columns f)); cbn [bind]; [| reflexivity].
  destruct (col_index "WEIGHT_PER_PCS" (columns f)); cbn [bind]; [| reflexivity].
  discriminate H.
Qed.

Lemma build_thickness_map_malformed (f : frame) (value_col : string) :
  malformed_thickness_sheet f value_col = true -> build_thickness_map f value_col = ∅.
Proof.
  unfold malformed_thickness_sheet, has_column, build_thickness_map. intros H.
  destruct (rows f) as [|row rs]; [reflexivity |].
  cbn [mapM]. unfold getitem.
  destruct (col_index "THICKNESS" (columns f)); cbn [bind]; [| reflexivity].
  destruct (float_of_cell _); cbn [bind]; [| reflexivity].
  destruct (col_index value_col (columns f)); cbn [bind]; [| reflexivity].
  discriminate H.
Qed.

(** The first [try] of the loader, sheet by sheet. *)
Lemma load_sheets_spec (wb : gmap string frame) :
  load_sheets (Some wb)
  = match wb !! "Master" with None => fallback_sheets | Some m =>
    match wb !! "CategoryMap" with None => fallback_sheets | Some c =>
    match wb !! "WeightMap" with None => fallback_sheets | Some w =>
    match wb !! "HDMRWeightMap" with None => fallback_sheets | Some h1 =>
    match wb !! "MDFWeightMap" with None => fallback_sheets | Some h2 =>
    match wb !! "PlyWeightMap" with None => fallback_sheets | Some h3 =>
    match wb !! "PVCWeightMap" with None => fallback_sheets | Some h4 =>
    match wb !! "WPCBoardWeightMap" with None => fallback_sheets | Some h5 =>
      {| s_df := m; s_cat_map := c; s_weight_map_df := w;
         s_hdmr_map_df := h1; s_mdf_map_df := h2; s_ply_map_df := h3;
         s_pvc_map_df := h4; s_wpc_map_df := h5 |}
    end end end end end end end end.
Proof.
  unfold load_sheets, read_sheets, read_excel.
  repeat match goal with
         | |- context [wb !! ?k] => destruct (wb !! k); cbn [bind]; [| reflexivity]
         end.
  reflexivity.
Qed.

(** Rows and category order depend on the Master and CategoryMap sheets
    only; the dictionaries are built sheet by sheet. *)
Lemma prepare_loaded_rows (numeric_of_text : reader) (l l' : sheets) :
  s_df l = s_df l' -> s_cat_map l = s_cat_map l' ->
  same_rows (prepare_loaded numeric_of_text l) (prepare_loaded numeric_of_text l').
Proof.
  intros Hd Hc. unfold same_rows, prepare_loaded. rewrite <- Hd, <- Hc.
  destruct (category_block (s_df l) (s_cat_map l)) as [norm_col order].
  destruct (annotate numeric_of_text (s_df l) norm_col order); cbn; auto.
Qed.

Lemma prepare_loaded_maps (numeric_of_text : reader) (l : sheets) (p : prepared) :
  prepare_loaded numeric_of_text l = Ok p ->
  weight_map p = build_weight_map (s_weight_map_df l)
  /\ hdmr_map p = build_thickness_map (s_hdmr_map_df l) "WEIGHT_PER_PCS"
  /\ mdf_map p = build_thickness_map (s_mdf_map_df l) "WEIGHT_PER_PCS"
  /\ ply_map p = build_thickness_map (s_ply_map_df l) "WEIGHT_PER_SQFT"
  /\ pvc_map p = build_thickness_map (s_pvc_map_df l) "WEIGHT_PER_SQFT"
  /\ wpc_map p = build_thickness_map (s_wpc_map_df l) "WEIGHT_PER_PCS".
Proof.
  unfold prepare_loaded.
  destruct (category_block (s_df l) (s_cat_map l)) as [norm_col order].
  destruct (annotate numeric_of_text (s_df l) norm_col order); cbn [bind];
    [| discriminate].
  intros H. injection H as <-. cbn. repeat split.
Qed.

(** Case analysis on the seven sheets other than the one replaced. *)
Ltac other_sheets wb tac_fallback :=
  rewrite ?load_sheets_spec;
  rewrite ?lookup_insert_eq;
  rewrite ?lookup_insert_ne by discriminate;
  repeat match goal with
         | |- context [wb !! ?k] => destruct (wb !! k); [| tac_fallback]
         end.

(** Replacing the content of a weight sheet changes neither the rows, nor
    the category order, nor whether the loader fails. *)
Lemma weight_sheet_frame (numeric_of_text : reader)
    (wb : gmap string frame) (nm : string) (f f' : frame) :
  In nm weight_sheet_names ->
  same_rows (prepare_data numeric_of_text (Some (<[nm := f]> wb)))
            (prepare_data numeric_of_text (Some (<[nm := f']> wb))).
Proof.
  intros Hin. unfold prepare_data. simpl in Hin.
  repeat (destruct Hin as [<- | Hin]);
    try (other_sheets wb ltac:(apply prepare_loaded_rows; reflexivity);
         apply prepare_loaded_rows; reflexivity).
  destruct Hin.
Qed.

Lemma weight_map_malformed (numeric_of_text : reader)
    (wb : gmap string frame) (f : frame) (p : prepared) :
  malformed_weight_sheet f = true ->
  prepare_data numeric_of_text (Some (<["WeightMap" := f]> wb)) = Ok p ->
  weight_map p = ∅
  /\ (forall f' p',
        prepare_data numeric_of_text (Some (<["WeightMap" := f']> wb)) = Ok p' ->
        hdmr_map p = hdmr_map p' /\ mdf_map p = mdf_map p'
        /\ ply_map p = ply_map p' /\ pvc_map p = pvc_map p'
        /\ wpc_map p = wpc_map p').
Proof.
  intros Hmal. unfold prepare_data. intros Hp.
  destruct (prepare_loaded_maps _ _ _ Hp) as (Hw & H1 & H2 & H3 & H4 & H5).
  split.
  - rewrite Hw. clear -Hmal.
    other_sheets wb ltac:(reflexivity).
    cbn. apply build_weight_map_malformed, Hmal.
  - intros f' p' Hp'.
    destruct (prepare_loaded_maps _ _ _ Hp') as (_ & H1' & H2' & H3' & H4' & H5').
    rewrite H1, H2, H3, H4, H5, H1', H2', H3', H4', H5'. clear.
    other_sheets wb ltac:(repeat split; reflexivity).
    repeat split; reflexivity.
Qed.

Lemma thickness_map_malformed (numeric_of_text : reader)
    (wb : gmap string frame) (nm col : string)
    (sel : prepared -> gmap float_id cell) (f : frame) (p : prepared) :
  In (nm, col, sel) thickness_sheets ->
  malformed_thickness_sheet f col = true ->
  prepare_data numeric_of_text (Some (<[nm := f]> wb)) = Ok p ->
  sel p = ∅.
Proof.
  intros Hin Hmal. unfold prepare_data. intros Hp.
  destruct (prepare_loaded_maps _ _ _ Hp) as (Hw & H1 & H2 & H3 & H4 & H5).
  simpl in Hin.
  repeat (destruct Hin as [Hin | Hin]; [injection Hin as <- <- <- |]);
    try destruct Hin.
  - rewrite H1. clear -Hmal. other_sheets wb ltac:(reflexivity).
    cbn. apply build_thickness_map_malformed, Hmal.
  - rewrite H2. clear -Hmal. other_sheets wb ltac:(reflexivity).
    cbn. apply build_thickness_map_malformed, Hmal.
  - rewrite H3. clear -Hmal. other_sheets wb ltac:(reflexivity).
    cbn. apply build_thickness_map_malformed, Hmal.
  - rewrite H4. clear -Hmal. other_sheets wb ltac:(reflexivity).
    cbn. apply build_thickness_map_malformed, Hmal.
  - rewrite H5. clear -Hmal. other_sheets wb ltac:(reflexivity).
    cbn. apply build_thickness_map_malformed, Hmal.
Qed.

Lemma weight_sheet_absent (numeric_of_text : reader)
    (wb : gmap string frame) (nm : string) :
  In nm weight_sheet_names -> wb !! nm = None ->
  prepare_data numeric_of_text (Some wb) = Ok builtin_prepared.
Proof.
  intros Hin Hnone. unfold prepare_data.
  rewrite <- (prepare_loaded_fallback numeric_of_text).
  f_equal. rewrite load_sheets_spec. simpl in Hin.
  repeat (destruct Hin as [<- | Hin]);
    try (rewrite Hnone;
         repeat match goal with
                | |- context [wb !! ?k] => destruct (wb !! k); [| reflexivity]
                end; reflexivity).
  destruct Hin.
Qed.

Lemma get_weight_formula_missing_key (row : item)
    (wm : gmap (string * string) cell) (hd md pl pv wp : gmap float_id cell)
    (n : Z) :
  hardcoded_weights (lower (PRODUCT row)) = None ->
  (forall m t,
     thickness_maps hd md pl pv wp (lower (PRODUCT row)) = Some m ->
     extract_thickness_from_category (lower (CATEGORY row)) = Some t ->
     float_lookup m t = None) ->
  wm !! (lower (PRODUCT row), upper (BRAND row)) = None ->
  get_weight_formula row wm hd md pl pv wp n = "0".
Proof.
  intros Hhard Hthick Hkey. unfold get_weight_formula. rewrite Hhard.
  destruct (thickness_maps hd md pl pv wp (lower (PRODUCT row))) as [m|] eqn:Em.
  - destruct (extract_thickness_from_category (lower (CATEGORY row))) as [t|] eqn:Et.
    + rewrite (Hthick m t eq_refl eq_refl), Hkey.
      now destruct (is_laminate_or_liner _).
    + rewrite Hkey. now destruct (is_laminate_or_liner _).
  - rewrite Hkey. now destruct (is_laminate_or_liner _).
Qed.

(** C8, as the code has it.  Replacing the content of any of the six
    weight sheets leaves the rows, the category order and the outcome of
    the loader unchanged; a WeightMap or thickness sheet that is present but
    lacks a column only empties its own dictionary.  A document in which one
    of these sheets is absent is replaced as a whole by the built-in data.
    A row whose product has no fixed weight and whose lookup key is missing
    gets the weight formula "0". *)
Theorem weight_sheet_malformed_or_absent (numeric_of_text : reader) :
  (forall (wb : gmap string frame) (nm : string) (f f' : frame),
      In nm weight_sheet_names ->
      same_rows (prepare_data numeric_of_text (Some (<[nm := f]> wb)))
                (prepare_data numeric_of_text (Some (<[nm := f']> wb))))
  /\ (forall (wb : gmap string frame) (f : frame) (p : prepared),
        malformed_weight_sheet f = true ->
        prepare_data numeric_of_text (Some (<["WeightMap" := f]> wb)) = Ok p ->
        weight_map p = ∅
        /\ (forall f' p',
              prepare_data numeric_of_text (Some (<["WeightMap" := f']> wb)) = Ok p' ->
              hdmr_map p = hdmr_map p' /\ mdf_map p = mdf_map p'
              /\ ply_map p = ply_map p' /\ pvc_map p = pvc_map p'
              /\ wpc_map p = wpc_map p'))
  /\ (forall (wb : gmap string frame) (nm col : string)
             (sel : prepared -> gmap float_id cell) (f : frame) (p : prepared),
        In (nm, col, sel) thickness_sheets ->
        malformed_thickness_sheet f col = true ->
        prepare_data numeric_of_text (Some (<[nm := f]> wb)) = Ok p ->
        sel p = ∅)
  /\ (forall (wb : gmap string frame) (nm : string),
        In nm weight_sheet_names -> wb !! nm = None ->
        prepare_data numeric_of_text (Some wb) = Ok builtin_prepared)
  /\ (forall (row : item) (wm : gmap (string * string) cell)
             (hd md pl pv wp : gmap float_id cell) (n : Z),
        hardcoded_weights (lower (PRODUCT row)) = None ->
        (forall m t,
           thickness_maps hd md pl pv wp (lower (PRODUCT row)) = Some m ->
           extract_thickness_from_category (lower (CATEGORY row)) = Some t ->
           float_lookup m t = None) ->
        wm !! (lower (PRODUCT row), upper (BRAND row)) = None ->
        get_weight_formula row wm hd md pl pv wp n = "0").
Proof.
  split; [exact (weight_sheet_frame numeric_of_text) |].
  split; [exact (weight_map_malformed numeric_of_text) |].
  split; [exact (thickness_map_malformed numeric_of_text) |].
  split; [exact (weight_sheet_absent numeric_of_text) |].
  exact get_weight_formula_missing_key.
Qed.

Lemma weight_sheet_malformed_or_absent_witness :
  (exists p p',
     prepare_data decimal_of_text (Some (<["WeightMap" := malformed_weights]>
                           (workbook sample_master sample_cat_map sample_weights))) = Ok p
     /\ prepare_data decimal_of_text (Some (<["WeightMap" := sample_weights]>
                           (workbook sample_master sample_cat_map sample_weights))) = Ok p'
     /\ df p = df p' /\ cat_order p = cat_order p' /\ weight_map p = ∅)
  /\ (exists p,
     prepare_data decimal_of_text (Some (<["HDMRWeightMap" := malformed_hdmr]>
                           (workbook sample_master sample_cat_map sample_weights))) = Ok p
     /\ hdmr_map p = ∅)
  /\ prepare_data decimal_of_text (Some (delete "WeightMap"
                           (workbook sample_master sample_cat_map sample_weights)))
     = Ok builtin_prepared
  /\ get_weight_formula (sample_row "Laminate" "8x4" (float_of_Z 4)) ∅ ∅ ∅ ∅ ∅ ∅ 12 = "0".
Proof.
  destruct (weight_sheet_malformed_or_absent decimal_of_text) as (Hrows & Hmal & Hthick & Habs & Hkey).
  split; [| split; [| split]].
  - pose proof (Hrows (workbook sample_master sample_cat_map sample_weights)
                      "WeightMap" malformed_weights sample_weights
                      (or_introl eq_refl)) as H.
    destruct (prepare_data decimal_of_text (Some (<["WeightMap" := malformed_weights]> _)))
      as [p|e] eqn:E;
    destruct (prepare_data decimal_of_text (Some (<["WeightMap" := sample_weights]> _)))
      as [p'|e'] eqn:E'; try contradiction.
    + exists p, p'. destruct H as [H1 H2].
      repeat split; auto.
      exact (proj1 (Hmal (workbook sample_master sample_cat_map sample_weights)
                         malformed_weights p eq_refl E)).
    + vm_compute in E'. discriminate.
  - destruct (prepare_data decimal_of_text (Some (<["HDMRWeightMap" := malformed_hdmr]> _)))
      as [p|e] eqn:E; [| vm_compute in E; discriminate].
    exists p. split; [reflexivity |].
    exact (Hthick _ "HDMRWeightMap" "WEIGHT_PER_PCS" hdmr_map malformed_hdmr p
                  (or_introl eq_refl) eq_refl E).
  - apply (Habs _ "WeightMap"); [left; reflexivity | reflexivity].
  - apply Hkey; [reflexivity | | reflexivity].
    intros m t H. vm_compute in H. discriminate.
Defined.

(** C8 as stated fails when the sheet is absent: the Master sheet is
    readable, yet the rows returned are the built-in row. *)
Lemma absent_weight_sheet_replaces_rows :
  let wb := delete "WeightMap" (workbook sample_master sample_cat_map sample_weights) in
  read_excel (Some wb) "Master" = Ok sample_master /\
  read_excel (Some wb) "WeightMap" = Raise ValueError /\
  match prepare_data decimal_of_text (Some wb) with
  | Ok p => map PRODUCT (df p) = ["Laminate"]
            /\ List.length (df p) <> List.length (rows sample_master)
  | Raise _ => False
  end.
Proof.
  split; [reflexivity |]. split; [reflexivity |].
  vm_compute. split; [reflexivity | discriminate].
Qed.

(** C9, as the code has it.  When the Master sheet cannot be read the loader
    does not fail: it returns the built-in row.  Documents whose Master sheet
    is readable can still make it fail. *)
Theorem unreadable_master_gives_builtin_rows (numeric_of_text : reader) :
  (forall (input_file : option (gmap string frame)) (e : exn),
      read_excel input_file "Master" = Raise e ->
      prepare_data numeric_of_text input_file = Ok builtin_prepared)
  /\ (exists input_file,
        is_ok (read_excel input_file "Master") = true
        /\ prepare_data numeric_of_text input_file = Raise KeyError).
Proof.
  split.
  - intros input_file e H. unfold prepare_data.
    rewrite (load_sheets_unreadable input_file e);
      [apply prepare_loaded_fallback |].
    unfold read_sheets. now rewrite H.
  - exists (Some (workbook sample_master malformed_cat_map sample_weights)).
    split; vm_compute; reflexivity.
Qed.

Lemma unreadable_master_gives_builtin_rows_witness :
  prepare_data decimal_of_text (Some (delete "Master"
                        (workbook sample_master sample_cat_map sample_weights)))
  = Ok builtin_prepared.
Proof.
  apply (proj1 (unreadable_master_gives_builtin_rows decimal_of_text) _ ValueError).
  reflexivity.
Defined.

(** C9 as stated fails: a document that cannot be opened at all still
    yields rows. *)
Lemma unreadable_document_is_not_fatal :
  read_excel None "Master" = Raise ValueError
  /\ is_ok (prepare_data decimal_of_text None) = true
  /\ prepare_data decimal_of_text None = Ok builtin_prepared.
Proof. repeat split; vm_compute; reflexivity. Qed.
(** ** Report writer: the quantity cell *)

(** Truncation of a finite float: the integer between 0 and its value that
    is nearest to the value. *)
Lemma py_int_finite (x : float) :
  is_finite x = true ->
  exists z, py_int x = Ok z
    /\ ((0 <= float_value x)%Q ->
          (inject_Z z <= float_value x)%Q /\ (float_value x < inject_Z z + 1)%Q)
    /\ ((float_value x <= 0)%Q ->
          (inject_Z z - 1 < float_value x)%Q /\ (float_value x <= inject_Z z)%Q).
Proof.
  destruct x as [s | s | | s m e]; try discriminate; intros _.
  - exists 0%Z. split; [reflexivity |].
    unfold Qle, Qlt. cbn. split; intros _; split; lia.
  - cbn [py_int float_value].
    assert (Hv : exists n d : Z,
               (0 < d)%Z /\ Z.shiftl (Z.pos m) e = (n / d)%Z /\ (0 < n)%Z
               /\ (if (0 <=? e)%Z then inject_Z (Z.pos m * 2 ^ e)
                   else Z.pos m # Z.to_pos (2 ^ (- e))) = (n # Z.to_pos d)).
    { destruct (Z.leb_spec 0 e) as [He | He].
      - exists (Z.pos m * 2 ^ e)%Z, 1%Z. rewrite Z.shiftl_mul_pow2 by exact He.
        rewrite Z.div_1_r.
        assert (0 < 2 ^ e)%Z by (apply Z.pow_pos_nonneg; lia).
        repeat split; try lia.
      - exists (Z.pos m), (2 ^ (- e))%Z.
        assert (0 < 2 ^ (- e))%Z by (apply Z.pow_pos_nonneg; lia).
        repeat split; try lia.
        replace e with (- (- e))%Z at 1 by lia.
        rewrite Z.shiftl_opp_r, Z.shiftr_div_pow2 by lia. reflexivity. }
    destruct Hv as (n & d & Hd & -> & Hn & ->).
    pose proof (Z.mul_div_le n d Hd) as H1.
    pose proof (Z.mul_succ_div_gt n d Hd) as H2.
    assert (Hq : (0 <= n / d)%Z) by (apply Z.div_pos; lia).
    set (q := (n / d)%Z) in *.
    destruct s.
    + exists (- q)%Z. split; [reflexivity |].
      unfold Qminus, Qplus, Qopp, Qle, Qlt, inject_Z. cbn [Qnum Qden Pos.mul].
      rewrite !Z2Pos.id by exact Hd. split; intros H; split; nia.
    + exists q. split; [reflexivity |].
      unfold Qminus, Qplus, Qopp, Qle, Qlt, inject_Z. cbn [Qnum Qden Pos.mul].
      rewrite !Z2Pos.id by exact Hd. split; intros H; split; nia.
Qed.

(** The row body completes when the quantity converts, and leaves the
    converted quantity in column 5. *)
Lemma write_data_row_quantity (ws : gmap (Z * Z) xl_cell) (row : item)
    (wm : gmap (string * string) cell) (hd md pl pv wp : gmap float_id cell)
    (n z : Z) :
  py_int (QUANTITY row) = Ok z ->
  snd (write_data_row ws row wm hd md pl pv wp n) = None
  /\ fst (write_data_row ws row wm hd md pl pv wp n) !! (n, 5%Z) = Some (XlInt z).
Proof.
  intros Hz. unfold write_data_row. rewrite Hz. cbn [fst snd].
  split; [reflexivity |].
  rewrite !lookup_insert_ne by (intros [=]).
  apply lookup_insert_eq.
Qed.

(** C10.  The QUANTITY cell of a data row holds the quantity truncated
    toward zero, while the area annotation of the loader is computed from
    the quantity itself. *)
Theorem quantity_cell_truncated :
  (forall (ws : gmap (Z * Z) xl_cell) (row : item)
          (wm : gmap (string * string) cell)
          (hd md pl pv wp : gmap float_id cell) (n : Z),
      is_finite (QUANTITY row) = true ->
      exists z,
        py_int (QUANTITY row) = Ok z
        /\ snd (write_data_row ws row wm hd md pl pv wp n) = None
        /\ fst (write_data_row ws row wm hd md pl pv wp n) !! (n, 5%Z)
           = Some (XlInt z)
        /\ ((0 <= float_value (QUANTITY row))%Q ->
              (inject_Z z <= float_value (QUANTITY row))%Q
              /\ (float_value (QUANTITY row) < inject_Z z + 1)%Q)
        /\ ((float_value (QUANTITY row) <= 0)%Q ->
              (inject_Z z - 1 < float_value (QUANTITY row))%Q
              /\ (float_value (QUANTITY row) <= inject_Z z)%Q))
  /\ (forall (numeric_of_text : reader) (input_file : option (gmap string frame))
             (p : prepared) (it : item),
        prepare_data numeric_of_text input_file = Ok p -> In it (df p) ->
        SQFT it = calculate_sqft (CStr (SIZE it)) (QUANTITY it)).
Proof.
  split.
  - intros ws row wm hd md pl pv wp n Hfin.
    destruct (py_int_finite _ Hfin) as (z & Hz & Hpos & Hneg).
    exists z. split; [exact Hz |].
    destruct (write_data_row_quantity ws row wm hd md pl pv wp n z Hz) as [H1 H2].
    repeat split; auto; try apply Hpos; try apply Hneg; auto.
  - intros numeric_of_text input_file p it Hp Hin.
    destruct (prepare_data_rows numeric_of_text input_file p Hp) as (_ & _ & _ & Hsq).
    rewrite List.Forall_forall in Hsq. now apply Hsq.
Qed.

(** A row with quantity 2.5 and size 8x4: the cell shows 2, the annotated
    area is 8 * 4 * 2.5 = 80. *)
Lemma quantity_cell_truncated_witness :
  exists p it,
    prepare_data decimal_of_text sample_workbook = Ok p /\ In it (df p)
    /\ QUANTITY it = float_of_decimal false 25 (-1)
    /\ fst (write_data_row ∅ it (weight_map p) (hdmr_map p) (mdf_map p) (ply_map p)
              (pvc_map p) (wpc_map p) 12) !! (12%Z, 5%Z) = Some (XlInt 2)
    /\ SQFT it = calculate_sqft (CStr "8x4") (float_of_decimal false 25 (-1))
    /\ SQFT it = float_of_Z 80.
Proof.
  destruct quantity_cell_truncated as [Hcell Hsqft].
  destruct (prepare_data decimal_of_text sample_workbook) as [p|e] eqn:E;
    [| vm_compute in E; discriminate].
  pose proof E as E0. vm_compute in E0. injection E0 as <-.
  eexists _, _. split; [reflexivity |].
  split; [right; left; reflexivity |].
  split; [reflexivity |].
  split.
  - match goal with
    | |- fst (write_data_row ?ws ?row ?wm ?hd ?md ?pl ?pv ?wp ?n) !! _ = _ =>
        destruct (Hcell ws row wm hd md pl pv wp n eq_refl)
          as (z & Hz & _ & Hc & _)
    end.
    vm_compute in Hz. injection Hz as <-. exact Hc.
  - split; [| reflexivity].
    exact (Hsqft decimal_of_text sample_workbook _ _ E (or_intror (or_introl eq_refl))).
Defined.

(** ** Decimal numerals *)

Lemma append_nil_r (s : string) : s ++ EmptyString = s.
Proof. induction s as [|c s IH]; simpl; [reflexivity | now f_equal]. Qed.

Lemma all_digits_app (s t : string) :
  all_digits (s ++ t) = all_digits s && all_digits t.
Proof.
  induction s as [|c s IH]; simpl; [reflexivity |].
  rewrite IH. apply andb_assoc.
Qed.

Lemma read_digits_app (s t : string) (a : N) :
  read_digits a (s ++ t)
  = match read_digits a s with Some x => read_digits x t | None => None end.
Proof.
  revert a. induction s as [|c s IH]; intros a; simpl; [reflexivity |].
  destruct (is_digit c); [apply IH | reflexivity].
Qed.

Lemma digit_char_spec (d : N) :
  (d < 10)%N -> is_digit (digit_char d) = true /\ digit_val (digit_char d) = d.
Proof.
  intros H.
  assert (d = 0 \/ d = 1 \/ d = 2 \/ d = 3 \/ d = 4 \/ d = 5 \/ d = 6 \/ d = 7
          \/ d = 8 \/ d = 9)%N as Hd by lia.
  repeat (destruct Hd as [-> | Hd]; [split; reflexivity |]).
  subst. split; reflexivity.
Qed.

Lemma digit_not_sign (c : ascii) :
  is_digit c = true -> Ascii.eqb c "+" || Ascii.eqb c "-" = false.
Proof.
  destruct c as [[] [] [] [] [] [] [] []]; intros H; try discriminate H; reflexivity.
Qed.

(** The digits produced for [n], given enough fuel: they read back as [n],
    and their number is the number of decimal digits of [n]. *)
Lemma str_digits_spec (f : nat) :
  forall (n : N) (acc : string),
    (n < 10 ^ N.of_nat f)%N ->
    exists front,
      str_digits f n acc = front ++ acc
      /\ all_digits front = true
      /\ (forall a, read_digits a front
                    = Some (a * 10 ^ N.of_nat (String.length front) + n)%N)
      /\ (n < 10 ^ N.of_nat (String.length front))%N
      /\ (n <> 0%N -> (10 ^ N.of_nat (String.length front) <= 10 * n)%N)
      /\ (f <> O -> front <> EmptyString).
Proof.
  induction f as [|f IH]; intros n acc Hn.
  - exists EmptyString. cbn in Hn. assert (n = 0%N) as -> by lia.
    cbn. repeat split; try lia; try congruence.
    intros a. f_equal. lia.
  - rewrite Nat2N.inj_succ, N.pow_succ_r' in Hn.
    pose proof (N.div_mod n 10 ltac:(lia)) as Hdm.
    pose proof (N.mod_lt n 10 ltac:(lia)) as Hlt.
    destruct (digit_char_spec (n mod 10) Hlt) as [Hdig Hval].
    cbn [str_digits]. destruct (N.eqb_spec (n / 10) 0) as [Hz | Hnz].
    + exists (String (digit_char (n mod 10)) EmptyString).
      assert (Hsmall : (n mod 10 = n)%N) by lia.
      cbn [String.append String.length all_digits read_digits].
      rewrite Hdig, Hval. change (10 ^ N.of_nat 1)%N with 10%N.
      repeat split; try lia; try congruence.
      intros a. f_equal. lia.
    + destruct (IH (n / 10)%N (String (digit_char (n mod 10)) acc) ltac:(lia))
        as (front & Hstr & Hall & Hread & Hub & Hlb & _).
      exists (front ++ String (digit_char (n mod 10)) EmptyString).
      rewrite Hstr, append_assoc, all_digits_app, Hall, append_length.
      cbn [String.append String.length all_digits].
      rewrite Hdig. replace (String.length front + 1)%nat with (S (String.length front)) by lia.
      rewrite Nat2N.inj_succ, N.pow_succ_r'.
      specialize (Hlb Hnz).
      repeat split; try lia.
      * intros a. rewrite read_digits_app, Hread.
        cbn [read_digits]. rewrite Hdig, Hval. f_equal. lia.
      * destruct front; discriminate.
Qed.

Lemma str_N_spec (n : N) :
  all_digits (str_N n) = true
  /\ str_N n <> EmptyString
  /\ (forall a, read_digits a (str_N n)
                = Some (a * 10 ^ N.of_nat (String.length (str_N n)) + n)%N)
  /\ (n < 10 ^ N.of_nat (String.length (str_N n)))%N
  /\ (n <> 0%N -> (10 ^ N.of_nat (String.length (str_N n)) <= 10 * n)%N).
Proof.
  unfold str_N.
  destruct (str_digits_spec (S (N.to_nat (N.log2 n))) n EmptyString)
    as (front & Hstr & Hall & Hread & Hub & Hlb & Hne).
  - rewrite Nat2N.inj_succ, N2Nat.id.
    destruct (N.eq_dec n 0%N) as [-> | Hpos]; [reflexivity |].
    destruct (N.log2_spec n ltac:(lia)) as [_ H2].
    eapply N.lt_le_trans; [exact H2 |].
    apply N.pow_le_mono_l. lia.
  - rewrite append_nil_r in Hstr. rewrite Hstr.
    repeat split; auto.
Qed.

Lemma repeat_char_length (c : ascii) (k : nat) : String.length (repeat_char c k) = k.
Proof. induction k; simpl; congruence. Qed.

Lemma read_zeros (k : nat) (s : string) :
  read_digits 0 (repeat_char "0" k ++ s) = read_digits 0 s.
Proof. induction k as [|k IH]; simpl; [reflexivity | exact IH]. Qed.

Lemma all_digits_zeros (k : nat) : all_digits (repeat_char "0" k) = true.
Proof. induction k; simpl; auto. Qed.

(** Padding a non-negative integer: digits only, reading back as the
    integer, and as long as the wider of the width and the numeral. *)
Lemma zfill_str_int (w : nat) (z : Z) :
  (0 <= z)%Z ->
  zfill w (str_int z)
    = repeat_char "0" (w - String.length (str_N (Z.to_N z))) ++ str_N (Z.to_N z)
  /\ all_digits (zfill w (str_int z)) = true
  /\ read_N (zfill w (str_int z)) = Some (Z.to_N z)
  /\ String.length (zfill w (str_int z))
     = Nat.max w (String.length (str_N (Z.to_N z))).
Proof.
  intros Hz. unfold str_int.
  destruct (Z.ltb_spec z 0) as [Hneg | _]; [lia |].
  destruct (str_N_spec (Z.to_N z)) as (Hall & Hne & Hread & _).
  assert (Hfill : zfill w (str_N (Z.to_N z))
                  = repeat_char "0" (w - String.length (str_N (Z.to_N z)))
                    ++ str_N (Z.to_N z)).
  { unfold zfill. destruct (str_N (Z.to_N z)) as [|c s] eqn:E; [congruence |].
    cbn [all_digits] in Hall. apply andb_true_iff in Hall. destruct Hall as [Hc _].
    now rewrite (digit_not_sign c Hc). }
  rewrite Hfill. split; [reflexivity |]. split; [| split].
  - now rewrite all_digits_app, all_digits_zeros, Hall.
  - unfold read_N.
    destruct (repeat_char "0" _ ++ str_N (Z.to_N z)) eqn:E.
    + exfalso. destruct (w - _)%nat; simpl in E; [congruence | discriminate].
    + rewrite <- E, read_zeros, Hread. reflexivity.
  - rewrite append_length, repeat_char_length. lia.
Qed.

(** A numeral below [10 ^ w] has at most [w] digits, so padding to [w]
    gives exactly [w] characters. *)
Lemma str_N_short (n : N) (w : nat) :
  (1 <= w)%nat -> (n < 10 ^ N.of_nat w)%N -> (String.length (str_N n) <= w)%nat.
Proof.
  intros Hw Hn. destruct (N.eq_dec n 0%N) as [-> | Hpos]; [exact Hw |].
  destruct (str_N_spec n) as (_ & _ & _ & _ & Hlb). specialize (Hlb Hpos).
  destruct (Nat.le_gt_cases (String.length (str_N n)) w) as [H | H]; [exact H |].
  exfalso.
  assert (10 ^ N.of_nat (S w) <= 10 ^ N.of_nat (String.length (str_N n)))%N
    by (apply N.pow_le_mono_r; lia).
  rewrite Nat2N.inj_succ, N.pow_succ_r' in H0. lia.
Qed.

Lemma str_N_long (n : N) (w : nat) :
  (10 ^ N.of_nat w <= n)%N -> (w < String.length (str_N n))%nat.
Proof.
  intros Hn. destruct (str_N_spec n) as (_ & _ & _ & Hub & _).
  destruct (Nat.le_gt_cases (String.length (str_N n)) w) as [H | H]; [| exact H].
  exfalso.
  assert (10 ^ N.of_nat (String.length (str_N n)) <= 10 ^ N.of_nat w)%N
    by (apply N.pow_le_mono_r; lia).
  lia.
Qed.

Lemma zfill_width (w : nat) (z : Z) :
  (1 <= w)%nat -> (0 <= z < 10 ^ Z.of_nat w)%Z ->
  String.length (zfill w (str_int z)) = w.
Proof.
  intros Hw [Hz Hlt].
  destruct (zfill_str_int w z Hz) as (_ & _ & _ & Hlen). rewrite Hlen.
  pose proof (str_N_short (Z.to_N z) w Hw) as H.
  assert (Z.to_N z < 10 ^ N.of_nat w)%N.
  { apply N2Z.inj_lt. rewrite Z2N.id, N2Z.inj_pow, nat_N_Z by lia.
    exact Hlt. }
  specialize (H H0). lia.
Qed.

(** ** Reading whole numerals *)

Lemma digit_is_plain (c : ascii) :
  is_digit c = true ->
  lower_char c = c /\ is_space c = false /\ is_c_space c = false
  /\ Ascii.eqb c "." = false /\ Ascii.eqb c "_" = false
  /\ Ascii.eqb c "i" = false /\ Ascii.eqb c "n" = false.
Proof.
  destruct c as [[] [] [] [] [] [] [] []]; intros H; try discriminate H;
    repeat split; reflexivity.
Qed.

Lemma lstrip_digits (s : string) : all_digits s = true -> lstrip s = s.
Proof.
  destruct s as [|c s]; [reflexivity |]. cbn [all_digits lstrip]. intros H.
  apply andb_true_iff in H. destruct H as [Hc _].
  destruct (digit_is_plain c Hc) as (_ & -> & _). reflexivity.
Qed.

Lemma rstrip_digits (s : string) : all_digits s = true -> rstrip s = s.
Proof.
  induction s as [|c s IH]; [reflexivity |]. cbn [all_digits rstrip]. intros H.
  apply andb_true_iff in H. destruct H as [Hc Hs]. rewrite (IH Hs).
  destruct (digit_is_plain c Hc) as (_ & -> & _). now destruct s.
Qed.

Lemma strip_c_digits (s : string) : all_digits s = true -> strip_c s = s.
Proof.
  intros H. unfold strip_c.
  assert (lstrip_c s = s) as ->.
  { destruct s as [|c s]; [reflexivity |]. cbn [all_digits lstrip_c] in *.
    apply andb_true_iff in H. destruct H as [Hc _].
    destruct (digit_is_plain c Hc) as (_ & _ & -> & _). reflexivity. }
  induction s as [|c s IH]; [reflexivity |]. cbn [all_digits rstrip_c] in *.
  apply andb_true_iff in H. destruct H as [Hc Hs]. rewrite (IH Hs).
  destruct (digit_is_plain c Hc) as (_ & _ & -> & _). now destruct s.
Qed.

Lemma drop_underscores_digits (s : string) (prev : ascii) :
  all_digits s = true -> drop_underscores prev s = Some s.
Proof.
  revert prev. induction s as [|c s IH]; intros prev H; [reflexivity |].
  cbn [all_digits drop_underscores] in *.
  apply andb_true_iff in H. destruct H as [Hc Hs].
  destruct (digit_is_plain c Hc) as (_ & _ & _ & _ & -> & _).
  now rewrite (IH c Hs).
Qed.

Lemma split_sign_digits (s : string) :
  all_digits s = true -> split_sign s = (false, s).
Proof.
  destruct s as [|c s]; [reflexivity |]. cbn [all_digits split_sign]. intros H.
  apply andb_true_iff in H. destruct H as [Hc _].
  pose proof (digit_not_sign c Hc) as Hs. apply orb_false_iff in Hs.
  destruct Hs as [Hp Hm]. now rewrite Hm, Hp.
Qed.

Lemma lower_digits (d : string) : all_digits d = true -> lower d = d.
Proof.
  induction d as [|c d IH]; [reflexivity |]. cbn [all_digits]. intros H.
  apply andb_true_iff in H. destruct H as [Hc Hd].
  change (String (lower_char c) (lower d) = String c d).
  destruct (digit_is_plain c Hc) as (-> & _). now rewrite IH.
Qed.

(** The scanner on a run of digits, from a state in which digits extend the
    integer part. *)
Lemma frun_digits (d : string) :
  forall st, all_digits d = true -> d <> EmptyString ->
    (phase st = PStart \/ phase st = PInt) ->
    exists m, read_digits (mant st) d = Some m
              /\ frun st d = {| phase := PInt; mant := m;
                                scale := scale st; eneg := eneg st;
                                expo := expo st |}.
Proof.
  induction d as [|c d IH]; intros st Hd Hne Hph; [now contradiction Hne |].
  cbn [all_digits] in Hd. apply andb_true_iff in Hd. destruct Hd as [Hc Hd].
  assert (fstep st c = push_int (digit_val c) st) as Hstep.
  { unfold fstep. destruct Hph as [-> | ->]; rewrite Hc; reflexivity. }
  cbn [frun read_digits]. rewrite Hstep, Hc.
  destruct d as [|c' d'].
  - exists (10 * mant st + digit_val c)%N. split; reflexivity.
  - destruct (IH (push_int (digit_val c) st) Hd) as (m & Hm & Hrun);
      [discriminate | right; reflexivity |].
    exists m. split; [exact Hm | exact Hrun].
Qed.

Lemma float_of_decimal_whole (n : N) :
  float_of_decimal false n 0 = float_of_Z (Z.of_N n).
Proof.
  destruct n as [|p]; [reflexivity |].
  unfold float_of_decimal, float_of_Z, binary_normalize. cbn [Z.leb Z.compare Z.of_N].
  change (Z.to_pos (10 ^ 0)) with 1%positive. now rewrite Pos.mul_1_r.
Qed.

Lemma read_decimal_digits (d : string) (n : N) :
  all_digits d = true -> read_N d = Some n ->
  read_decimal false d = Some (float_of_Z (Z.of_N n)).
Proof.
  intros Hd Hn.
  assert (d <> EmptyString) as Hne by (intros ->; discriminate).
  destruct (frun_digits d fstate0 Hd Hne) as (m & Hm & Hrun);
    [left; reflexivity |].
  assert (m = n) as ->.
  { destruct d; [discriminate |]. unfold read_N in Hn. cbn [fstate0 mant] in Hm.
    congruence. }
  unfold read_decimal. rewrite Hrun. cbn [phase mant].
  unfold exponent. cbn [eneg expo scale fstate0].
  change (Z.of_N 0 - Z.of_N 0)%Z with 0%Z.
  now rewrite float_of_decimal_whole.
Qed.

(** [float] of an unsigned whole numeral is the float of the number the
    numeral denotes, and so is the number a spreadsheet reads from it. *)
Lemma py_float_digits (d : string) (n : N) :
  all_digits d = true -> read_N d = Some n ->
  py_float d = Some (float_of_Z (Z.of_N n)).
Proof.
  intros Hd Hn. unfold py_float.
  rewrite (strip_c_digits d Hd), (drop_underscores_digits d _ Hd).
  unfold read_float. rewrite (split_sign_digits d Hd), (lower_digits d Hd).
  destruct d as [|c d']; [discriminate |].
  pose proof Hd as Hd0. cbn [all_digits] in Hd0.
  apply andb_true_iff in Hd0. destruct Hd0 as [Hc _].
  destruct (digit_is_plain c Hc) as (_ & _ & _ & _ & _ & Hi & Hnn).
  assert (forall k w, Ascii.eqb c k = false ->
                      String.eqb (String c d') (String k w) = false) as Hw.
  { intros k w Hk. cbn [String.eqb]. now rewrite Hk. }
  change "inf" with (String "i" "nf"). change "infinity" with (String "i" "nfinity").
  change "nan" with (String "n" "an").
  rewrite (Hw "i"%char "nf" Hi), (Hw "i"%char "nfinity" Hi), (Hw "n"%char "an" Hnn).
  cbn [orb]. exact (read_decimal_digits _ n Hd Hn).
Qed.

Lemma number_of_text_digits (d : string) (n : N) :
  all_digits d = true -> read_N d = Some n ->
  number_of_text d = Some (float_of_Z (Z.of_N n)).
Proof.
  intros Hd Hn. unfold number_of_text, strip.
  rewrite (lstrip_digits d Hd), (rstrip_digits d Hd), (split_sign_digits d Hd).
  exact (read_decimal_digits d n Hd Hn).
Qed.

Lemma read_N_str_N (n : N) : read_N (str_N n) = Some n.
Proof.
  destruct (str_N_spec n) as (_ & Hne & Hread & _).
  unfold read_N. destruct (str_N n) eqn:E; [now contradiction Hne |].
  rewrite Hread. reflexivity.
Qed.
(** ** Report writer: the area formula *)

(** The text emitted by [get_sqft_formula] is the formula [sqft_expr]. *)
Lemma get_sqft_formula_render (row : item) (n : Z) :
  is_laminate_or_liner (lower (PRODUCT row)) = false ->
  get_sqft_formula row n = "=" ++ render (sqft_expr n).
Proof.
  intros H. unfold get_sqft_formula. rewrite H.
  unfold render, sqft_expr. cbn [render_in].
  change (str_int 1) with "1". change (str_int 2) with "2".
  change (str_int 4) with "4". change (str_int 144) with "144".
  change (column_letter 2) with "B". change (column_letter 5) with "E".
  repeat rewrite append_assoc. simpl. reflexivity.
Qed.

Lemma digit_facts (d : ascii) :
  is_digit d = true -> Ascii.eqb "=" d = false /\ is_x d = false.
Proof.
  destruct d as [[] [] [] [] [] [] [] []]; intros H; try discriminate H;
    split; reflexivity.
Qed.

(** A one-digit numeral is at most 15. *)
Lemma single_digit_small (d : ascii) (l : float) :
  is_digit d = true -> py_float (String d EmptyString) = Some l ->
  fle l (float_of_Z 15) = true.
Proof.
  destruct d as [[] [] [] [] [] [] [] []]; intros Hd H; try discriminate Hd;
    vm_compute in H; injection H as <-; reflexivity.
Qed.

Lemma above_threshold (l b : float) :
  flt (float_of_Z 15) l = true \/ flt (float_of_Z 15) b = true ->
  fle l (float_of_Z 15) && fle b (float_of_Z 15) = false.
Proof.
  intros Hgt. apply andb_false_iff.
  destruct Hgt as [H | H]; [left | right]; apply flt_not_fle, H.
Qed.

(** A finite product or quotient has a finite first operand. *)
Lemma fmul_finite_l (x y : float) :
  is_finite (fmul x y) = true -> is_finite x = true.
Proof.
  destruct x as [sx | sx | | sx mx ex], y as [sy | sy | | sy my ey];
    cbn; congruence.
Qed.

Lemma fdiv_finite_l (x y : float) :
  is_finite (fdiv x y) = true -> is_finite x = true.
Proof.
  destruct x as [sx | sx | | sx mx ex], y as [sy | sy | | sy my ey];
    cbn; congruence.
Qed.

Lemma xl_result_finite (x : float) : is_finite x = true -> xl_result x = Some x.
Proof. unfold xl_result. now intros ->. Qed.

Lemma read_digits_all (d : string) :
  forall a, all_digits d = true -> exists m, read_digits a d = Some m.
Proof.
  induction d as [|c d IH]; intros a H; [now exists a |].
  cbn [all_digits read_digits] in *. apply andb_true_iff in H.
  destruct H as [Hc Hd]. rewrite Hc. apply IH, Hd.
Qed.

(** A whole numeral reads alike in Python and in the spreadsheet. *)
Lemma number_of_text_py_float (d : string) :
  all_digits d = true -> d <> EmptyString -> number_of_text d = py_float d.
Proof.
  intros Hd Hne. destruct (read_digits_all d 0%N Hd) as [n Hn].
  assert (read_N d = Some n) as Hr by (destruct d; [now contradiction Hne | exact Hn]).
  now rewrite (number_of_text_digits d n Hd Hr), (py_float_digits d n Hd Hr).
Qed.

(** What the emitted formula computes from the SIZE text [s] and the
    QUANTITY cell [k] of its row. *)
Lemma eval_sqft_expr (ws : gmap (Z * Z) xl_cell) (n k : Z) (s : string) :
  ws !! (n, 2%Z) = Some (XlStr s) -> startswith "=" s = false ->
  ws !! (n, 5%Z) = Some (XlInt k) ->
  eval ws [] (sqft_expr n)
  = if flt (float_of_Z (Z.of_nat (String.length s))) (float_of_Z 4)
    then times3 (number_of_text (String.substring 0 1 s))
                (number_of_text (String.substring (String.length s - 1) 1 s))
                (Some (float_of_Z k))
    else times3_per_144 (number_of_text (String.substring 0 2 s))
                (number_of_text (String.substring (String.length s - 2) 2 s))
                (Some (float_of_Z k)).
Proof.
  intros HB Heq HE. unfold sqft_expr. cbn [eval].
  rewrite HB, HE. unfold cell_value. rewrite Heq.
  cbn [opt_bind to_text to_number].
  change (to_count (VNum (float_of_Z 1))) with (Some 1%nat).
  change (to_count (VNum (float_of_Z 2))) with (Some 2%nat).
  change (feq (float_of_Z 144) fzero) with false.
  cbn [opt_bind to_number lookup_name String.eqb Ascii.eqb Bool.eqb].
  destruct (flt (float_of_Z (Z.of_nat (String.length s))) (float_of_Z 4));
    cbn [to_bool opt_bind].
  - unfold times3.
    destruct (number_of_text (String.substring 0 1 s)) as [x|];
      cbn [opt_bind]; [| reflexivity].
    destruct (number_of_text (String.substring _ 1 s)) as [y|];
      cbn [opt_bind]; [| reflexivity].
    destruct (xl_result (fmul x y)); reflexivity.
  - unfold times3_per_144.
    destruct (number_of_text (String.substring 0 2 s)) as [x|];
      cbn [opt_bind]; [| reflexivity].
    destruct (number_of_text (String.substring _ 2 s)) as [y|];
      cbn [opt_bind]; [| reflexivity].
    destruct (xl_result (fmul x y)) as [xy|]; cbn [opt_bind option_map to_number];
      [| reflexivity].
    destruct (xl_result (fdiv xy (float_of_Z 144))); reflexivity.
Qed.

Lemma write_data_row_cells (ws : gmap (Z * Z) xl_cell) (row : item)
    (wm : gmap (string * string) cell) (hd md pl pv wp : gmap float_id cell)
    (n z : Z) :
  py_int (QUANTITY row) = Ok z ->
  let ws' := fst (write_data_row ws row wm hd md pl pv wp n) in
  ws' !! (n, 2%Z) = Some (XlStr (SIZE row))
  /\ ws' !! (n, 5%Z) = Some (XlInt z)
  /\ ws' !! (n, 6%Z) = Some (XlStr (get_sqft_formula row n)).
Proof.
  intros Hz. unfold write_data_row. rewrite Hz. cbn [fst]. cbn zeta. repeat split.
  - rewrite !lookup_insert_ne by (intros [=]). apply lookup_insert_eq.
  - rewrite !lookup_insert_ne by (intros [=]). apply lookup_insert_eq.
  - rewrite !lookup_insert_ne by (intros [=]). apply lookup_insert_eq.
Qed.

Lemma is_finite_py_int (x : float) :
  is_finite x = true -> exists z, py_int x = Ok z.
Proof. destruct x; try discriminate; intros _; eexists; reflexivity. Qed.

(** C1, as the code has it.  For a laminate or liner row the SQFT cell is
    the constant "0".  For any other row it holds the LET formula; on a size
    "LxB" whose parts are both one digit, or both two digits with one of
    them above 15, and a whole quantity for which the area is finite, the
    formula evaluated on the row's SIZE and QUANTITY cells gives the area
    [calculate_sqft] computes. *)
Theorem sqft_formula_value
    (ws : gmap (Z * Z) xl_cell) (row : item)
    (wm : gmap (string * string) cell) (hd md pl pv wp : gmap float_id cell)
    (n : Z) :
  is_finite (QUANTITY row) = true ->
  let ws' := fst (write_data_row ws row wm hd md pl pv wp n) in
  (is_laminate_or_liner (lower (PRODUCT row)) = true ->
     ws' !! (n, 6%Z) = Some (XlStr "0") /\ sqft_cell_number ws' n = Some fzero)
  /\ (is_laminate_or_liner (lower (PRODUCT row)) = false ->
      ws' !! (n, 6%Z) = Some (XlStr ("=" ++ render (sqft_expr n)))
      /\ forall (L B : string) (sep : ascii) (l b : float) (k : Z),
           SIZE row = L ++ String sep B -> is_x sep = true ->
           all_digits L = true -> all_digits B = true ->
           py_float L = Some l -> py_float B = Some b ->
           (String.length L = 1%nat /\ String.length B = 1%nat)
           \/ (String.length L = 2%nat /\ String.length B = 2%nat
               /\ (flt (float_of_Z 15) l = true \/ flt (float_of_Z 15) b = true)) ->
           py_int (QUANTITY row) = Ok k -> QUANTITY row = float_of_Z k ->
           is_finite (calculate_sqft (CStr (SIZE row)) (QUANTITY row)) = true ->
           sqft_cell_number ws' n
           = Some (calculate_sqft (CStr (SIZE row)) (QUANTITY row))).
Proof.
  intros Hfin ws'.
  destruct (is_finite_py_int _ Hfin) as [z Hz].
  destruct (write_data_row_cells ws row wm hd md pl pv wp n z Hz) as (HB & HE & HF).
  fold ws' in HB, HE, HF. split.
  - intros Hlam. unfold get_sqft_formula in HF. rewrite Hlam in HF.
    split; [exact HF |]. unfold sqft_cell_number. rewrite HF. reflexivity.
  - intros Hlam. rewrite (get_sqft_formula_render row n Hlam) in HF.
    split; [exact HF |].
    intros L B sep l b k Hsize Hsep HdL HdB HL HB' Hshape Hk Hq Hres.
    assert (z = k) as -> by congruence.
    unfold sqft_cell_number. rewrite HF, String.eqb_refl.
    rewrite Hsize, (calculate_sqft_parts L B sep l b _ Hsep HL HB') in Hres |- *.
    rewrite Hsize in HB.
    destruct Hshape as [[H1 H2] | (H1 & H2 & Hgt)].
    + destruct L as [|d1 [|? ?]]; try discriminate H1.
      destruct B as [|d2 [|? ?]]; try discriminate H2.
      pose proof HdL as HdL'. pose proof HdB as HdB'.
      cbn [all_digits] in HdL', HdB'.
      rewrite andb_true_r in HdL', HdB'.
      rewrite (eval_sqft_expr ws' n k _ HB
                 ltac:(cbn [String.append startswith];
                       now rewrite (proj1 (digit_facts d1 HdL'))) HE).
      cbn [String.append String.length Nat.sub String.substring].
      change (flt (float_of_Z (Z.of_nat 3)) (float_of_Z 4)) with true. cbn iota.
      rewrite !number_of_text_py_float by (assumption || discriminate).
      rewrite HL, HB'.
      rewrite (single_digit_small d1 l HdL' HL), (single_digit_small d2 b HdB' HB')
        in Hres |- *.
      cbn [andb] in Hres |- *. rewrite Hq in Hres |- *.
      unfold times3. cbn [opt_bind].
      rewrite (xl_result_finite _ (fmul_finite_l _ _ Hres)). cbn [opt_bind].
      rewrite (xl_result_finite _ Hres). reflexivity.
    + destruct L as [|d1 [|d1' [|? ?]]]; try discriminate H1.
      destruct B as [|d2 [|d2' [|? ?]]]; try discriminate H2.
      pose proof HdL as HdL'. cbn [all_digits] in HdL'.
      apply andb_true_iff in HdL'. destruct HdL' as [HdL' _].
      rewrite (eval_sqft_expr ws' n k _ HB
                 ltac:(cbn [String.append startswith];
                       now rewrite (proj1 (digit_facts d1 HdL'))) HE).
      cbn [String.append String.length Nat.sub String.substring].
      change (flt (float_of_Z (Z.of_nat 5)) (float_of_Z 4)) with false. cbn iota.
      rewrite !number_of_text_py_float by (assumption || discriminate).
      rewrite HL, HB'.
      rewrite (above_threshold l b Hgt) in Hres |- *. rewrite Hq in Hres |- *.
      unfold times3_per_144. cbn [opt_bind].
      pose proof (fmul_finite_l _ _ Hres) as Hdiv.
      rewrite (xl_result_finite _ (fdiv_finite_l _ _ Hdiv)). cbn [opt_bind].
      rewrite (xl_result_finite _ Hdiv). cbn [opt_bind].
      rewrite (xl_result_finite _ Hres). reflexivity.
Qed.

Lemma sqft_formula_value_witness :
  sqft_cell_number
    (fst (write_data_row ∅ (sample_row "Door" "8x4" (float_of_Z 3))
            ∅ ∅ ∅ ∅ ∅ ∅ 12)) 12
  = Some (calculate_sqft (CStr "8x4") (float_of_Z 3))
  /\ sqft_cell_number
       (fst (write_data_row ∅ (sample_row "Door" "72X48" (float_of_Z 3))
               ∅ ∅ ∅ ∅ ∅ ∅ 12)) 12
     = Some (calculate_sqft (CStr "72X48") (float_of_Z 3))
  /\ sqft_cell_number
       (fst (write_data_row ∅ (sample_row "Laminate" "72x48" (float_of_Z 10))
               ∅ ∅ ∅ ∅ ∅ ∅ 12)) 12
     = Some fzero.
Proof.
  split; [| split].
  - apply (proj2 (proj2 (sqft_formula_value ∅ (sample_row "Door" "8x4" (float_of_Z 3))
                           ∅ ∅ ∅ ∅ ∅ ∅ 12 eq_refl) eq_refl)
             "8" "4" "x"%char (float_of_Z 8) (float_of_Z 4) 3%Z); try reflexivity.
    left. split; reflexivity.
  - apply (proj2 (proj2 (sqft_formula_value ∅ (sample_row "Door" "72X48" (float_of_Z 3))
                           ∅ ∅ ∅ ∅ ∅ ∅ 12 eq_refl) eq_refl)
             "72" "48" "X"%char (float_of_Z 72) (float_of_Z 48) 3%Z); try reflexivity.
    right. repeat split. left. reflexivity.
  - apply (proj1 (sqft_formula_value ∅ (sample_row "Laminate" "72x48" (float_of_Z 10))
                    ∅ ∅ ∅ ∅ ∅ ∅ 12 eq_refl) eq_refl).
Defined.

(** C1 as stated fails in three ways: a laminate row shows 0 whatever its
    area; two-digit dimensions that are both at most 15 are divided by 144
    in the formula only; and the formula multiplies by the truncated
    quantity. *)
Lemma sqft_formula_differs :
  (exists v, sqft_cell_number
               (fst (write_data_row ∅ (sample_row "Laminate" "72x48" (float_of_Z 10))
                       ∅ ∅ ∅ ∅ ∅ ∅ 12)) 12 = Some v
             /\ feq v (calculate_sqft (CStr "72x48") (float_of_Z 10)) = false)
  /\ (exists v, sqft_cell_number
               (fst (write_data_row ∅ (sample_row "Door" "10x12" (float_of_Z 2))
                       ∅ ∅ ∅ ∅ ∅ ∅ 12)) 12 = Some v
             /\ feq v (calculate_sqft (CStr "10x12") (float_of_Z 2)) = false)
  /\ (exists v, sqft_cell_number
               (fst (write_data_row ∅
                       (sample_row "Door" "8x4" (float_of_decimal false 25 (-1)))
                       ∅ ∅ ∅ ∅ ∅ ∅ 12)) 12 = Some v
             /\ feq v (calculate_sqft (CStr "8x4") (float_of_decimal false 25 (-1)))
                = false).
Proof.
  split; [| split]; eexists; (split; [vm_compute; reflexivity | vm_compute; reflexivity]).
Qed.

(** ** Order-ID sequencer *)

Lemma substring_all (s : string) : String.substring 0 (String.length s) s = s.
Proof. induction s as [|c s IH]; simpl; [reflexivity | now f_equal]. Qed.

Lemma substring_prefix (a b : string) :
  String.substring 0 (String.length a) (a ++ b) = a.
Proof.
  induction a as [|c a IH]; simpl; [now destruct b | now f_equal].
Qed.

Lemma substring_suffix (a b : string) :
  String.substring (String.length a) (String.length b) (a ++ b) = b.
Proof.
  induction a as [|c a IH]; simpl; [apply substring_all | exact IH].
Qed.

Lemma strftime_m_y_length (now : datetime) :
  valid_month now -> String.length (strftime_m_y now) = 5%nat.
Proof.
  intros Hm. unfold valid_month in Hm. unfold strftime_m_y.
  rewrite !append_length.
  rewrite (zfill_width 2 (dt_month now)) by (cbn; lia).
  rewrite (zfill_width 2 (dt_year now mod 100)).
  - reflexivity.
  - lia.
  - pose proof (Z.mod_pos_bound (dt_year now) 100 ltac:(lia)). cbn. lia.
Qed.

Lemma new_counter_default (o : option Z) :
  match o with Some c => (c + 1)%Z | None => 1%Z end = (default 0%Z o + 1)%Z.
Proof. destruct o; reflexivity. Qed.

(** The identifier returned by the call number [i] of a run: its counter is
    the stored counter of its month, plus one per earlier call of the run
    in that month, plus one. *)
Lemma issue_ids_nth (clock : list datetime) :
  forall (db : gmap string Z) (i : nat) (now : datetime),
    nth_error clock i = Some now ->
    nth_error (fst (issue_ids clock (Some db))) i
    = Some (strftime_m_y now ++ "-"
            ++ zfill 5 (str_int (default 0%Z (db !! strftime_m_y now) + 1
                                 + calls_in_month now (firstn i clock)))).
Proof.
  induction clock as [|t later IH]; intros db i now Hi.
  - destruct i; discriminate.
  - cbn [issue_ids generate_unique_order_id].
    rewrite new_counter_default.
    destruct (issue_ids later _) as [ids db2] eqn:E. cbn [fst].
    destruct i as [|i].
    + cbn in Hi. injection Hi as ->. cbn [nth_error firstn].
      change (calls_in_month now []) with 0%Z. now rewrite Z.add_0_r.
    + cbn [nth_error] in Hi |- *.
      specialize (IH (<[strftime_m_y t := (default 0%Z (db !! strftime_m_y t) + 1)%Z]> db)
                     i now Hi).
      rewrite E in IH. cbn [fst] in IH. rewrite IH.
      apply (f_equal (fun z => Some (strftime_m_y now ++ "-" ++ zfill 5 (str_int z)))).
      unfold calls_in_month. cbn [firstn List.filter].
      destruct (String.eqb_spec (strftime_m_y t) (strftime_m_y now)) as [Heq | Hne].
      * rewrite Heq, lookup_insert_eq. cbn [List.length default]. unfold id. lia.
      * rewrite lookup_insert_ne by exact Hne. reflexivity.
Qed.

Lemma calls_in_month_first (clock : list datetime) (now : datetime) :
  forall i,
    (forall j t, (j < i)%nat -> nth_error clock j = Some t ->
                 strftime_m_y t <> strftime_m_y now) ->
    calls_in_month now (firstn i clock) = 0%Z.
Proof.
  unfold calls_in_month.
  induction clock as [|t later IH]; intros [|i] H; try reflexivity.
  cbn [firstn List.filter].
  destruct (String.eqb_spec (strftime_m_y t) (strftime_m_y now)) as [Heq | Hne].
  - exfalso. apply (H O t); [lia | reflexivity | exact Heq].
  - apply IH. intros j t' Hj Ht'. apply (H (S j) t'); [lia | exact Ht'].
Qed.

Lemma calls_in_month_later (clock : list datetime) (now : datetime) :
  forall i j,
    (i < j)%nat -> nth_error clock i = Some now ->
    (calls_in_month now (firstn i clock) < calls_in_month now (firstn j clock))%Z.
Proof.
  unfold calls_in_month.
  induction clock as [|t later IH]; intros i j Hij Hi.
  - destruct i; discriminate.
  - destruct j as [|j]; [lia |]. destruct i as [|i].
    + cbn in Hi. injection Hi as ->.
      cbn [firstn List.filter]. rewrite String.eqb_refl. cbn [List.length]. lia.
    + cbn [nth_error] in Hi. cbn [firstn List.filter].
      specialize (IH i j ltac:(lia) Hi).
      destruct (String.eqb (strftime_m_y t) (strftime_m_y now)); cbn [List.length]; lia.
Qed.

(** X31.  In a run of calls on a fresh counter table, the call made at a
    reading [now] with a valid month returns "MM-YY-" followed by its
    counter, which is one more than the number of earlier calls with the
    same month key: 1 on the first call of a month key, and strictly larger
    on every later call of that key.  The suffix is the counter in decimal,
    zero-padded: five digits while the counter is at most 99999, and more
    than five beyond. *)
Theorem order_ids_count_calls (clock : list datetime) (i : nat) (now : datetime) :
  valid_month now ->
  nth_error clock i = Some now ->
  let c := (1 + calls_in_month now (firstn i clock))%Z in
  (exists id,
     nth_error (fst (issue_ids clock (Some ∅))) i = Some id
     /\ id = strftime_m_y now ++ "-" ++ zfill 5 (str_int c)
     /\ String.length (strftime_m_y now) = 5%nat
     /\ id_prefix id = strftime_m_y now
     /\ all_digits (id_suffix id) = true
     /\ read_N (id_suffix id) = Some (Z.to_N c)
     /\ ((c <= 99999)%Z -> String.length (id_suffix id) = 5%nat)
     /\ ((99999 < c)%Z -> (5 < String.length (id_suffix id))%nat))
  /\ ((forall j t, (j < i)%nat -> nth_error clock j = Some t ->
                   strftime_m_y t <> strftime_m_y now) -> c = 1%Z)
  /\ (forall j t, (i < j)%nat -> nth_error clock j = Some t ->
                  strftime_m_y t = strftime_m_y now ->
                  (c < 1 + calls_in_month t (firstn j clock))%Z).
Proof.
  intros Hm Hi c.
  assert (Hc : (0 <= c)%Z) by (unfold c, calls_in_month; lia).
  split; [| split].
  - exists (strftime_m_y now ++ "-" ++ zfill 5 (str_int c)).
    pose proof (strftime_m_y_length now Hm) as Hlen.
    destruct (zfill_str_int 5 c Hc) as (_ & Hall & Hread & Hl).
    assert (Hpre : id_prefix (strftime_m_y now ++ "-" ++ zfill 5 (str_int c))
                   = strftime_m_y now).
    { unfold id_prefix. rewrite <- Hlen. apply substring_prefix. }
    assert (Hsuf : id_suffix (strftime_m_y now ++ "-" ++ zfill 5 (str_int c))
                   = zfill 5 (str_int c)).
    { unfold id_suffix. rewrite <- append_assoc.
      replace 6%nat with (String.length (strftime_m_y now ++ "-"))
        by (rewrite append_length, Hlen; reflexivity).
      rewrite (append_length (strftime_m_y now ++ "-")).
      replace (String.length (strftime_m_y now ++ "-")
               + String.length (zfill 5 (str_int c))
               - String.length (strftime_m_y now ++ "-"))%nat
        with (String.length (zfill 5 (str_int c))) by lia.
      apply substring_suffix. }
    rewrite Hpre, Hsuf.
    split.
    { rewrite (issue_ids_nth clock ∅ i now Hi), lookup_empty. reflexivity. }
    repeat split; auto.
    + intros Hsmall. rewrite Hl.
      pose proof (str_N_short (Z.to_N c) 5 ltac:(lia)) as H.
      assert (Z.to_N c < 10 ^ N.of_nat 5)%N by (cbn; lia).
      specialize (H H0). lia.
    + intros Hbig. rewrite Hl.
      pose proof (str_N_long (Z.to_N c) 5) as H.
      assert (10 ^ N.of_nat 5 <= Z.to_N c)%N by (cbn; lia).
      specialize (H H0). lia.
  - intros Hfirst. unfold c.
    rewrite (calls_in_month_first clock now i Hfirst). reflexivity.
  - intros j t Hij Hj Hkey. unfold c.
    pose proof (calls_in_month_later clock now i j Hij Hi) as H.
    unfold calls_in_month in *. rewrite Hkey. lia.
Qed.

Lemma order_ids_count_calls_witness :
  nth_error (fst (issue_ids sample_clock (Some ∅))) 1 = Some "03-26-00002"
  /\ nth_error (fst (issue_ids sample_clock (Some ∅))) 2 = Some "04-26-00001"
  /\ read_N (id_suffix "03-26-00002") = Some 2%N
  /\ String.length (id_suffix "03-26-00002") = 5%nat.
Proof.
  assert (Hm : valid_month march_2026) by (unfold valid_month; cbn; lia).
  assert (Ha : valid_month april_2026) by (unfold valid_month; cbn; lia).
  destruct (order_ids_count_calls sample_clock 1 march_2026 Hm eq_refl)
    as [(id & Hnth & Hid & _ & _ & _ & Hread & Hlen & _) _].
  destruct (order_ids_count_calls sample_clock 2 april_2026 Ha eq_refl)
    as [(id' & Hnth' & Hid' & _) _].
  vm_compute in Hid. vm_compute in Hid'. subst id id'.
  split; [exact Hnth |]. split; [exact Hnth' |].
  split; [exact Hread |]. apply Hlen. vm_compute. discriminate.
Defined.

Lemma calls_in_month_repeat (now : datetime) :
  forall i n, (i <= n)%nat ->
    calls_in_month now (firstn i (repeat now n)) = Z.of_nat i.
Proof.
  unfold calls_in_month.
  induction i as [|i IH]; intros [|n] H; try reflexivity; try lia.
  cbn [repeat firstn List.filter]. rewrite String.eqb_refl. cbn [List.length].
  specialize (IH n ltac:(lia)). lia.
Qed.

(** C4 at a failing input: the call number 100000 of a month, the counter
    of that month standing at 99999.  The identifier returned is
    "11-26-100000", whose suffix has six digits, against the format
    MM-YY-NNNNN that the docstring of the function states. *)
Theorem order_id_suffix_six_digits :
  nth_error (fst (issue_ids busy_month (Some ∅))) (N.to_nat 99999)
    = Some "11-26-100000"
  /\ fst (generate_unique_order_id november_2026 (Some {[ "11-26" := 99999%Z ]}))
    = "11-26-100000"
  /\ id_suffix "11-26-100000" = "100000"
  /\ String.length (id_suffix "11-26-100000") <> 5%nat.
Proof.
  split; [| split; [| split]].
  - unfold busy_month.
    rewrite (issue_ids_nth _ ∅ (N.to_nat 99999) november_2026).
    + rewrite calls_in_month_repeat by lia. vm_compute. reflexivity.
    + apply nth_error_repeat. lia.
  - vm_compute. reflexivity.
  - reflexivity.
  - discriminate.
Qed.

(* ===================================================================== *)
(** * Further properties of the calculator and the normalizer *)
(* ===================================================================== *)

(** ** Area computation: malformed sizes *)

Lemma upper_char_is_x (c : ascii) : Ascii.eqb "X" (upper_char c) = is_x c.
Proof.
  destruct c as [[] [] [] [] [] [] [] []]; reflexivity.
Qed.

(** The membership test ['X' in size.upper()] is the presence of a
    separator. *)
Lemma contains_X_has_char (s : string) : contains "X" (upper s) = has_char is_x s.
Proof.
  induction s as [|c s IH]; [reflexivity |].
  change (upper (String c s)) with (String (upper_char c) (upper s)).
  cbn [contains startswith has_char]. rewrite IH, upper_char_is_x, andb_true_r.
  reflexivity.
Qed.

(** X1.  calculate_sqft returns 0 for every size it cannot read: a size
    that is not text, text without the separator x or X, text that the
    separator cuts into a number of parts other than two, and text with a
    part that float() rejects. *)
Theorem calculate_sqft_malformed (size : cell) (qty : float) :
  (forall s, size = CStr s ->
     has_char is_x s = false
     \/ List.length (split_on is_x s) <> 2%nat
     \/ exists part, In part (split_on is_x s) /\ py_float part = None) ->
  calculate_sqft size qty = fzero.
Proof.
  intros H. destruct size as [| s | q r]; try reflexivity.
  specialize (H s eq_refl). unfold calculate_sqft.
  rewrite contains_X_has_char.
  destruct (has_char is_x s) eqn:Hx; [| reflexivity]. cbn [negb].
  destruct H as [H | [H | (part & Hin & Hnone)]]; [discriminate | |].
  - destruct (split_on is_x s) as [|p0 [|p1 [|p2 ps]]]; try reflexivity.
    now contradiction H.
  - destruct (split_on is_x s) as [|p0 [|p1 [|p2 ps]]]; try reflexivity.
    destruct Hin as [<- | [<- | []]]; rewrite Hnone; [reflexivity |].
    destruct (py_float p0); reflexivity.
Qed.

Lemma calculate_sqft_malformed_witness :
  calculate_sqft (CStr "8x4x2") (float_of_Z 5) = fzero
  /\ calculate_sqft (CStr "8 by 4") (float_of_Z 5) = fzero
  /\ calculate_sqft (CStr "8xfour") (float_of_Z 5) = fzero
  /\ calculate_sqft (num "32") (float_of_Z 5) = fzero.
Proof.
  split; [| split; [| split]]; apply calculate_sqft_malformed; intros s E;
    try discriminate; injection E as <-.
  - right; left. vm_compute. lia.
  - left. reflexivity.
  - right; right. exists "four". split; [vm_compute; auto | reflexivity].
Defined.

(** ** Category normalizer: the order of its tests *)

Lemma upper_app (a b : string) : upper (a ++ b) = upper a ++ upper b.
Proof.
  induction a as [|c a IH]; [reflexivity |].
  change (String (upper_char c) (upper (a ++ b))
          = String (upper_char c) (upper a ++ upper b)).
  now f_equal.
Qed.

Lemma startswith_app (p s : string) : startswith p (p ++ s) = true.
Proof.
  induction p as [|c p IH]; [reflexivity |].
  cbn [String.append startswith]. now rewrite Ascii.eqb_refl, IH.
Qed.

Lemma contains_app (sub a b : string) : contains sub (a ++ sub ++ b) = true.
Proof.
  induction a as [|c a IH].
  - cbn [String.append]. destruct (sub ++ b) eqn:E; cbn [contains];
      rewrite <- E, startswith_app; reflexivity.
  - cbn [String.append contains]. rewrite IH. apply orb_true_r.
Qed.

(** X3.  A raw category that contains the letters TEX, in any mix of upper
    and lower case and at any position, is normalized to "TEX CATEGORY":
    the test comes before the product check and before the mapping table is
    read, so it holds for every product and every table, well formed or
    not. *)
Theorem normalize_category_tex (before tex after : string)
    (cat_map_df : frame) (product : cell) :
  upper tex = "TEX" ->
  normalize_category (CStr (before ++ tex ++ after)) cat_map_df product
  = Ok TEX_CATEGORY.
Proof.
  intros Htex. unfold normalize_category. cbn [isna py_str].
  rewrite !upper_app, Htex, contains_app. reflexivity.
Qed.

Lemma normalize_category_tex_witness :
  normalize_category (CStr "Premium Tex 1mm") malformed_cat_map (CStr "Door")
  = Ok TEX_CATEGORY.
Proof.
  apply (normalize_category_tex "Premium " "Tex" " 1mm"). reflexivity.
Defined.

Lemma scan_rules_first_hit (cat_map_df : frame) (raw_cat : string) (target : cell)
    (pre post : list (list cell)) (row : list cell) :
  has_column cat_map_df "NORMALIZED CATEGORY" = true ->
  Forall (fun r => rule_hits cat_map_df raw_cat r = false) pre ->
  rule_hits cat_map_df raw_cat row = true ->
  getitem cat_map_df row "NORMALIZED CATEGORY" = Ok target ->
  scan_rules cat_map_df (pre ++ row :: post) raw_cat = Ok (Some target).
Proof.
  intros Hn Hpre Hrow Htarget.
  assert (exists i, col_index "MATCH KEYWORD" (columns cat_map_df) = Some i)
    as [i Hi].
  { unfold rule_hits, getitem in Hrow.
    destruct (col_index "MATCH KEYWORD" (columns cat_map_df)); [eauto | discriminate]. }
  assert (exists j, col_index "NORMALIZED CATEGORY" (columns cat_map_df) = Some j)
    as [j Hj].
  { unfold has_column in Hn.
    destruct (col_index "NORMALIZED CATEGORY" (columns cat_map_df));
      [eauto | discriminate]. }
  induction Hpre as [|r pre Hr _ IH].
  - cbn [app scan_rules]. rewrite Htarget.
    unfold rule_hits in Hrow. unfold getitem in *. rewrite Hi in *. cbn [bind].
    apply andb_true_iff in Hrow. destruct Hrow as [Hstar Hhit].
    apply negb_true_iff in Hstar. rewrite Hstar, Hhit. reflexivity.
  - cbn [app scan_rules]. unfold rule_hits, getitem in Hr. rewrite Hi in Hr.
    unfold getitem at 1 2. rewrite Hi, Hj. cbn [bind].
    destruct (String.eqb (upper (py_str (nth i r CNaN))) "*"); [exact IH |].
    cbn [negb andb] in Hr. rewrite Hr. exact IH.
Qed.

(** X4.  The mapping rules are tried in file order and the first rule that
    matches decides: for a laminate or liner product and a raw category
    without TEX, if no row before a given row matches and that row does,
    the result is that row's NORMALIZED CATEGORY cell, whatever the rows
    after it contain (later matching rules and wildcard entries have no
    effect). *)
Theorem normalize_category_first_match (raw product target : cell)
    (cat_map_df : frame) (pre post : list (list cell)) (row : list cell) :
  isna raw = false ->
  contains "TEX" (upper (py_str raw)) = false ->
  is_laminate_or_liner (lower (py_str product)) = true ->
  rows cat_map_df = (pre ++ row :: post)%list ->
  Forall (fun r => rule_hits cat_map_df (upper (py_str raw)) r = false) pre ->
  rule_hits cat_map_df (upper (py_str raw)) row = true ->
  getitem cat_map_df row "NORMALIZED CATEGORY" = Ok target ->
  normalize_category raw cat_map_df product = Ok target.
Proof.
  intros Hna Htex Hprod Hrows Hpre Hrow Htarget.
  unfold normalize_category. rewrite Hna, Htex, Hprod, Hrows.
  rewrite (scan_rules_first_hit cat_map_df _ target pre post row); auto.
  unfold has_column. unfold getitem in Htarget.
  destruct (col_index "NORMALIZED CATEGORY" (columns cat_map_df));
    [reflexivity | discriminate].
Qed.

Lemma normalize_category_first_match_witness :
  normalize_category (CStr "High Gloss") layered_cat_map (CStr "Liner") = Ok HG.
Proof.
  apply (normalize_category_first_match _ _ _ layered_cat_map
           [[CStr "suede"; CStr "SF"]; [CStr "*"; CStr "OTHER"]]
           [[CStr "gloss"; CStr "GL"]; [CStr "*"; CStr "LAST"]]
           [CStr "gloss + high"; CStr "HG"]);
    try reflexivity.
  repeat constructor.
Defined.

Lemma wildcard_targets_first (cat_map_df : frame) (target : cell)
    (pre post : list (list cell)) (row : list cell) :
  rows cat_map_df = (pre ++ row :: post)%list ->
  Forall (fun r => is_wildcard_row cat_map_df r = false) pre ->
  is_wildcard_row cat_map_df row = true ->
  getitem cat_map_df row "NORMALIZED CATEGORY" = Ok target ->
  exists others, wildcard_targets cat_map_df = Ok (target :: others).
Proof.
  intros Hrows Hpre Hrow Htarget.
  unfold wildcard_targets, column. unfold is_wildcard_row, getitem in *.
  destruct (col_index "MATCH KEYWORD" (columns cat_map_df)) as [i|];
    [| discriminate].
  destruct (col_index "NORMALIZED CATEGORY" (columns cat_map_df)) as [j|];
    [| discriminate].
  injection Htarget as <-. cbn [bind]. rewrite Hrows. clear Hrows.
  induction Hpre as [|r pre Hr _ IH].
  - cbn [app map combine List.filter fst]. rewrite Hrow. cbn [map snd]. eauto.
  - cbn [app map combine List.filter fst]. rewrite Hr. exact IH.
Qed.

(** X5.  When no rule matches, the first wildcard entry of the table is the
    default: for a laminate or liner product and a raw category without
    TEX, if no row of the table matches, the result is the NORMALIZED
    CATEGORY cell of the first row whose keyword is "*"; later wildcard
    entries are ignored. *)
Theorem normalize_category_wildcard (raw product target : cell)
    (cat_map_df : frame) (pre post : list (list cell)) (row : list cell) :
  isna raw = false ->
  contains "TEX" (upper (py_str raw)) = false ->
  is_laminate_or_liner (lower (py_str product)) = true ->
  Forall (fun r => rule_hits cat_map_df (upper (py_str raw)) r = false)
         (rows cat_map_df) ->
  rows cat_map_df = (pre ++ row :: post)%list ->
  Forall (fun r => is_wildcard_row cat_map_df r = false) pre ->
  is_wildcard_row cat_map_df row = true ->
  getitem cat_map_df row "NORMALIZED CATEGORY" = Ok target ->
  normalize_category raw cat_map_df product = Ok target.
Proof.
  intros Hna Htex Hprod Hmiss Hrows Hpre Hrow Htarget.
  destruct (wildcard_targets_first cat_map_df target pre post row
              Hrows Hpre Hrow Htarget) as [others Hw].
  assert (exists i, col_index "MATCH KEYWORD" (columns cat_map_df) = Some i)
    as [i Hi].
  { unfold is_wildcard_row, getitem in Hrow.
    destruct (col_index "MATCH KEYWORD" (columns cat_map_df)); [eauto | discriminate]. }
  assert (exists j, col_index "NORMALIZED CATEGORY" (columns cat_map_df) = Some j)
    as [j Hj].
  { unfold getitem in Htarget.
    destruct (col_index "NORMALIZED CATEGORY" (columns cat_map_df));
      [eauto | discriminate]. }
  unfold normalize_category. rewrite Hna, Htex, Hprod.
  rewrite (scan_rules_none cat_map_df _ i j (rows cat_map_df) Hi Hj Hmiss).
  cbn [bind]. rewrite Hw. reflexivity.
Qed.

Lemma normalize_category_wildcard_witness :
  normalize_category (CStr "Plain") layered_cat_map (CStr "laminate")
  = Ok (CStr "OTHER").
Proof.
  apply (normalize_category_wildcard _ _ _ layered_cat_map
           [[CStr "suede"; CStr "SF"]]
           [[CStr "gloss + high"; CStr "HG"]; [CStr "gloss"; CStr "GL"];
            [CStr "*"; CStr "LAST"]]
           [CStr "*"; CStr "OTHER"]);
    try reflexivity; repeat constructor.
Defined.

Lemma scan_rules_ok (cat_map_df : frame) (raw_cat : string) (i j : nat)
    (rs : list (list cell)) :
  col_index "MATCH KEYWORD" (columns cat_map_df) = Some i ->
  col_index "NORMALIZED CATEGORY" (columns cat_map_df) = Some j ->
  is_ok (scan_rules cat_map_df rs raw_cat) = true.
Proof.
  intros Hi Hj. induction rs as [|r rs IH]; [reflexivity |].
  cbn [scan_rules]. unfold getitem. rewrite Hi, Hj. cbn [bind].
  destruct (String.eqb _ "*"); [exact IH |].
  destruct (keyword_hits _ raw_cat); [reflexivity | exact IH].
Qed.

(** X6.  With a mapping table that has both of its columns,
    normalize_category never raises: it returns a value for every raw
    category and every product. *)
Theorem normalize_category_total (raw product : cell) (cat_map_df : frame) :
  has_column cat_map_df "MATCH KEYWORD" = true ->
  has_column cat_map_df "NORMALIZED CATEGORY" = true ->
  is_ok (normalize_category raw cat_map_df product) = true.
Proof.
  unfold has_column. intros Hk Hn.
  destruct (col_index "MATCH KEYWORD" (columns cat_map_df)) as [i|] eqn:Hi;
    [| discriminate].
  destruct (col_index "NORMALIZED CATEGORY" (columns cat_map_df)) as [j|] eqn:Hj;
    [| discriminate].
  unfold normalize_category.
  destruct (isna raw); [reflexivity |].
  destruct (contains "TEX" _); [reflexivity |].
  destruct (is_laminate_or_liner _); [| reflexivity].
  pose proof (scan_rules_ok cat_map_df (upper (py_str raw)) i j
                (rows cat_map_df) Hi Hj) as Hscan.
  destruct (scan_rules cat_map_df (rows cat_map_df) (upper (py_str raw)))
    as [[t|]|]; [reflexivity | | discriminate].
  cbn [bind]. unfold wildcard_targets, column. rewrite Hi, Hj. cbn [bind].
  destruct (map snd _); reflexivity.
Qed.

Lemma normalize_category_total_witness :
  is_ok (normalize_category (num "7") layered_cat_map (CStr "Liner")) = true.
Proof.
  apply normalize_category_total; reflexivity.
Defined.

(** X7.  With a mapping table that lacks the MATCH KEYWORD or the
    NORMALIZED CATEGORY column, normalize_category raises KeyError for
    every laminate or liner row whose raw category is present and has no
    TEX, even when the table has no rows. *)
Theorem normalize_category_key_error (raw product : cell) (cat_map_df : frame) :
  isna raw = false ->
  contains "TEX" (upper (py_str raw)) = false ->
  is_laminate_or_liner (lower (py_str product)) = true ->
  has_column cat_map_df "MATCH KEYWORD"
  && has_column cat_map_df "NORMALIZED CATEGORY" = false ->
  normalize_category raw cat_map_df product = Raise KeyError.
Proof.
  intros Hna Htex Hprod Hcols.
  unfold normalize_category. rewrite Hna, Htex, Hprod.
  unfold has_column in Hcols.
  destruct (rows cat_map_df) as [|r rs].
  - cbn [scan_rules bind]. unfold wildcard_targets, column.
    destruct (col_index "MATCH KEYWORD" (columns cat_map_df)); [| reflexivity].
    destruct (col_index "NORMALIZED CATEGORY" (columns cat_map_df));
      [discriminate | reflexivity].
  - cbn [scan_rules]. unfold getitem.
    destruct (col_index "MATCH KEYWORD" (columns cat_map_df)); [| reflexivity].
    destruct (col_index "NORMALIZED CATEGORY" (columns cat_map_df));
      [discriminate | reflexivity].
Qed.

Lemma normalize_category_key_error_witness :
  normalize_category (CStr "Matt") malformed_cat_map (CStr "Laminate")
  = Raise KeyError.
Proof.
  apply normalize_category_key_error; reflexivity.
Defined.

(** ** Thickness read from the category text *)

Lemma lower_app (a b : string) : lower (a ++ b) = lower a ++ lower b.
Proof.
  induction a as [|c a IH]; [reflexivity |].
  change (String (lower_char c) (lower (a ++ b))
          = String (lower_char c) (lower a ++ lower b)).
  now f_equal.
Qed.

Lemma span_digits (d rest : string) :
  all_digits d = true ->
  match rest with String c _ => is_digit c = false | EmptyString => True end ->
  span is_digit (d ++ rest) = (d, rest).
Proof.
  intros Hd Hrest. induction d as [|c d IH].
  - cbn [String.append]. destruct rest as [|c r]; [reflexivity |].
    cbn [span]. now rewrite Hrest.
  - cbn [all_digits] in Hd. apply andb_true_iff in Hd. destruct Hd as [Hc Hd].
    cbn [String.append span]. rewrite Hc, (IH Hd). reflexivity.
Qed.

(** X8.  A category text that starts with a whole number directly followed
    by the letters mm, in either letter case, yields that number as
    thickness, whatever follows: extract_thickness_from_category of
    "<n>mm<rest>" is the float of n. *)
Theorem extract_thickness_whole_mm (n : N) (mm rest : string) :
  lower mm = "mm" ->
  extract_thickness_from_category (str_N n ++ mm ++ rest)
  = Some (float_of_Z (Z.of_N n)).
Proof.
  intros Hmm.
  destruct (str_N_spec n) as (Hd & Hne & _).
  pose proof (py_float_digits (str_N n) n Hd (read_N_str_N n)) as Hq.
  unfold extract_thickness_from_category.
  rewrite !lower_app, (lower_digits _ Hd), Hmm.
  change ("mm" ++ lower rest) with (String "m" (String "m" (lower rest))).
  rewrite (span_digits (str_N n)); [| exact Hd | reflexivity].
  destruct (str_N n) as [|c d] eqn:E; [now contradiction Hne |].
  cbn [span]. change (is_digit "m") with false.
  change (startswith "mm" (String "m" (String "m" (lower rest)))) with true.
  cbn iota. change (EmptyString ++ EmptyString) with EmptyString.
  rewrite append_nil_r. exact Hq.
Qed.

Lemma extract_thickness_whole_mm_witness :
  extract_thickness_from_category "18MM Plain" = Some (float_of_Z 18).
Proof.
  exact (extract_thickness_whole_mm 18 "MM" " Plain" eq_refl).
Defined.

(** X9.  A category text that does not begin with a digit has no
    thickness: the pattern is anchored at the first character, so leading
    blanks or words make extract_thickness_from_category return None, and a
    row of a thickness-weighted product (hdmr, mdf, ply, pvc door, wpc
    board) with such a category gets the weight formula "0" whatever the
    weight tables hold. *)
Theorem weight_without_leading_digit (row : item)
    (wm : gmap (string * string) cell) (hd md pl pv wp : gmap float_id cell)
    (m : gmap float_id cell) (n : Z) :
  thickness_maps hd md pl pv wp (lower (PRODUCT row)) = Some m ->
  match CATEGORY row with
  | String c _ => is_digit c = false
  | EmptyString => True
  end ->
  extract_thickness_from_category (CATEGORY row) = None
  /\ get_weight_formula row wm hd md pl pv wp n = "0".
Proof.
  intros Hm Hfirst.
  assert (forall s, match s with
                    | String c _ => is_digit c = false
                    | EmptyString => True
                    end -> extract_thickness_from_category s = None) as Hnone.
  { intros [|c s] H; [reflexivity |].
    unfold extract_thickness_from_category.
    change (lower (String c s)) with (String (lower_char c) (lower s)).
    cbn [span].
    assert (is_digit (lower_char c) = false) as ->; [| reflexivity].
    revert H. destruct c as [[] [] [] [] [] [] [] []]; intros H;
      try discriminate H; reflexivity. }
  split; [apply Hnone, Hfirst |].
  assert (extract_thickness_from_category (lower (CATEGORY row)) = None) as Hlow.
  { apply Hnone. destruct (CATEGORY row) as [|c s]; [exact I |].
    change (lower (String c s)) with (String (lower_char c) (lower s)).
    revert Hfirst. destruct c as [[] [] [] [] [] [] [] []]; intros H;
      try discriminate H; reflexivity. }
  unfold get_weight_formula. rewrite Hm, Hlow.
  unfold thickness_maps in Hm. unfold hardcoded_weights, is_laminate_or_liner.
  destruct (String.eqb (lower (PRODUCT row)) "hdmr") eqn:E1;
    [apply String.eqb_eq in E1; rewrite E1; reflexivity |].
  destruct (String.eqb (lower (PRODUCT row)) "mdf") eqn:E2;
    [apply String.eqb_eq in E2; rewrite E2; reflexivity |].
  destruct (String.eqb (lower (PRODUCT row)) "ply") eqn:E3;
    [apply String.eqb_eq in E3; rewrite E3; reflexivity |].
  destruct (String.eqb (lower (PRODUCT row)) "pvc door") eqn:E4;
    [apply String.eqb_eq in E4; rewrite E4; reflexivity |].
  destruct (String.eqb (lower (PRODUCT row)) "wpc board") eqn:E5;
    [apply String.eqb_eq in E5; rewrite E5; reflexivity | discriminate].
Qed.

Lemma weight_without_leading_digit_witness :
  get_weight_formula worded_hdmr_row
    ∅ (build_thickness_map hdmr_sheet "WEIGHT_PER_PCS") ∅ ∅ ∅ ∅ 11
  = "0".
Proof.
  refine (proj2 (weight_without_leading_digit _ _ _ _ _ _ _
                   (build_thickness_map hdmr_sheet "WEIGHT_PER_PCS") _ _ _));
    reflexivity.
Defined.

(** ** Weight tables: how the dictionaries are filled and read *)

Lemma mapM_map {A B} (f : A -> result B) (g : A -> B) (l : list A) :
  (forall x, In x l -> f x = Ok (g x)) -> mapM f l = Ok (map g l).
Proof.
  induction l as [|x l IH]; intros H; [reflexivity |].
  cbn [mapM map]. rewrite (H x (or_introl eq_refl)). cbn [bind].
  rewrite IH by (intros y Hy; apply H; now right). reflexivity.
Qed.

Lemma mapM_raise {A B} (f : A -> result B) (l : list A) (x : A) :
  In x l -> is_ok (f x) = false -> is_ok (mapM f l) = false.
Proof.
  induction l as [|y l IH]; intros Hin Hx; [destruct Hin |].
  cbn [mapM]. destruct Hin as [-> | Hin].
  - destruct (f x); [discriminate | reflexivity].
  - destruct (f y); [| reflexivity]. cbn [bind].
    specialize (IH Hin Hx). destruct (mapM f l); [discriminate | reflexivity].
Qed.

(** A dictionary filled by successive assignments holds, for a key, the
    value of the last assignment to that key. *)
Lemma fold_insert_last {K V} `{Countable K} (pre post : list (K * V))
    (k : K) (v : V) (m0 : gmap K V) :
  Forall (fun kv => fst kv <> k) post ->
  fold_left (fun m kv => <[fst kv := snd kv]> m) (pre ++ (k, v) :: post)%list m0
    !! k = Some v.
Proof.
  intros Hpost. rewrite fold_left_app. cbn [fold_left fst snd].
  generalize (fold_left (fun m kv => <[fst kv := snd kv]> m) pre m0). intros m.
  assert (<[k := v]> m !! k = Some v) as Hm by apply lookup_insert_eq.
  revert Hm. generalize (<[k := v]> m). clear m.
  induction Hpost as [|[k' v'] post Hk _ IH]; intros m Hm; [exact Hm |].
  cbn [fold_left fst snd]. apply IH. cbn [fst] in Hk.
  rewrite lookup_insert_ne by exact Hk. exact Hm.
Qed.

Lemma getitem_nth (f : frame) (r : list cell) (c : string) (v : cell) :
  getitem f r c = Ok v ->
  exists i, col_index c (columns f) = Some i /\ v = nth i r CNaN.
Proof.
  unfold getitem. destruct (col_index c (columns f)) as [i|]; [| discriminate].
  intros [= <-]. eauto.
Qed.

(** X10.  The WeightMap sheet is read by product and brand without regard
    to letter case, and of several rows with the same product and brand
    the last one counts: a laminate or liner row gets the weight formula
    "=E<n>*<w>", where w is the WEIGHT_PER_PCS cell of the last sheet row
    whose product in lower case and brand in upper case equal the row's. *)
Theorem weight_formula_from_sheet (row : item) (weight_map_df : frame)
    (pre post : list (list cell)) (r : list cell) (p b w : cell)
    (hd md pl pv wp : gmap float_id cell) (n : Z) :
  is_laminate_or_liner (lower (PRODUCT row)) = true ->
  rows weight_map_df = (pre ++ r :: post)%list ->
  getitem weight_map_df r "PRODUCT" = Ok p ->
  getitem weight_map_df r "BRAND" = Ok b ->
  getitem weight_map_df r "WEIGHT_PER_PCS" = Ok w ->
  lower (py_str p) = lower (PRODUCT row) ->
  upper (py_str b) = upper (BRAND row) ->
  Forall (fun r' => forall p' b',
            getitem weight_map_df r' "PRODUCT" = Ok p' ->
            getitem weight_map_df r' "BRAND" = Ok b' ->
            (lower (py_str p'), upper (py_str b'))
            <> (lower (PRODUCT row), upper (BRAND row))) post ->
  get_weight_formula row (build_weight_map weight_map_df) hd md pl pv wp n
  = "=E" ++ str_int n ++ "*" ++ py_str w.
Proof.
  intros Hprod Hrows Hp Hb Hw Hpe Hbe Hpost.
  destruct (getitem_nth _ _ _ _ Hp) as (i & Hi & ->).
  destruct (getitem_nth _ _ _ _ Hb) as (j & Hj & ->).
  destruct (getitem_nth _ _ _ _ Hw) as (k & Hk & ->).
  assert (build_weight_map weight_map_df
            !! (lower (PRODUCT row), upper (BRAND row))
          = Some (nth k r CNaN)) as Hlook.
  { unfold build_weight_map.
    rewrite (mapM_map _ (fun r' => ((lower (py_str (nth i r' CNaN)),
                                      upper (py_str (nth j r' CNaN))),
                                     nth k r' CNaN))).
    2:{ intros x _. unfold getitem. rewrite Hi, Hj, Hk. reflexivity. }
    rewrite Hrows, map_app. cbn [map]. rewrite Hpe, Hbe.
    apply fold_insert_last. apply List.Forall_map.
    eapply List.Forall_impl; [| exact Hpost]. intros r' H'. cbn [fst].
    apply H'; unfold getitem; [rewrite Hi | rewrite Hj]; reflexivity. }
  unfold get_weight_formula. rewrite Hprod, Hlook.
  unfold is_laminate_or_liner in Hprod. apply orb_true_iff in Hprod.
  destruct Hprod as [E | E]; apply String.eqb_eq in E; rewrite E; reflexivity.
Qed.

Lemma weight_formula_from_sheet_witness :
  get_weight_formula
    {| PRODUCT := "Laminate"; SIZE := "8x4"; CATEGORY := "SF"; BRAND := "Acme";
       QUANTITY := float_of_Z 2; CATEGORY_NORM := SF; SQFT := float_of_Z 64 |}
    (build_weight_map repeated_weights) ∅ ∅ ∅ ∅ ∅ 11
  = "=E11*3".
Proof.
  apply (weight_formula_from_sheet _ repeated_weights
           [[CStr "Laminate"; CStr "Acme"; num "2.5"];
            [CStr "Liner"; CStr "Acme"; num "1"]]
           []
           [CStr "LAMINATE"; CStr "acme"; num "3"]
           (CStr "LAMINATE") (CStr "acme") (num "3"));
    try reflexivity.
  constructor.
Defined.

(** Two floats are one key exactly when they are equal. *)
Lemma float_key_feq (x y : float) (k : float_id) :
  float_key x = Some k -> (float_key y = Some k <-> feq x y = true).
Proof.
  unfold feq, SFeqb.
  destruct x as [sx | sx | | sx mx ex], y as [sy | sy | | sy my ey];
    cbn [float_key SFcompare]; intros [= <-]; split; try discriminate;
    try reflexivity; try (intros _; reflexivity);
    try (destruct sx; discriminate); try (destruct sy; discriminate);
    try (destruct sx, sy; (discriminate || reflexivity)).
  - intros E. assert (sy = sx /\ my = mx /\ ey = ex) as (-> & -> & ->).
    { destruct sx, sy; injection E as E1 E2; try discriminate; repeat split;
        congruence. }
    rewrite Z.compare_refl.
    change (Pos.compare_cont Eq mx mx) with (Pos.compare mx mx).
    rewrite Pos.compare_refl. now destruct sx.
  - intros E.
    assert (sy = sx /\ (ex ?= ey)%Z = Eq /\ Pos.compare mx my = Eq) as (-> & He & Hm).
    { change (Pos.compare_cont Eq mx my) with (Pos.compare mx my) in E.
      destruct sx, sy; try discriminate E;
        destruct (ex ?= ey)%Z; try discriminate E;
        destruct (Pos.compare mx my); try discriminate E; auto. }
    apply Z.compare_eq in He. apply Pos.compare_eq in Hm. now subst.
Qed.

Lemma fold_thickness_last (pre post : list (float * cell)) (q : float)
    (k : float_id) (w : cell) (m0 : gmap float_id cell) :
  float_key q = Some k ->
  Forall (fun kv => float_key (fst kv) <> Some k) post ->
  fold_left (fun m kv => match float_key (fst kv) with
                         | Some k => <[k := snd kv]> m
                         | None => m
                         end) (pre ++ (q, w) :: post)%list m0
    !! k = Some w.
Proof.
  intros Hq Hpost. rewrite fold_left_app. cbn [fold_left fst snd]. rewrite Hq.
  match goal with |- context [<[k := w]> ?m] => generalize m end.
  intros m.
  assert (<[k := w]> m !! k = Some w) as Hm by apply lookup_insert_eq.
  revert Hm. generalize (<[k := w]> m). clear m.
  induction Hpost as [|[q' v'] post Hk _ IH]; intros m Hm; [exact Hm |].
  cbn [fold_left fst snd]. apply IH. cbn [fst] in Hk.
  destruct (float_key q') as [k'|]; [| exact Hm].
  rewrite lookup_insert_ne; [exact Hm |]. congruence.
Qed.

(** X11.  The thickness sheets are read by value, and the last row of a
    thickness counts.  When every THICKNESS cell of the sheet converts to a
    float, a row of a thickness-weighted product whose category yields the
    thickness q gets the weight of the last sheet row whose THICKNESS is
    numerically equal to q (18, 18.0 and the text "18" are one key), in the
    formula "=F<n>*<w>" for ply and pvc door and "=E<n>*<w>" for hdmr, mdf
    and wpc board. *)
Theorem weight_formula_from_thickness_sheet (row : item)
    (wm : gmap (string * string) cell) (hd md pl pv wp : gmap float_id cell)
    (n : Z) (map_df : frame) (value_col : string)
    (pre post : list (list cell)) (r : list cell) (t w : cell) (q q0 : float) :
  thickness_maps hd md pl pv wp (lower (PRODUCT row))
  = Some (build_thickness_map map_df value_col) ->
  extract_thickness_from_category (lower (CATEGORY row)) = Some q0 ->
  Forall (fun r' => exists t' k, getitem map_df r' "THICKNESS" = Ok t'
                                 /\ float_of_cell t' = Ok k) (rows map_df) ->
  rows map_df = (pre ++ r :: post)%list ->
  getitem map_df r "THICKNESS" = Ok t ->
  float_of_cell t = Ok q ->
  feq q q0 = true ->
  getitem map_df r value_col = Ok w ->
  Forall (fun r' => forall t' q',
            getitem map_df r' "THICKNESS" = Ok t' ->
            float_of_cell t' = Ok q' -> feq q' q0 = false) post ->
  get_weight_formula row wm hd md pl pv wp n
  = "=" ++ (if String.eqb (lower (PRODUCT row)) "ply"
               || String.eqb (lower (PRODUCT row)) "pvc door"
            then "F" else "E")
        ++ str_int n ++ "*" ++ py_str w.
Proof.
  intros Hmap Hcat Hall Hrows Ht Hq Heq Hw Hpost.
  destruct (getitem_nth _ _ _ _ Ht) as (i & Hi & ->).
  destruct (getitem_nth _ _ _ _ Hw) as (k & Hk & ->).
  set (key := fun r' : list cell =>
                match float_of_cell (nth i r' CNaN) with
                | Ok o => o
                | Raise _ => nan
                end).
  assert (exists k0, float_key q0 = Some k0) as [k0 Hk0].
  { destruct q0; try (eexists; reflexivity).
    unfold feq, SFeqb in Heq. destruct q; discriminate Heq. }
  assert (Hkq : float_key q = Some k0).
  { apply (float_key_feq q0 q k0 Hk0).
    unfold feq, SFeqb in Heq |- *. rewrite (SFcompare_sym q q0).
    destruct (SFcompare q q0) as [[| |]|]; try discriminate Heq. reflexivity. }
  assert (float_lookup (build_thickness_map map_df value_col) q0
          = Some (nth k r CNaN)) as Hlook.
  { unfold float_lookup. rewrite Hk0. unfold build_thickness_map.
    rewrite (mapM_map _ (fun r' => (key r', nth k r' CNaN))).
    2:{ intros x Hx. rewrite List.Forall_forall in Hall.
        destruct (Hall x Hx) as (t' & o & Ht' & Ho).
        unfold getitem in Ht' |- *. rewrite Hi in Ht' |- *. rewrite Hk.
        injection Ht' as <-. cbn [bind]. unfold key. rewrite Ho. reflexivity. }
    rewrite Hrows, map_app. cbn [map].
    assert (key r = q) as -> by (unfold key; now rewrite Hq).
    apply fold_thickness_last; [exact Hkq |]. apply List.Forall_map.
    rewrite List.Forall_forall in Hpost |- *. intros r' Hin Hkey.
    cbn [fst] in Hkey. unfold key in Hkey.
    destruct (float_of_cell (nth i r' CNaN)) as [o|] eqn:Ho; [| discriminate].
    assert (feq o q0 = false) as Hne.
    { apply (Hpost r' Hin (nth i r' CNaN) o); [| exact Ho].
      unfold getitem. now rewrite Hi. }
    apply (float_key_feq o q0 k0 Hkey) in Hk0. congruence. }
  unfold get_weight_formula. rewrite Hmap, Hcat, Hlook.
  unfold thickness_maps in Hmap. unfold hardcoded_weights.
  destruct (String.eqb (lower (PRODUCT row)) "hdmr") eqn:E1;
    [apply String.eqb_eq in E1; rewrite E1; reflexivity |].
  destruct (String.eqb (lower (PRODUCT row)) "mdf") eqn:E2;
    [apply String.eqb_eq in E2; rewrite E2; reflexivity |].
  destruct (String.eqb (lower (PRODUCT row)) "ply") eqn:E3;
    [apply String.eqb_eq in E3; rewrite E3; reflexivity |].
  destruct (String.eqb (lower (PRODUCT row)) "pvc door") eqn:E4;
    [apply String.eqb_eq in E4; rewrite E4; reflexivity |].
  destruct (String.eqb (lower (PRODUCT row)) "wpc board") eqn:E5;
    [apply String.eqb_eq in E5; rewrite E5; reflexivity | discriminate].
Qed.

Lemma weight_formula_from_thickness_sheet_witness :
  get_weight_formula hdmr_row
    ∅ (build_thickness_map hdmr_sheet "WEIGHT_PER_PCS") ∅ ∅ ∅ ∅ 11
  = "=E11*31.5".
Proof.
  refine (weight_formula_from_thickness_sheet hdmr_row
            ∅ (build_thickness_map hdmr_sheet "WEIGHT_PER_PCS") ∅ ∅ ∅ ∅ 11
            hdmr_sheet "WEIGHT_PER_PCS"
            [[num "18"; num "30"]; [num "12"; num "21"]]
            []
            [CStr "18.0"; num "31.5"]
            (CStr "18.0") (num "31.5") (float_of_Z 18) (float_of_Z 18)
            _ _ _ _ _ _ _ _ _);
    try reflexivity.
  - repeat constructor; eexists; eexists; split; reflexivity.
  - constructor.
Defined.

(** X12.  One THICKNESS cell that float() rejects empties the whole
    dictionary of its sheet: the comprehension runs inside a single try, so
    the readable rows of that sheet are lost as well. *)
Theorem thickness_map_one_bad_cell (map_df : frame) (value_col s : string)
    (r : list cell) :
  In r (rows map_df) ->
  getitem map_df r "THICKNESS" = Ok (CStr s) ->
  py_float s = None ->
  build_thickness_map map_df value_col = ∅.
Proof.
  intros Hin Ht Hs. unfold build_thickness_map.
  match goal with |- context [mapM ?f _] =>
    pose proof (mapM_raise f (rows map_df) r Hin) as Hraise end.
  cbn beta in Hraise. rewrite Ht in Hraise. cbn [bind float_of_cell] in Hraise.
  rewrite Hs in Hraise. specialize (Hraise eq_refl).
  destruct (mapM _ (rows map_df)); [discriminate | reflexivity].
Qed.

Lemma thickness_map_one_bad_cell_witness :
  build_thickness_map unreadable_hdmr_sheet "WEIGHT_PER_PCS" = ∅.
Proof.
  apply (thickness_map_one_bad_cell _ _ "twelve"
           [CStr "twelve"; num "21"]);
    [right; left; reflexivity | reflexivity | reflexivity].
Defined.

(* ===================================================================== *)
(** * Further properties of the loader *)
(* ===================================================================== *)

(** ** The rows come out sorted *)

Lemma ordering_le_trans {A} (cmp : A -> A -> comparison) (x y z : A) :
  ordering cmp -> cmp x y <> Gt -> cmp y z <> Gt -> cmp x z <> Gt.
Proof.
  intros [Hs Ht He] Hxy Hyz.
  destruct (cmp x y) eqn:Exy; [| | now contradiction Hxy].
  - now rewrite (He x y z Exy).
  - destruct (cmp y z) eqn:Eyz; [| | now contradiction Hyz].
    + assert (cmp z y = Eq) as Ezy by (rewrite Hs, Eyz; reflexivity).
      assert (cmp z x = Gt) as Ezx
        by (rewrite (He z y x Ezy), Hs, Exy; reflexivity).
      rewrite Hs, Ezx. discriminate.
    + rewrite (Ht x y z Exy Eyz). discriminate.
Qed.

Lemma ordering_on {A B} (f : A -> B) (cmp : B -> B -> comparison) :
  ordering cmp -> ordering (fun a b => cmp (f a) (f b)).
Proof.
  intros [Hs Ht He]. split; intros; eauto.
Qed.

Lemma ordering_lex {A} (c1 c2 : A -> A -> comparison) :
  ordering c1 -> ordering c2 -> ordering (fun a b => lex (c1 a b) (c2 a b)).
Proof.
  intros [Hs1 Ht1 He1] [Hs2 Ht2 He2]. split.
  - intros x y. rewrite Hs1, Hs2. unfold lex. destruct (c1 x y); reflexivity.
  - intros x y z. unfold lex.
    destruct (c1 x y) eqn:Exy; try discriminate.
    + rewrite (He1 x y z Exy).
      destruct (c1 y z) eqn:Eyz; try discriminate; [apply Ht2 | reflexivity].
    + intros _. destruct (c1 y z) eqn:Eyz; try discriminate.
      * intros _. assert (c1 z y = Eq) as Ezy by (rewrite Hs1, Eyz; reflexivity).
        assert (c1 z x = Gt) as Ezx
          by (rewrite (He1 z y x Ezy), Hs1, Exy; reflexivity).
        rewrite Hs1, Ezx. reflexivity.
      * intros _. now rewrite (Ht1 x y z Exy Eyz).
  - intros x y z. unfold lex.
    destruct (c1 x y) eqn:Exy; try discriminate.
    intros E2. rewrite (He1 x y z Exy), (He2 x y z E2). reflexivity.
Qed.

Lemma ordering_compare_last {A} (cmp : A -> A -> comparison) :
  ordering cmp -> ordering (compare_last cmp).
Proof.
  intros [Hs Ht He]. split.
  - intros [x|] [y|]; cbn; auto.
  - intros [x|] [y|] [z|]; cbn; try discriminate; eauto.
  - intros [x|] [y|] [z|]; cbn; try discriminate; eauto.
Qed.

Lemma ordering_string : ordering String.compare.
Proof.
  split.
  - intros x y. apply String.compare_antisym.
  - induction x as [|a x IH]; intros [|b y] [|c z]; cbn [String.compare];
      try discriminate; try reflexivity.
    specialize (IH y z). unfold Ascii.compare in *.
    destruct (N.compare_spec (N_of_ascii a) (N_of_ascii b)),
             (N.compare_spec (N_of_ascii b) (N_of_ascii c)),
             (N.compare_spec (N_of_ascii a) (N_of_ascii c));
      try discriminate; try lia; auto.
  - intros x y z E. apply String.compare_eq_iff in E. now subst.
Qed.

Lemma ordering_nat : ordering Nat.compare.
Proof.
  split.
  - intros x y. apply Nat.compare_antisym.
  - intros x y z. rewrite !Nat.compare_lt_iff. lia.
  - intros x y z E. apply Nat.compare_eq in E. now subst.
Qed.

Lemma ordering_Z : ordering Z.compare.
Proof.
  split.
  - intros x y. apply Z.compare_antisym.
  - intros x y z. rewrite !Z.compare_lt_iff. lia.
  - intros x y z E. apply Z.compare_eq in E. now subst.
Qed.

Lemma float_compare_rank (x y : float) :
  float_compare x y = rank_compare (float_rank x) (float_rank y).
Proof.
  unfold float_compare, rank_compare.
  destruct x as [sx | sx | | sx mx ex], y as [sy | sy | | sy my ey];
    cbn [SFcompare is_nan];
    try (destruct sx; reflexivity); try (destruct sy; reflexivity);
    try (destruct sx, sy; reflexivity); try reflexivity.
  destruct sx, sy; try reflexivity; cbn [float_rank fst snd].
  - rewrite Z.compare_opp, (Z.compare_antisym ex ey).
    change (Pos.compare_cont Eq mx my) with (Pos.compare mx my).
    change (Z.neg mx ?= Z.neg my)%Z with (CompOpp (Pos.compare mx my)).
    change (-1 ?= -1)%Z with Eq.
    destruct (ex ?= ey)%Z; reflexivity.
  - change (Pos.compare_cont Eq mx my) with (Pos.compare mx my).
    change (Z.pos mx ?= Z.pos my)%Z with (Pos.compare mx my).
    change (1 ?= 1)%Z with Eq.
    destruct (ex ?= ey)%Z; reflexivity.
Qed.

Lemma ordering_rank : ordering rank_compare.
Proof.
  unfold rank_compare.
  apply (ordering_lex (fun r r' : Z * Z * Z => Z.compare (fst (fst r)) (fst (fst r')))).
  { apply (ordering_on (fun r : Z * Z * Z => fst (fst r))), ordering_Z. }
  apply (ordering_lex (fun r r' : Z * Z * Z => Z.compare (snd (fst r)) (snd (fst r')))).
  { apply (ordering_on (fun r : Z * Z * Z => snd (fst r))), ordering_Z. }
  apply (ordering_on (fun r : Z * Z * Z => snd r)), ordering_Z.
Qed.

Lemma ordering_float : ordering float_compare.
Proof.
  destruct ordering_rank as [Hs Ht He]. split.
  - intros x y. rewrite !float_compare_rank. apply Hs.
  - intros x y z. rewrite !float_compare_rank. apply Ht.
  - intros x y z. rewrite !float_compare_rank. apply He.
Qed.

(** The sort key of [prepare_data] is a total preorder on rows. *)
Lemma ordering_sort_compare (numeric_of_text : reader) (order : list cell) :
  ordering (sort_compare numeric_of_text order).
Proof.
  unfold sort_compare.
  apply (ordering_lex (fun a b => String.compare (BRAND a) (BRAND b))).
  { apply (ordering_on BRAND), ordering_string. }
  apply (ordering_lex
           (fun a b => compare_last Nat.compare
                         (position (CATEGORY_NORM a) order)
                         (position (CATEGORY_NORM b) order))).
  { apply (ordering_on (fun a => position (CATEGORY_NORM a) order)),
      ordering_compare_last, ordering_nat. }
  apply (ordering_lex (fun a b => String.compare (PRODUCT a) (PRODUCT b))).
  { apply (ordering_on PRODUCT), ordering_string. }
  apply (ordering_on (fun a => numeric_of_text (SIZE a))), ordering_float.
Qed.

Lemma insert_sorted_ordered (cmp : item -> item -> comparison) (x : item)
    (l : list item) :
  ordering cmp ->
  ForallOrdPairs (fun a b => cmp a b <> Gt) l ->
  ForallOrdPairs (fun a b => cmp a b <> Gt) (insert_sorted cmp x l).
Proof.
  intros Hord. induction 1 as [|y l Hy Hl IH]; cbn [insert_sorted].
  - repeat constructor.
  - destruct (cmp x y) eqn:E.
    + constructor; [| now constructor].
      constructor; [rewrite E; discriminate |].
      eapply List.Forall_impl; [| exact Hy]. intros z Hz.
      apply (ordering_le_trans cmp x y z Hord); [rewrite E; discriminate | exact Hz].
    + constructor; [| now constructor].
      constructor; [rewrite E; discriminate |].
      eapply List.Forall_impl; [| exact Hy]. intros z Hz.
      apply (ordering_le_trans cmp x y z Hord); [rewrite E; discriminate | exact Hz].
    + constructor; [| exact IH].
      apply (Permutation_Forall (Permutation_sym (insert_sorted_perm cmp x l))).
      constructor; [| exact Hy].
      rewrite (ord_sym cmp Hord x y), E. discriminate.
Qed.

Lemma sort_values_ordered (cmp : item -> item -> comparison) (l : list item) :
  ordering cmp -> ForallOrdPairs (fun a b => cmp a b <> Gt) (sort_values cmp l).
Proof.
  intros Hord. unfold sort_values. induction l as [|x l IH]; cbn [fold_right].
  - constructor.
  - apply insert_sorted_ordered; assumption.
Qed.



(** ** Equality of cells and membership *)

Lemma feq_refl (x : float) : is_nan x = false -> feq x x = true.
Proof.
  unfold feq, SFeqb. destruct x as [s | s | | s m e]; cbn; try discriminate;
    intros _; try reflexivity; try (now destruct s).
  rewrite Z.compare_refl.
  change (Pos.compare_cont Eq m m) with (Pos.compare m m).
  rewrite Pos.compare_refl. now destruct s.
Qed.

Lemma feq_sym (x y : float) : feq x y = feq y x.
Proof.
  unfold feq, SFeqb. rewrite (SFcompare_sym x y).
  destruct (SFcompare x y) as [[| |]|]; reflexivity.
Qed.

Lemma feq_not_nan (x y : float) : feq x y = true -> is_nan x = false /\ is_nan y = false.
Proof. unfold feq, SFeqb. destruct x, y; cbn; try discriminate; auto. Qed.

Lemma feq_trans (x y z : float) : feq x y = true -> feq y z = true -> feq x z = true.
Proof.
  intros Hxy Hyz.
  assert (exists k, float_key x = Some k) as [k Hk].
  { destruct (feq_not_nan _ _ Hxy) as [Hx _].
    destruct x; try discriminate Hx; eexists; reflexivity. }
  pose proof (proj2 (float_key_feq x y k Hk) Hxy) as Hky.
  pose proof (proj2 (float_key_feq y z k Hky) Hyz) as Hkz.
  exact (proj1 (float_key_feq x z k Hk) Hkz).
Qed.

Lemma cell_eqb_refl (c : cell) : isna c = false -> cell_eqb c c = true.
Proof.
  destruct c as [| s | q r]; cbn; intros H; [discriminate | |].
  - apply String.eqb_refl.
  - apply feq_refl, H.
Qed.

Lemma cell_eqb_sym (a b : cell) : cell_eqb a b = cell_eqb b a.
Proof.
  destruct a as [| s | p r], b as [| t | q r']; cbn; try reflexivity.
  - apply String.eqb_sym.
  - apply feq_sym.
Qed.

Lemma cell_eqb_trans (a b c : cell) :
  cell_eqb a b = true -> cell_eqb b c = true -> cell_eqb a c = true.
Proof.
  destruct a as [| s | p r], b as [| t | q r'], c as [| u | w r'']; cbn;
    try discriminate.
  - intros H1 H2. apply String.eqb_eq in H1, H2. subst. apply String.eqb_refl.
  - apply feq_trans.
Qed.

(** Cells that are equal are present. *)
Lemma cell_eqb_present (a b : cell) :
  cell_eqb a b = true -> isna a = false /\ isna b = false.
Proof.
  destruct a as [| s | p r], b as [| t | q r']; cbn; try discriminate; auto.
  apply feq_not_nan.
Qed.

Lemma mem_present (c : cell) (l : list cell) : mem c l = true -> isna c = false.
Proof.
  unfold mem. intros H. apply existsb_exists in H. destruct H as (z & _ & Hz).
  exact (proj1 (cell_eqb_present c z Hz)).
Qed.

Lemma mem_app (c : cell) (l l' : list cell) :
  mem c (l ++ l')%list = mem c l || mem c l'.
Proof. unfold mem. apply existsb_app. Qed.

Lemma mem_trans (c y : cell) (l : list cell) :
  cell_eqb c y = true -> mem y l = true -> mem c l = true.
Proof.
  intros Hcy. unfold mem. rewrite !existsb_exists.
  intros (z & Hz & Hyz). exists z. split; [exact Hz |].
  exact (cell_eqb_trans c y z Hcy Hyz).
Qed.

Lemma mem_of_In (c : cell) (l : list cell) :
  isna c = false -> In c l -> mem c l = true.
Proof.
  intros Hc Hin. unfold mem. apply existsb_exists. exists c.
  split; [exact Hin | apply cell_eqb_refl, Hc].
Qed.

Lemma mem_filter_same (c x : cell) (l : list cell) :
  mem c l = true ->
  mem c (List.filter (fun y => negb (cell_same x y)) l) = true
  \/ cell_eqb c x = true.
Proof.
  induction l as [|y l IH]; cbn [mem existsb List.filter]; [discriminate |].
  intros H. apply orb_true_iff in H. destruct H as [Hcy | Hl].
  - destruct (cell_same x y) eqn:Exy; cbn [negb].
    + right. assert (cell_eqb x y = true) as Hxy.
      { unfold cell_same in Exy.
        rewrite (proj2 (cell_eqb_present c y Hcy)), andb_false_r in Exy.
        exact Exy. }
      rewrite cell_eqb_sym in Hxy. exact (cell_eqb_trans c y x Hcy Hxy).
    + left. cbn [existsb]. now rewrite Hcy.
  - destruct (IH Hl) as [H | H]; [| now right]. left.
    destruct (negb (cell_same x y)); [| exact H].
    cbn [existsb]. unfold mem in H. rewrite H. apply orb_true_r.
Qed.

(** [unique] drops no value. *)
Lemma mem_unique (c : cell) (l : list cell) :
  mem c l = true -> mem c (unique l) = true.
Proof.
  induction l as [|x l IH]; [trivial |].
  cbn [mem existsb unique]. intros H. apply orb_true_iff in H.
  destruct H as [H | H]; [now rewrite H |].
  destruct (mem_filter_same c x (unique l) (IH H)) as [H' | H'].
  - unfold mem in H'. rewrite H'. apply orb_true_r.
  - now rewrite H'.
Qed.

(** The closing loop of the category order adds whatever is not yet
    listed. *)
Lemma fold_missing_mem (c : cell) (l : list cell) :
  forall acc,
    mem c acc = true \/ mem c l = true ->
    mem c (fold_left (fun order cat =>
                        if mem cat order then order else (order ++ [cat])%list)
                     l acc) = true.
Proof.
  induction l as [|y l IH]; intros acc H; cbn [fold_left].
  - destruct H as [H | H]; [exact H | discriminate].
  - apply IH. destruct H as [H | H].
    + left. destruct (mem y acc); [exact H |]. rewrite mem_app, H. reflexivity.
    + cbn [mem existsb] in H. apply orb_true_iff in H. destruct H as [H | H];
        [| now right].
      left. destruct (mem y acc) eqn:E.
      * exact (mem_trans c y acc H E).
      * rewrite mem_app. cbn [mem existsb]. rewrite H. cbn. apply orb_true_r.
Qed.

Lemma build_cat_order_complete (c : cell) (mapped present : list cell) :
  mem c present = true -> mem c (build_cat_order mapped present) = true.
Proof.
  intros H. unfold build_cat_order. apply fold_missing_mem. now right.
Qed.

(** ** The rows and their categories *)

Lemma category_block_complete (df0 cat_map : frame) (col order : list cell) :
  category_block df0 cat_map = (Some col, order) ->
  Forall (fun c => mem c order = true) col.
Proof.
  unfold category_block.
  destruct (mapped_categories_of cat_map) as [mapped|]; cbn [bind];
    [| discriminate].
  destruct (category_norm_column df0 cat_map) as [norm|]; cbn [bind];
    [| discriminate].
  intros [= <- <-]. apply List.Forall_forall. intros c Hin.
  apply build_cat_order_complete, mem_unique, mem_of_In; [| exact Hin].
  apply in_map_iff in Hin. destruct Hin as (x & <- & _).
  unfold fillna. destruct (isna x) eqn:E; [reflexivity | exact E].
Qed.

Lemma categorical_complete (order col col' : list cell) :
  Forall (fun c => mem c order = true) col ->
  categorical order col = Ok col' -> col' = col.
Proof.
  intros Hall. unfold categorical.
  destruct (has_duplicates order); [discriminate |]. intros [= <-].
  induction Hall as [|c col Hc _ IH]; [reflexivity |].
  cbn [map]. rewrite Hc. now f_equal.
Qed.

(** What [annotate] builds, when it returns. *)
Lemma make_items_norm (P : cell -> Prop) (ps ss cs bs : list string)
    (qs : list float) (ns : list cell) :
  Forall P ns -> Forall (fun it => P (CATEGORY_NORM it)) (make_items ps ss cs bs qs ns).
Proof.
  intros H. revert ps ss cs bs qs.
  induction H as [|n ns Hn _ IH]; intros [|p ps] [|s ss] [|c cs] [|b bs] [|q qs];
    cbn [make_items]; constructor; [exact Hn | apply IH].
Qed.



(** X15.  A Master sheet that lacks one of the columns PRODUCT, SIZE,
    CATEGORY, BRAND and QUANTITY makes prepare_data raise KeyError: the
    failure inside the category block is absorbed, the column accesses after
    it are not. *)
Theorem prepare_data_missing_column (numeric_of_text : reader)
    (input_file : option (gmap string frame)) (c : string) :
  In c master_columns ->
  has_column (s_df (load_sheets input_file)) c = false ->
  prepare_data numeric_of_text input_file = Raise KeyError.
Proof.
  intros Hin Hc. unfold prepare_data, prepare_loaded.
  destruct (category_block _ _) as [norm_col order].
  assert (annotate numeric_of_text (s_df (load_sheets input_file)) norm_col order
          = Raise KeyError) as ->; [| reflexivity].
  unfold has_column in Hc. unfold annotate, column.
  destruct (col_index "PRODUCT" _) eqn:E1; cbn [bind]; [| reflexivity].
  destruct (col_index "SIZE" _) eqn:E2; cbn [bind]; [| reflexivity].
  destruct (col_index "BRAND" _) eqn:E3; cbn [bind]; [| reflexivity].
  destruct (col_index "CATEGORY" _) eqn:E4; cbn [bind]; [| reflexivity].
  destruct (col_index "QUANTITY" _) eqn:E5; cbn [bind]; [| reflexivity].
  exfalso. unfold master_columns in Hin.
  destruct Hin as [<- | [<- | [<- | [<- | [<- | []]]]]];
    [rewrite E1 in Hc | rewrite E2 in Hc | rewrite E4 in Hc | rewrite E3 in Hc
     | rewrite E5 in Hc]; discriminate Hc.
Qed.

Lemma prepare_data_missing_column_witness :
  prepare_data decimal_of_text
    (Some (workbook sample_weights sample_cat_map sample_weights))
  = Raise KeyError.
Proof.
  apply (prepare_data_missing_column _ _ "SIZE");
    [right; left; reflexivity | reflexivity].
Defined.

(** X16.  prepare_data neither drops nor adds nor mixes rows: the returned
    rows are, up to their order, the rows of the Master sheet it worked on,
    each with its own product, size, category and brand as text stripped of
    surrounding blanks and its own quantity coerced to a number. *)
Theorem prepare_data_keeps_rows (numeric_of_text : reader)
    (input_file : option (gmap string frame)) (p : prepared) :
  prepare_data numeric_of_text input_file = Ok p ->
  let master := s_df (load_sheets input_file) in
  exists product size category brand quantity,
    (forall row, getitem master row "PRODUCT" = Ok (product row))
    /\ (forall row, getitem master row "SIZE" = Ok (size row))
    /\ (forall row, getitem master row "CATEGORY" = Ok (category row))
    /\ (forall row, getitem master row "BRAND" = Ok (brand row))
    /\ (forall row, getitem master row "QUANTITY" = Ok (quantity row))
    /\ Permutation
         (map (fun it => (PRODUCT it, SIZE it, CATEGORY it, BRAND it, QUANTITY it))
              (df p))
         (map (fun row => (strip (py_str (product row)), strip (py_str (size row)),
                           strip (py_str (category row)), strip (py_str (brand row)),
                           coerce_quantity numeric_of_text (quantity row)))
              (rows master)).
Proof.
  intros H. exact (prepare_data_fields numeric_of_text input_file p H).
Qed.

Lemma prepare_data_keeps_rows_witness :
  exists p, prepare_data decimal_of_text sample_workbook = Ok p
            /\ List.length (df p) = 4%nat.
Proof.
  destruct (prepare_data decimal_of_text sample_workbook) as [p|e] eqn:E;
    [| vm_compute in E; discriminate E].
  exists p. split; [reflexivity |].
  destruct (prepare_data_keeps_rows decimal_of_text sample_workbook p E)
    as (product & size & category & brand & quantity & _ & _ & _ & _ & _ & Hperm).
  apply Permutation_length in Hperm. rewrite !List.length_map in Hperm.
  rewrite Hperm. reflexivity.
Defined.

(* ===================================================================== *)
(** * The report writer *)
(* ===================================================================== *)

(** ** Cells written and cells left alone *)

Ltac cells :=
  repeat first
    [ rewrite lookup_insert_eq
    | rewrite lookup_insert_ne by (intros [= ?]; lia)
    | rewrite lookup_insert_ne by (cbn in *; congruence)
    | rewrite lookup_insert_ne by (intros ->; cbn in *; lia) ].

(** A row with a finite quantity is written in full. *)
Lemma writable_py_int (row : item) :
  writable row = true -> exists z, py_int (QUANTITY row) = Ok z.
Proof. apply is_finite_py_int. Qed.

Lemma write_data_row_done (ws : sheet) (row : item)
    (wm : gmap (string * string) cell) (hd md pl pv wp : gmap float_id cell)
    (n : Z) :
  writable row = true -> snd (write_data_row ws row wm hd md pl pv wp n) = None.
Proof.
  intros H. destruct (writable_py_int row H) as [z Hz].
  unfold write_data_row. now rewrite Hz.
Qed.

Lemma write_data_row_same (ws : sheet) (row : item)
    (wm : gmap (string * string) cell) (hd md pl pv wp : gmap float_id cell)
    (n c : Z) :
  writable row = true ->
  (1 <= c <= 7)%Z ->
  fst (write_data_row ws row wm hd md pl pv wp n) !! (n, c)
  = fst (write_data_row ∅ row wm hd md pl pv wp n) !! (n, c).
Proof.
  intros Hw Hc. destruct (writable_py_int row Hw) as [z Hz].
  unfold write_data_row. rewrite Hz. cbn [fst].
  assert (c = 1 \/ c = 2 \/ c = 3 \/ c = 4 \/ c = 5 \/ c = 6 \/ c = 7)%Z
    as Hcases by lia.
  repeat (destruct Hcases as [-> | Hcases]; [cells; reflexivity |]).
  subst c. cells. reflexivity.
Qed.

(** Whether it completes or not, the row body touches its own sheet row
    only. *)
Lemma write_data_row_other (ws : sheet) (row : item)
    (wm : gmap (string * string) cell) (hd md pl pv wp : gmap float_id cell)
    (n : Z) (k : Z * Z) :
  fst k <> n -> fst (write_data_row ws row wm hd md pl pv wp n) !! k = ws !! k.
Proof.
  intros Hk. unfold write_data_row. destruct k as [r c]. cbn in Hk.
  destruct (py_int (QUANTITY row)); cbn [fst];
    rewrite !lookup_insert_ne by (intros [= ? ?]; congruence); reflexivity.
Qed.

Lemma is_data_row_agree (ws ws' : sheet)
    (wm : gmap (string * string) cell) (hd md pl pv wp : gmap float_id cell)
    (n : Z) (row : item) :
  (forall c, ws' !! (n, c) = ws !! (n, c)) ->
  is_data_row ws wm hd md pl pv wp n row ->
  is_data_row ws' wm hd md pl pv wp n row.
Proof.
  intros Hagree [Hdone H]. split; [exact Hdone |].
  intros c Hc. rewrite Hagree. exact (H c Hc).
Qed.

(** The row loop on rows with finite quantities: one row of the sheet per
    row of the group, downwards from the current row; nothing else is
    touched. *)
Lemma write_rows_spec (wm : gmap (string * string) cell)
    (hd md pl pv wp : gmap float_id cell) (g : list item) :
  Forall (fun row => writable row = true) g ->
  forall (ws ws' : sheet) (r r' : Z),
    write_rows wm hd md pl pv wp g (ws, r) = (ws', r') ->
    r' = (r + Z.of_nat (List.length g))%Z
    /\ (forall k, (fst k < r \/ r' <= fst k)%Z -> ws' !! k = ws !! k)
    /\ placed ws' wm hd md pl pv wp (r, g).
Proof.
  induction 1 as [|x g Hx Hg IH]; intros ws ws' r r' H.
  - cbn in H. injection H as <- <-. split; [cbn; lia |]. split; [reflexivity |].
    intros i row Hi. destruct i; discriminate Hi.
  - unfold write_rows in H. cbn [fold_left] in H.
    pose proof (write_data_row_done ws x wm hd md pl pv wp r Hx) as Hdone.
    destruct (write_data_row ws x wm hd md pl pv wp r) as [ws1 err] eqn:Erow.
    cbn [snd] in Hdone. subst err.
    destruct (IH _ _ _ _ H) as (Hr & Hframe & Hplaced). clear IH H.
    assert (Hws1 : ws1 = fst (write_data_row ws x wm hd md pl pv wp r))
      by now rewrite Erow.
    split; [cbn [List.length]; lia |]. split.
    + intros k Hk. rewrite Hframe by lia. rewrite Hws1.
      apply write_data_row_other. lia.
    + intros [|i] row Hi; cbn [nth_error snd fst] in Hi |- *.
      * injection Hi as <-. split; [now apply write_data_row_done |].
        intros c Hc.
        replace (r + Z.of_nat 0)%Z with r by lia.
        rewrite Hframe by (cbn; lia). rewrite Hws1.
        now apply write_data_row_same.
      * replace (r + Z.of_nat (S i))%Z with (r + 1 + Z.of_nat i)%Z by lia.
        exact (Hplaced i row Hi).
Qed.

Lemma placed_agree (ws ws' : sheet)
    (wm : gmap (string * string) cell) (hd md pl pv wp : gmap float_id cell)
    (b : block) :
  (forall k, (block_first b <= fst k <= block_last b)%Z -> ws' !! k = ws !! k) ->
  placed ws wm hd md pl pv wp b -> placed ws' wm hd md pl pv wp b.
Proof.
  intros Hagree H i row Hi.
  apply (is_data_row_agree ws); [| exact (H i row Hi)].
  intros c. apply Hagree. unfold block_first, block_last. cbn [fst].
  pose proof (proj1 (nth_error_Some (snd b) i)) as Hlt.
  rewrite Hi in Hlt. specialize (Hlt ltac:(discriminate)). lia.
Qed.

Lemma has_subtotal_agree (ws ws' : sheet) (label : string) (b : block) :
  (forall c, ws' !! (block_last b + 1, c)%Z = ws !! (block_last b + 1, c)%Z) ->
  has_subtotal ws label b -> has_subtotal ws' label b.
Proof.
  intros Hagree (H1 & H5 & H6 & H7). unfold has_subtotal.
  rewrite !Hagree. auto.
Qed.

(** One category group with at least one row: its block, its subtotal row
    and a blank row. *)
Lemma write_category_group_spec (wm : gmap (string * string) cell)
    (hd md pl pv wp : gmap float_id cell)
    (ws ws' : sheet) (r r' : Z) (rg rg' : ranges) (c : cell) (g : list item) :
  g <> [] ->
  Forall (fun row => writable row = true) g ->
  write_category_group wm hd md pl pv wp (ws, r, rg) (c, g) = (ws', r', rg') ->
  r' = (block_last (r, g) + 3)%Z
  /\ rg' = append_ranges rg (block_first (r, g)) (block_last (r, g))
  /\ (forall k, (fst k < r \/ r' <= fst k)%Z -> ws' !! k = ws !! k)
  /\ placed ws' wm hd md pl pv wp (r, g)
  /\ has_subtotal ws' (py_str c) (r, g).
Proof.
  intros Hne Hfin H. unfold write_category_group in H.
  destruct (write_rows wm hd md pl pv wp g (ws, r)) as [ws1 r1] eqn:Erows.
  destruct (write_rows_spec _ _ _ _ _ _ _ Hfin _ _ _ _ Erows)
    as (Hr1 & Hframe & Hplaced).
  assert (0 < Z.of_nat (List.length g))%Z as Hlen
    by (destruct g; [now contradiction Hne | cbn [List.length]; lia]).
  assert ((r1 >? r)%Z = true) as Hgt by lia.
  rewrite Hgt in H. unfold add_blank_row in H. injection H as <- <- <-.
  unfold block_first, block_last, has_subtotal, block_range, block_first,
    block_last. cbn [fst snd].
  replace (r + Z.of_nat (List.length g) - 1 + 1)%Z with r1 by lia.
  replace (r + Z.of_nat (List.length g) - 1)%Z with (r1 - 1)%Z by lia.
  split; [lia |]. split; [reflexivity |]. split; [| split].
  - intros k Hk. destruct k as [kr kc]. cbn [fst] in Hk.
    rewrite !lookup_insert_ne by (intros [= ? ?]; lia).
    apply Hframe. cbn. lia.
  - apply (placed_agree ws1); [| exact Hplaced].
    intros [kr kc]. unfold block_first, block_last. cbn [fst snd]. intros Hk.
    rewrite !lookup_insert_ne by (intros [= ? ?]; lia). reflexivity.
  - repeat split; cells; reflexivity.
Qed.

Lemma ordered_blocks_weaken (blocks : list block) :
  forall lo lo' hi hi',
    (lo' <= lo)%Z -> (hi <= hi')%Z ->
    ordered_blocks lo blocks hi -> ordered_blocks lo' blocks hi'.
Proof.
  induction blocks as [|b blocks IH]; intros lo lo' hi hi' Hlo Hhi; cbn.
  - lia.
  - intros [H1 H2]. split; [lia |]. apply (IH _ _ hi hi' (Z.le_refl _) Hhi H2).
Qed.

Lemma ordered_blocks_le (blocks : list block) :
  forall lo hi,
    Forall (fun b => snd b <> []) blocks ->
    ordered_blocks lo blocks hi -> (lo <= hi)%Z.
Proof.
  induction blocks as [|b blocks IH]; intros lo hi Hne; cbn; [trivial |].
  intros [H1 H2]. inversion Hne as [|? ? Hb Hrest]; subst.
  specialize (IH _ _ Hrest H2). unfold block_first, block_last in *.
  destruct b as [s g]. cbn [fst snd] in *.
  destruct g; [now contradiction Hb | cbn [List.length] in IH; lia].
Qed.

Lemma ordered_blocks_app (a b : list block) :
  forall lo mid hi,
    ordered_blocks lo a mid -> ordered_blocks mid b hi ->
    ordered_blocks lo (a ++ b) hi.
Proof.
  induction a as [|x a IH]; intros lo mid hi Ha Hb; cbn in *.
  - apply (ordered_blocks_weaken b mid lo hi hi); [exact Ha | lia | exact Hb].
  - destruct Ha as [H1 H2]. split; [exact H1 |]. exact (IH _ _ _ H2 Hb).
Qed.

Lemma extend_ranges_nil (rg : ranges) : extend_ranges rg (ranges_of []) = rg.
Proof.
  destruct rg. unfold extend_ranges, ranges_of. cbn. now rewrite !List.app_nil_r.
Qed.

Lemma extend_append_ranges (rg : ranges) (b : block) (blocks : list block) :
  extend_ranges (append_ranges rg (block_first b) (block_last b)) (ranges_of blocks)
  = extend_ranges rg (ranges_of (b :: blocks)).
Proof.
  unfold extend_ranges, append_ranges, ranges_of, block_range. cbn.
  now rewrite <- !List.app_assoc.
Qed.

(** The loop over the category groups of a brand. *)
Lemma write_category_groups_spec (wm : gmap (string * string) cell)
    (hd md pl pv wp : gmap float_id cell) (groups : list (cell * list item)) :
  Forall (fun g => snd g <> []
                    /\ Forall (fun row => writable row = true) (snd g)) groups ->
  forall (ws ws' : sheet) (r r' : Z) (rg rg' : ranges),
    fold_left (write_category_group wm hd md pl pv wp) groups (ws, r, rg)
    = (ws', r', rg') ->
    exists blocks,
      map snd blocks = map snd groups
      /\ ordered_blocks r blocks r'
      /\ rg' = extend_ranges rg (ranges_of blocks)
      /\ (forall k, (fst k < r \/ r' <= fst k)%Z -> ws' !! k = ws !! k)
      /\ Forall (placed ws' wm hd md pl pv wp) blocks
      /\ Forall2 (fun g b => has_subtotal ws' (py_str (fst g)) b) groups blocks.
Proof.
  induction 1 as [|[c g] groups [Hg Hfin] Hrest IH]; intros ws ws' r r' rg rg' H.
  - cbn in H. injection H as <- <- <-. exists []. cbn.
    rewrite extend_ranges_nil. repeat split; auto; lia.
  - cbn [fold_left] in H. cbn [snd] in Hg, Hfin.
    destruct (write_category_group wm hd md pl pv wp (ws, r, rg) (c, g))
      as [[ws1 r1] rg1] eqn:E1.
    destruct (write_category_group_spec _ _ _ _ _ _ _ _ _ _ _ _ _ _ Hg Hfin E1)
      as (Hr1 & Hrg1 & Hframe1 & Hplaced1 & Hsub1).
    destruct (IH _ _ _ _ _ _ H)
      as (blocks & Hmap & Hord & Hrg & Hframe & Hplaced & Hsub).
    assert (r1 <= r')%Z as Hle.
    { apply (ordered_blocks_le blocks); [| exact Hord].
      apply List.Forall_forall. intros b Hb.
      assert (In (snd b) (map snd groups)) as Hin
        by (rewrite <- Hmap; now apply in_map).
      apply in_map_iff in Hin. destruct Hin as (g' & Eg & Hg').
      rewrite List.Forall_forall in Hrest. rewrite <- Eg. now apply Hrest. }
    assert (0 < Z.of_nat (List.length g))%Z as Hlen
      by (destruct g; [now contradiction Hg | cbn [List.length]; lia]).
    unfold block_first, block_last in Hr1. cbn [fst snd] in Hr1.
    exists ((r, g) :: blocks). split; [cbn; now f_equal |]. split; [| split; [| split; [| split]]].
    + cbn [ordered_blocks]. split; [unfold block_first; cbn; lia |].
      apply (ordered_blocks_weaken blocks r1 _ r' r'); [| lia | exact Hord].
      unfold block_last. cbn [fst snd]. lia.
    + rewrite Hrg, Hrg1. apply extend_append_ranges.
    + intros k Hk. rewrite Hframe by lia. apply Hframe1. lia.
    + constructor; [| exact Hplaced].
      apply (placed_agree ws1); [| exact Hplaced1].
      intros k. unfold block_first, block_last. cbn [fst snd]. intros Hk.
      apply Hframe. lia.
    + constructor; [| exact Hsub]. cbn [fst].
      apply (has_subtotal_agree ws1); [| exact Hsub1].
      intros c'. apply Hframe. unfold block_last. cbn [fst snd]. lia.
Qed.

(** *** What the loops leave alone, whatever the rows hold *)

(** The loops only move downwards and write at their current row or below:
    this holds for every frame, also one with rows that the row loop
    skips. *)
Lemma write_rows_below (wm : gmap (string * string) cell)
    (hd md pl pv wp : gmap float_id cell) (g : list item) :
  forall (ws ws' : sheet) (r r' : Z),
    write_rows wm hd md pl pv wp g (ws, r) = (ws', r') ->
    (r <= r')%Z /\ (forall k, (fst k < r)%Z -> ws' !! k = ws !! k).
Proof.
  induction g as [|x g IH]; intros ws ws' r r' H.
  - cbn in H. injection H as <- <-. split; [lia | reflexivity].
  - unfold write_rows in H. cbn [fold_left] in H.
    pose proof (fun k => write_data_row_other ws x wm hd md pl pv wp r k) as Hrow.
    destruct (write_data_row ws x wm hd md pl pv wp r) as [ws1 [e|]];
      cbn [fst] in Hrow; destruct (IH _ _ _ _ H) as [Hr Hframe];
      (split; [lia |]); intros k Hk;
      (rewrite Hframe by lia); apply Hrow; lia.
Qed.

Lemma write_category_group_below (wm : gmap (string * string) cell)
    (hd md pl pv wp : gmap float_id cell)
    (ws ws' : sheet) (r r' : Z) (rg rg' : ranges) (group : cell * list item) :
  write_category_group wm hd md pl pv wp (ws, r, rg) group = (ws', r', rg') ->
  (r <= r')%Z /\ (forall k, (fst k < r)%Z -> ws' !! k = ws !! k).
Proof.
  destruct group as [c g]. intros H. unfold write_category_group in H.
  destruct (write_rows wm hd md pl pv wp g (ws, r)) as [ws1 r1] eqn:Erows.
  destruct (write_rows_below _ _ _ _ _ _ _ _ _ _ _ Erows) as [Hr1 Hframe].
  destruct (r1 >? r)%Z; unfold add_blank_row in H; injection H as <- <- <-.
  - split; [lia |]. intros [kr kc] Hk. cbn [fst] in Hk.
    rewrite !lookup_insert_ne by (intros [= ? ?]; lia).
    apply Hframe. cbn. lia.
  - split; [lia | exact Hframe].
Qed.

Lemma write_category_groups_below (wm : gmap (string * string) cell)
    (hd md pl pv wp : gmap float_id cell) (groups : list (cell * list item)) :
  forall (ws ws' : sheet) (r r' : Z) (rg rg' : ranges),
    fold_left (write_category_group wm hd md pl pv wp) groups (ws, r, rg)
    = (ws', r', rg') ->
    (r <= r')%Z /\ (forall k, (fst k < r)%Z -> ws' !! k = ws !! k).
Proof.
  induction groups as [|g groups IH]; intros ws ws' r r' rg rg' H.
  - cbn in H. injection H as <- <- <-. split; [lia | reflexivity].
  - cbn [fold_left] in H.
    destruct (write_category_group wm hd md pl pv wp (ws, r, rg) g)
      as [[ws1 r1] rg1] eqn:E1.
    destruct (write_category_group_below _ _ _ _ _ _ _ _ _ _ _ _ _ E1)
      as [Hr1 Hframe1].
    destruct (IH _ _ _ _ _ _ H) as [Hr Hframe].
    split; [lia |]. intros k Hk. rewrite Hframe by lia. now apply Hframe1.
Qed.

(** A row whose quantity is infinite or missing is skipped: [int] raises
    after the four text cells, the number cells of the sheet row stay as
    they were, and the loop goes on at the same sheet row. *)
Lemma write_rows_skips (wm : gmap (string * string) cell)
    (hd md pl pv wp : gmap float_id cell) (ws : sheet) (row : item) (r : Z) :
  writable row = false ->
  exists e,
    snd (write_data_row ws row wm hd md pl pv wp r) = Some e
    /\ write_rows wm hd md pl pv wp [row] (ws, r)
       = (fst (write_data_row ws row wm hd md pl pv wp r), r)
    /\ forall c, (5 <= c <= 7)%Z ->
         fst (write_data_row ws row wm hd md pl pv wp r) !! (r, c) = ws !! (r, c).
Proof.
  intros H.
  assert (exists e, py_int (QUANTITY row) = Raise e) as [e He].
  { unfold writable in H. destruct (QUANTITY row); try discriminate H;
      eexists; reflexivity. }
  exists e. unfold write_rows, write_data_row. cbn [fold_left].
  rewrite He. cbn [fst snd]. split; [reflexivity |]. split; [reflexivity |].
  intros c Hc. rewrite !lookup_insert_ne by (intros [= ?]; lia). reflexivity.
Qed.

(** A QUANTITY text "inf", read as infinity, stays infinite through
    [fillna(0)], and its row takes no row of the sheet. *)
Lemma infinite_quantity_skipped (wm : gmap (string * string) cell)
    (hd md pl pv wp : gmap float_id cell) (ws : sheet) (row : item) (r : Z) :
  QUANTITY row = coerce_quantity decimal_of_text (CStr "inf") ->
  QUANTITY row = S754_infinity false
  /\ snd (write_rows wm hd md pl pv wp [row] (ws, r)) = r.
Proof.
  intros H. split; [exact H |].
  destruct (write_rows_skips wm hd md pl pv wp ws row r) as (e & _ & -> & _);
    [unfold writable; now rewrite H | reflexivity].
Qed.

(** ** Grouping *)

Lemma add_to_group_perm {K} (eqb : K -> K -> bool) (k : K) (x : item)
    (groups : list (K * list item)) :
  Permutation (concat (map snd (add_to_group eqb k x groups)))
              (x :: concat (map snd groups)).
Proof.
  induction groups as [|[k' g] groups IH]; cbn [add_to_group].
  - reflexivity.
  - destruct (eqb k k'); cbn [map concat snd].
    + rewrite <- List.app_assoc. cbn [app].
      symmetry. apply Permutation_middle.
    + rewrite IH. symmetry.
      exact (Permutation_middle g (concat (map snd groups)) x).
Qed.

(** Grouping neither drops nor repeats a row that has a key. *)
Lemma groupby_perm {K} (eqb : K -> K -> bool) (key : item -> option K)
    (l : list item) :
  Permutation (concat (map snd (groupby eqb key l)))
              (List.filter (fun x => match key x with Some _ => true | None => false end) l).
Proof.
  unfold groupby. induction l as [|x l IH] using rev_ind; [reflexivity |].
  rewrite fold_left_app, List.filter_app. cbn [fold_left List.filter].
  destruct (key x) as [k|].
  - rewrite add_to_group_perm, IH. apply Permutation_cons_append.
  - now rewrite List.app_nil_r.
Qed.

Lemma add_to_group_cases {K} (eqb : K -> K -> bool) (k : K) (x : item)
    (groups : list (K * list item)) :
  (Forall (fun kg => eqb k (fst kg) = false) groups
   /\ add_to_group eqb k x groups = (groups ++ [(k, [x])])%list)
  \/ (exists pre k' g post,
        groups = (pre ++ (k', g) :: post)%list
        /\ Forall (fun kg => eqb k (fst kg) = false) pre
        /\ eqb k k' = true
        /\ add_to_group eqb k x groups = (pre ++ (k', (g ++ [x])%list) :: post)%list).
Proof.
  induction groups as [|[k' g] groups IH]; cbn [add_to_group].
  - left. split; [constructor | reflexivity].
  - destruct (eqb k k') eqn:E.
    + right. exists [], k', g, groups. repeat split; auto.
    + destruct IH as [[Hmiss ->] | (pre & k'' & g'' & post & -> & Hpre & Hhit & ->)].
      * left. split; [constructor; [exact E | exact Hmiss] | reflexivity].
      * right. exists ((k', g) :: pre), k'', g'', post.
        repeat split; auto.
Qed.

Lemma filter_nil_iff {A} (f : A -> bool) (l : list A) :
  List.filter f l = [] <-> Forall (fun x => f x = false) l.
Proof.
  induction l as [|x l IH]; cbn [List.filter].
  - split; [constructor | reflexivity].
  - destruct (f x) eqn:E; split; intros H.
    + discriminate H.
    + inversion H; subst. congruence.
    + constructor; [exact E | now apply IH].
    + inversion H; subst. now apply IH.
Qed.

Lemma ForallOrdPairs_app {A} (R : A -> A -> Prop) (l l' : list A) :
  ForallOrdPairs R l -> ForallOrdPairs R l' ->
  (forall a b, In a l -> In b l' -> R a b) ->
  ForallOrdPairs R (l ++ l').
Proof.
  intros Hl Hl' Hcross. induction Hl as [|a l Ha Hl IH]; [exact Hl' |].
  cbn [app]. constructor.
  - apply List.Forall_app. split; [exact Ha |].
    apply List.Forall_forall. intros b Hb. apply Hcross; [now left | exact Hb].
  - apply IH. intros x y Hx Hy. apply Hcross; [now right | exact Hy].
Qed.

Lemma ForallOrdPairs_app_inv {A} (R : A -> A -> Prop) (l l' : list A) :
  ForallOrdPairs R (l ++ l') ->
  ForallOrdPairs R l /\ ForallOrdPairs R l'
  /\ (forall a b, In a l -> In b l' -> R a b).
Proof.
  induction l as [|a l IH]; cbn [app]; intros H.
  - repeat split; [constructor | exact H | intros a b []].
  - inversion H as [|? ? Ha Hrest]; subst.
    destruct (IH Hrest) as (H1 & H2 & H3).
    apply List.Forall_app in Ha. destruct Ha as [Ha1 Ha2].
    repeat split; [constructor; assumption | exact H2 |].
    intros x y [<- | Hx] Hy; [| now apply H3].
    rewrite List.Forall_forall in Ha2. now apply Ha2.
Qed.

Section Grouping.

Context {K : Type} (eqb : K -> K -> bool) (key : item -> option K).
Hypothesis eqb_sym : forall a b, eqb a b = eqb b a.
Hypothesis eqb_trans : forall a b c, eqb a b = true -> eqb b c = true -> eqb a c = true.

Lemma has_key_filter_app (k : K) (p : list item) (x : item) :
  List.filter (has_key eqb key k) (p ++ [x])
  = (List.filter (has_key eqb key k) p
     ++ (if has_key eqb key k x then [x] else []))%list.
Proof.
  rewrite List.filter_app. cbn [List.filter].
  destruct (has_key eqb key k x); reflexivity.
Qed.

Lemma grouped_step (p : list item) (x : item) (groups : list (K * list item)) :
  (forall k, key x = Some k -> eqb k k = true) ->
  grouped eqb key p groups ->
  grouped eqb key (p ++ [x])
          (match key x with
           | Some k => add_to_group eqb k x groups
           | None => groups
           end).
Proof.
  intros Hrefl (Hgroups & Hpairs & Hcover).
  destruct (key x) as [k|] eqn:Ekey.
  2:{ split; [| split].
      - eapply List.Forall_impl; [| exact Hgroups]. intros kg [H1 H2].
        split; [| exact H2]. rewrite has_key_filter_app.
        unfold has_key at 2. rewrite Ekey, List.app_nil_r. exact H1.
      - exact Hpairs.
      - intros y ky Hy Hky. apply in_app_or in Hy.
        destruct Hy as [Hy | [<- | []]]; [eauto | congruence]. }
  specialize (Hrefl k eq_refl).
  assert (forall k', has_key eqb key k' x = eqb k k') as Hx
    by (intros k'; unfold has_key; now rewrite Ekey).
  destruct (add_to_group_cases eqb k x groups)
    as [[Hmiss ->] | (pre & k' & g & post & -> & Hpre & Hhit & ->)].
  - (* a new group, appended *)
    split; [| split].
    + apply List.Forall_app. split.
      * rewrite List.Forall_forall in Hgroups, Hmiss |- *.
        intros kg Hin. destruct (Hgroups kg Hin) as [H1 H2].
        split; [| exact H2]. rewrite has_key_filter_app, Hx, (Hmiss kg Hin).
        now rewrite List.app_nil_r.
      * constructor; [| constructor]. cbn [fst snd]. split; [| discriminate].
        rewrite has_key_filter_app, Hx, Hrefl.
        assert (List.filter (has_key eqb key k) p = []) as ->; [| reflexivity].
        apply filter_nil_iff, List.Forall_forall. intros y Hy.
        unfold has_key. destruct (key y) as [ky|] eqn:Eky; [| reflexivity].
        destruct (eqb ky k) eqn:E; [| reflexivity]. exfalso.
        destruct (Hcover y ky Hy Eky) as (kg & Hin & Hkg).
        rewrite List.Forall_forall in Hmiss. specialize (Hmiss kg Hin).
        rewrite eqb_sym in E.
        rewrite (eqb_trans k ky (fst kg) E Hkg) in Hmiss. discriminate.
    + apply ForallOrdPairs_app; [exact Hpairs | repeat constructor |].
      intros a b Ha [<- | []]. cbn [fst].
      rewrite List.Forall_forall in Hmiss. rewrite eqb_sym. now apply Hmiss.
    + intros y ky Hy Hky. apply in_app_or in Hy. destruct Hy as [Hy | [<- | []]].
      * destruct (Hcover y ky Hy Hky) as (kg & Hin & Hkg).
        exists kg. split; [apply in_or_app; now left | exact Hkg].
      * exists (k, [x]). split; [apply in_or_app; right; now left |].
        cbn [fst]. congruence.
  - (* the row joins the first group with an equal key *)
    apply ForallOrdPairs_app_inv in Hpairs.
    destruct Hpairs as (Hpp & Hpost & Hcross).
    inversion Hpost as [|? ? Hk'post Hpostpairs]; subst.
    apply List.Forall_app in Hgroups. destruct Hgroups as [Hgpre Hgpost].
    inversion Hgpost as [|? ? Hg Hgrest]; subst. cbn [fst snd] in Hg.
    assert (Forall (fun kg => eqb k (fst kg) = false) post) as Hpostmiss.
    { rewrite List.Forall_forall in Hk'post |- *. intros kg Hin.
      specialize (Hk'post kg Hin). cbn [fst] in Hk'post.
      destruct (eqb k (fst kg)) eqn:E; [| reflexivity].
      rewrite eqb_sym in Hhit.
      rewrite (eqb_trans k' k (fst kg) Hhit E) in Hk'post. discriminate. }
    split; [| split].
    + apply List.Forall_app. split; [| constructor].
      * rewrite List.Forall_forall in Hgpre, Hpre |- *.
        intros kg Hin. destruct (Hgpre kg Hin) as [H1 H2].
        split; [| exact H2]. rewrite has_key_filter_app, Hx, (Hpre kg Hin).
        now rewrite List.app_nil_r.
      * cbn [fst snd]. destruct Hg as [H1 H2]. split.
        -- rewrite has_key_filter_app, Hx, Hhit. now rewrite H1.
        -- destruct g; discriminate.
      * rewrite List.Forall_forall in Hgrest, Hpostmiss |- *.
        intros kg Hin. destruct (Hgrest kg Hin) as [H1 H2].
        split; [| exact H2]. rewrite has_key_filter_app, Hx, (Hpostmiss kg Hin).
        now rewrite List.app_nil_r.
    + apply ForallOrdPairs_app; [exact Hpp | constructor; assumption |].
      intros a b Ha [<- | Hb].
      * exact (Hcross a (k', g) Ha (or_introl eq_refl)).
      * exact (Hcross a b Ha (or_intror Hb)).
    + intros y ky Hy Hky. apply in_app_or in Hy. destruct Hy as [Hy | [<- | []]].
      * destruct (Hcover y ky Hy Hky) as (kg & Hin & Hkg).
        apply in_app_or in Hin. destruct Hin as [Hin | [<- | Hin]].
        -- exists kg. split; [apply in_or_app; now left | exact Hkg].
        -- exists (k', (g ++ [x])%list).
           split; [apply in_or_app; right; now left | exact Hkg].
        -- exists kg. split; [apply in_or_app; right; now right | exact Hkg].
      * exists (k', (g ++ [x])%list).
        split; [apply in_or_app; right; now left |].
        cbn [fst]. congruence.
Qed.

Lemma groupby_grouped (l : list item) :
  (forall x k, In x l -> key x = Some k -> eqb k k = true) ->
  grouped eqb key l (groupby eqb key l).
Proof.
  unfold groupby. induction l as [|x l IH] using rev_ind; intros Hrefl.
  - cbn. repeat split; [constructor | constructor | intros x k []].
  - rewrite fold_left_app. cbn [fold_left]. apply grouped_step.
    + intros k Hk. apply (Hrefl x k); [apply in_or_app; right; now left | exact Hk].
    + apply IH. intros y k Hy. apply Hrefl, in_or_app. now left.
Qed.

End Grouping.

Lemma brand_groups (l : list item) :
  grouped String.eqb brand_key l (groupby String.eqb brand_key l).
Proof.
  apply groupby_grouped.
  - apply String.eqb_sym.
  - intros a b c H1 H2. apply String.eqb_eq in H1, H2. subst. apply String.eqb_refl.
  - intros x k _ _. apply String.eqb_refl.
Qed.

Lemma category_groups (l : list item) :
  grouped cell_eqb category_key l (groupby cell_eqb category_key l).
Proof.
  apply groupby_grouped.
  - apply cell_eqb_sym.
  - apply cell_eqb_trans.
  - intros x k _. unfold category_key.
    destruct (isna (CATEGORY_NORM x)) eqn:E; [discriminate |].
    intros [= <-]. apply cell_eqb_refl, E.
Qed.

Lemma grouped_nonempty {K} (eqb : K -> K -> bool) (key : item -> option K)
    (l : list item) (groups : list (K * list item)) :
  grouped eqb key l groups -> Forall (fun g => snd g <> []) groups.
Proof.
  intros (H & _). eapply List.Forall_impl; [| exact H]. now intros kg [_ Hne].
Qed.

(** What holds of every row holds of every row of every group. *)
Lemma groupby_Forall {K} (eqb : K -> K -> bool) (key : item -> option K)
    (P : item -> Prop) (l : list item) :
  Forall P l -> Forall (fun g => Forall P (snd g)) (groupby eqb key l).
Proof.
  intros H. apply List.Forall_forall. intros g Hg.
  apply List.Forall_forall. intros x Hx.
  assert (In x (concat (map snd (groupby eqb key l)))) as Hin.
  { apply in_concat. exists (snd g). split; [now apply in_map | exact Hx]. }
  apply (Permutation_in _ (groupby_perm eqb key l)) in Hin.
  apply List.filter_In in Hin. destruct Hin as [Hin _].
  rewrite List.Forall_forall in H. now apply H.
Qed.

Lemma Forall_and_both {A} (P Q : A -> Prop) (l : list A) :
  Forall P l -> Forall Q l -> Forall (fun x => P x /\ Q x) l.
Proof.
  intros HP HQ. induction HP as [|x l Hx _ IH]; [constructor |].
  inversion HQ; subst. constructor; [split; assumption | now apply IH].
Qed.

(** ** Brand groups and their totals *)

Lemma write_totals_same (ws : sheet) (n c : Z) (rg : ranges) :
  (5 <= c <= 7)%Z ->
  write_totals ws n rg !! (n, c) = write_totals ∅ n rg !! (n, c).
Proof.
  intros Hc. unfold write_totals.
  assert (c = 5 \/ c = 6 \/ c = 7)%Z as [-> | [-> | ->]] by lia;
    destruct (qty_ranges rg); cells; reflexivity.
Qed.

Lemma write_totals_other (ws : sheet) (n : Z) (rg : ranges) (k : Z * Z) :
  (fst k <> n \/ snd k < 5)%Z -> write_totals ws n rg !! k = ws !! k.
Proof.
  intros Hk. destruct k as [r c]. cbn [fst snd] in Hk. unfold write_totals.
  destruct (qty_ranges rg);
    rewrite !lookup_insert_ne by (intros [= ? ?]; lia); reflexivity.
Qed.

Lemma has_totals_agree (ws ws' : sheet) (n : Z) (label : string)
    (blocks : list block) :
  (forall c, ws' !! (n, c) = ws !! (n, c)) ->
  has_totals ws n label blocks -> has_totals ws' n label blocks.
Proof.
  intros Hagree [H1 H2]. split; [now rewrite Hagree |].
  intros c Hc. rewrite Hagree. exact (H2 c Hc).
Qed.

Lemma ordered_blocks_bounds (blocks : list block) :
  forall lo hi,
    Forall (fun b => snd b <> []) blocks ->
    ordered_blocks lo blocks hi ->
    Forall (fun b => (lo <= block_first b)%Z /\ (block_last b + 2 <= hi)%Z) blocks.
Proof.
  induction blocks as [|b blocks IH]; intros lo hi Hne Hord; [constructor |].
  inversion Hne as [|? ? Hb Hrest]; subst. cbn in Hord. destruct Hord as [H1 H2].
  pose proof (ordered_blocks_le blocks _ _ Hrest H2) as Hle.
  constructor; [split; [exact H1 | exact Hle] |].
  eapply List.Forall_impl; [| exact (IH _ _ Hrest H2)].
  intros b' [Hlo Hhi]. split; [| exact Hhi].
  unfold block_first, block_last in *. destruct b as [s g]. cbn [fst snd] in *.
  destruct g; [now contradiction Hb | cbn [List.length] in *; lia].
Qed.

Lemma extend_no_ranges (rg : ranges) : extend_ranges no_ranges rg = rg.
Proof. destruct rg. reflexivity. Qed.

Lemma ranges_of_app (a b : list block) :
  ranges_of (a ++ b) = extend_ranges (ranges_of a) (ranges_of b).
Proof. unfold ranges_of, extend_ranges. cbn. now rewrite !map_app. Qed.

Lemma extend_ranges_assoc (a b c : ranges) :
  extend_ranges (extend_ranges a b) c = extend_ranges a (extend_ranges b c).
Proof. unfold extend_ranges. cbn. now rewrite <- !List.app_assoc. Qed.

Lemma blocks_nonempty {A} (blocks : list block) (groups : list (A * list item)) :
  map snd blocks = map snd groups ->
  Forall (fun g => snd g <> []) groups ->
  Forall (fun b => snd b <> []) blocks.
Proof.
  intros Hmap Hne. apply List.Forall_forall. intros b Hb.
  assert (In (snd b) (map snd groups)) as Hin by (rewrite <- Hmap; now apply in_map).
  apply in_map_iff in Hin. destruct Hin as (g & Eg & Hg).
  rewrite List.Forall_forall in Hne. rewrite <- Eg. now apply Hne.
Qed.

Lemma Forall2_pair {A B} (R : A -> B -> Prop) (f : B -> list item)
    (g : A -> list item) (l : list A) (l' : list B) :
  map f l' = map g l -> Forall2 R l l' ->
  Forall2 (fun a b => f b = g a /\ R a b) l l'.
Proof.
  intros Hmap H. induction H as [|a b l l' Hab _ IH]; [constructor |].
  cbn [map] in Hmap. injection Hmap as Hhead Htail.
  constructor; [split; assumption | exact (IH Htail)].
Qed.

Lemma Forall2_snd {A} (R : A -> block -> Prop) (l : list (A * list item))
    (l' : list block) :
  Forall2 (fun g b => snd b = snd g /\ R (fst g) b) l l' ->
  map snd l' = map snd l.
Proof.
  induction 1 as [|a b l l' [Hab _] _ IH]; [reflexivity |].
  cbn [map]. now f_equal.
Qed.

(** One brand group with at least one row. *)
Lemma write_brand_group_spec (wm : gmap (string * string) cell)
    (hd md pl pv wp : gmap float_id cell)
    (ws ws' : sheet) (r r' : Z) (all all' : ranges) (b : string) (g : list item) :
  g <> [] ->
  Forall (fun row => writable row = true) g ->
  write_brand_group wm hd md pl pv wp (ws, r, all) (b, g) = (ws', r', all') ->
  exists blocks,
    ordered_blocks r blocks (r' - 2)
    /\ Forall (fun b => snd b <> []) blocks
    /\ all' = extend_ranges all (ranges_of blocks)
    /\ (forall k, (fst k < r \/ r' <= fst k)%Z -> ws' !! k = ws !! k)
    /\ Forall (placed ws' wm hd md pl pv wp) blocks
    /\ brand_written ws' r r' (b, g) blocks.
Proof.
  intros Hne Hfin H. unfold write_brand_group in H.
  destruct (fold_left (write_category_group wm hd md pl pv wp)
                      (groupby cell_eqb category_key g) (ws, r, no_ranges))
    as [[ws1 r1] rg1] eqn:E.
  pose proof (grouped_nonempty _ _ _ _ (category_groups g)) as Hgne.
  pose proof (Forall_and_both _ _ _ Hgne
                (groupby_Forall cell_eqb category_key _ g Hfin)) as Hgfin.
  destruct (write_category_groups_spec _ _ _ _ _ _ _ Hgfin _ _ _ _ _ _ E)
    as (blocks & Hmap & Hord & Hrg & Hframe & Hplaced & Hsub).
  rewrite extend_no_ranges in Hrg. subst rg1.
  pose proof (blocks_nonempty _ _ Hmap Hgne) as Hbne.
  pose proof (ordered_blocks_bounds _ _ _ Hbne Hord) as Hbounds.
  pose proof (ordered_blocks_le _ _ _ Hbne Hord) as Hle.
  assert ((0 <? List.length g)%nat = true) as Hlen
    by (destruct g; [now contradiction Hne | reflexivity]).
  rewrite Hlen in H. unfold add_blank_row in H.
  set (wsF := write_totals _ _ _) in H. injection H as <- <- <-.
  assert (forall k, (fst k < r1)%Z -> wsF !! k = ws1 !! k) as Hbelow.
  { intros [kr kc] Hk. cbn [fst] in Hk. unfold wsF.
    rewrite write_totals_other by (cbn; lia).
    rewrite lookup_insert_ne by (intros [= ? ?]; lia). reflexivity. }
  assert (has_totals wsF r1 ("BRAND TOTAL: " ++ b) blocks) as Htot.
  { unfold wsF. split.
    - rewrite write_totals_other by (cbn; lia). apply lookup_insert_eq.
    - intros c Hc. apply write_totals_same, Hc. }
  assert (forall k, (fst k < r \/ r1 + 1 + 1 <= fst k)%Z ->
            wsF !! k = ws !! k) as Hout.
  { intros [kr kc] Hk. cbn [fst] in Hk. unfold wsF.
    rewrite write_totals_other by (cbn; lia).
    rewrite lookup_insert_ne by (intros [= ? ?]; lia).
    apply Hframe. cbn. lia. }
  clearbody wsF.
  exists blocks. split; [| split; [| split; [| split; [| split]]]].
  - replace (r1 + 1 + 1 - 2)%Z with r1 by lia. exact Hord.
  - exact Hbne.
  - reflexivity.
  - exact Hout.
  - rewrite List.Forall_forall in Hplaced, Hbounds |- *. intros blk Hin.
    apply (placed_agree ws1); [| now apply Hplaced].
    intros k Hk. apply Hbelow. destruct (Hbounds blk Hin). lia.
  - unfold brand_written. cbn [fst snd]. split.
    + apply (Forall2_pair _ snd snd) in Hsub; [| exact Hmap].
      clear Hmap Hplaced Hord Hbne E Hgne Hgfin Htot.
      induction Hsub as [|cg blk gs bs [Hs Hsubt] _ IH]; [constructor |].
      inversion Hbounds as [|? ? Hb Hrest]; subst.
      constructor; [| exact (IH Hrest)]. split; [exact Hs |].
      apply (has_subtotal_agree ws1); [| exact Hsubt].
      intros c. apply Hbelow. cbn [fst]. lia.
    + exists r1. split; [lia | exact Htot].
Qed.

Lemma brand_written_agree (ws ws' : sheet) (lo hi lo' hi' : Z)
    (group : string * list item) (blocks : list block) :
  (lo' <= lo)%Z -> (hi <= hi')%Z ->
  Forall (fun b => (block_last b + 2 <= hi)%Z) blocks ->
  (forall k, (fst k < hi)%Z -> ws' !! k = ws !! k) ->
  brand_written ws lo hi group blocks -> brand_written ws' lo' hi' group blocks.
Proof.
  intros Hlo Hhi Hbounds Hagree [Hsub (n & Hn & Htot)]. split.
  - clear Htot. induction Hsub as [|cg blk gs bs [Hs Hsubt] _ IH]; [constructor |].
    inversion Hbounds as [|? ? Hb Hrest]; subst.
    constructor; [| exact (IH Hrest)]. split; [exact Hs |].
    apply (has_subtotal_agree ws); [| exact Hsubt].
    intros c. apply Hagree. cbn [fst]. lia.
  - exists n. split; [lia |]. apply (has_totals_agree ws); [| exact Htot].
    intros c. apply Hagree. cbn [fst]. lia.
Qed.

(** The loop over the brand groups. *)
Lemma write_brand_groups_spec (wm : gmap (string * string) cell)
    (hd md pl pv wp : gmap float_id cell)
    (groups : list (string * list item)) :
  Forall (fun g => snd g <> []
                    /\ Forall (fun row => writable row = true) (snd g)) groups ->
  forall (ws ws' : sheet) (r r' : Z) (all all' : ranges),
    fold_left (write_brand_group wm hd md pl pv wp) groups (ws, r, all)
    = (ws', r', all') ->
    exists blockss,
      Forall2 (brand_written ws' r r') groups blockss
      /\ ordered_blocks r (concat blockss) r'
      /\ Forall (fun b => snd b <> []) (concat blockss)
      /\ all' = extend_ranges all (ranges_of (concat blockss))
      /\ (forall k, (fst k < r \/ r' <= fst k)%Z -> ws' !! k = ws !! k)
      /\ Forall (placed ws' wm hd md pl pv wp) (concat blockss).
Proof.
  induction 1 as [|[b g] groups [Hg Hfin] Hrest IH];
    intros ws ws' r r' all all' H.
  - cbn in H. injection H as <- <- <-. exists []. cbn.
    rewrite extend_ranges_nil. repeat split; auto; try constructor; lia.
  - cbn [fold_left] in H. cbn [snd] in Hg, Hfin.
    destruct (write_brand_group wm hd md pl pv wp (ws, r, all) (b, g))
      as [[ws1 r1] all1] eqn:E1.
    destruct (write_brand_group_spec _ _ _ _ _ _ _ _ _ _ _ _ _ _ Hg Hfin E1)
      as (blocks & Hord1 & Hne1 & Hall1 & Hframe1 & Hplaced1 & Hwritten1).
    destruct (IH _ _ _ _ _ _ H)
      as (blockss & Hwritten & Hord & Hne & Hall & Hframe & Hplaced).
    pose proof (ordered_blocks_le _ _ _ Hne Hord) as Hle.
    pose proof (ordered_blocks_le _ _ _ Hne1 Hord1) as Hle1.
    pose proof (ordered_blocks_bounds _ _ _ Hne1 Hord1) as Hbounds1.
    exists (blocks :: blockss). cbn [concat].
    split; [| split; [| split; [| split; [| split]]]].
    + constructor.
      * apply (brand_written_agree ws1 ws' r r1 r r'); try lia.
        -- eapply List.Forall_impl; [| exact Hbounds1]. intros blk [_ Hb]. lia.
        -- intros k Hk. apply Hframe. lia.
        -- exact Hwritten1.
      * eapply Forall2_impl; [exact Hwritten |].
        intros bg bs [Hs (n & Hn & Ht)]. split; [exact Hs |].
        exists n. split; [lia | exact Ht].
    + apply (ordered_blocks_app blocks (concat blockss) r r1 r');
        [| exact Hord].
      apply (ordered_blocks_weaken blocks r r (r1 - 2) r1); [lia | lia | exact Hord1].
    + apply List.Forall_app. split; assumption.
    + rewrite Hall, Hall1, ranges_of_app. apply extend_ranges_assoc.
    + intros k Hk. rewrite Hframe by lia. apply Hframe1. lia.
    + apply List.Forall_app. split; [| exact Hplaced].
      rewrite List.Forall_forall in Hplaced1, Hbounds1 |- *. intros blk Hin.
      apply (placed_agree ws1); [| now apply Hplaced1].
      intros k Hk. apply Hframe. destruct (Hbounds1 blk Hin). lia.
Qed.

(** The brand loop only moves downwards and writes at its current row or
    below, whatever the rows hold. *)
Lemma write_brand_group_below (wm : gmap (string * string) cell)
    (hd md pl pv wp : gmap float_id cell)
    (ws ws' : sheet) (r r' : Z) (all all' : ranges) (group : string * list item) :
  write_brand_group wm hd md pl pv wp (ws, r, all) group = (ws', r', all') ->
  (r <= r')%Z /\ (forall k, (fst k < r)%Z -> ws' !! k = ws !! k).
Proof.
  destruct group as [b g]. intros H. unfold write_brand_group in H.
  destruct (fold_left (write_category_group wm hd md pl pv wp)
                      (groupby cell_eqb category_key g) (ws, r, no_ranges))
    as [[ws1 r1] rg1] eqn:E.
  destruct (write_category_groups_below _ _ _ _ _ _ _ _ _ _ _ _ _ E)
    as [Hr1 Hframe].
  destruct (0 <? List.length g)%nat; unfold add_blank_row in H;
    injection H as <- <- <-.
  - split; [lia |]. intros [kr kc] Hk. cbn [fst] in Hk.
    rewrite write_totals_other by (cbn; lia).
    rewrite lookup_insert_ne by (intros [= ? ?]; lia).
    apply Hframe. cbn. lia.
  - split; [lia | exact Hframe].
Qed.

Lemma write_brand_groups_below (wm : gmap (string * string) cell)
    (hd md pl pv wp : gmap float_id cell) (groups : list (string * list item)) :
  forall (ws ws' : sheet) (r r' : Z) (all all' : ranges),
    fold_left (write_brand_group wm hd md pl pv wp) groups (ws, r, all)
    = (ws', r', all') ->
    (r <= r')%Z /\ (forall k, (fst k < r)%Z -> ws' !! k = ws !! k).
Proof.
  induction groups as [|g groups IH]; intros ws ws' r r' all all' H.
  - cbn in H. injection H as <- <- <-. split; [lia | reflexivity].
  - cbn [fold_left] in H.
    destruct (write_brand_group wm hd md pl pv wp (ws, r, all) g)
      as [[ws1 r1] all1] eqn:E1.
    destruct (write_brand_group_below _ _ _ _ _ _ _ _ _ _ _ _ _ E1)
      as [Hr1 Hframe1].
    destruct (IH _ _ _ _ _ _ H) as [Hr Hframe].
    split; [lia |]. intros k Hk. rewrite Hframe by lia. now apply Hframe1.
Qed.

(** ** The report as a whole *)

Lemma generate_unique_order_id_nonempty (now : datetime)
    (counters : option (gmap string Z)) :
  or_na (fst (generate_unique_order_id now counters))
  = fst (generate_unique_order_id now counters).
Proof.
  unfold generate_unique_order_id. destruct counters as [m|]; [| reflexivity].
  cbn [fst]. destruct (strftime_m_y now); reflexivity.
Qed.

(** The parts of the report: the head of the sheet, the brand loop, and
    the rows written after it. *)
Lemma write_report_parts (df : list item) (output_file : string)
    (wm : gmap (string * string) cell) (hd md pl pv wp : gmap float_id cell)
    (username dealer_name city order_date freight_condition : string)
    (now : datetime) (generated_at : string)
    (counters : option (gmap string Z)) (sale_orders : option (list sale_order)) :
  let rp := write_report df output_file wm hd md pl pv wp username dealer_name
                         city order_date freight_condition now generated_at
                         counters sale_orders in
  let unique_id := fst (generate_unique_order_id now counters) in
  exists (ws0 ws1 : sheet) (r1 : Z) (all_ranges : ranges),
    map (fun n => (ws0 !! (n, 1%Z), ws0 !! (n, 2%Z))) [4; 5; 6; 7; 8]%Z
    = map (fun e => (Some (XlStr (fst e)), Some (XlStr (or_na (snd e)))))
          [("DATE", order_date); ("DEALER NAME", dealer_name); ("CITY", city);
           ("FREIGHT CONDITION", freight_condition); ("ORDER ID", unique_id)]
    /\ map (fun c => ws0 !! (10%Z, c)) [1; 2; 3; 4; 5; 6; 7]%Z
       = map (fun h => Some (XlStr h)) headers
    /\ fold_left (write_brand_group wm hd md pl pv wp)
                 (groupby String.eqb brand_key df) (ws0, 11%Z, no_ranges)
       = (ws1, r1, all_ranges)
    /\ next_row rp = (r1 + 3)%Z
    /\ (forall k, (fst k < r1)%Z -> saved rp !! k = ws1 !! k)
    /\ saved rp !! ((r1 + 1)%Z, 1%Z) = Some (XlStr "GRAND TOTAL")
    /\ (forall c, (5 <= c <= 7)%Z ->
          saved rp !! ((r1 + 1)%Z, c)
          = write_totals ∅ (r1 + 1) all_ranges !! ((r1 + 1)%Z, c))
    /\ counters_after rp = snd (generate_unique_order_id now counters)
    /\ sale_orders_after rp
       = log_order_to_database username dealer_name city unique_id
                               (basename output_file) generated_at sale_orders.
Proof.
  intros rp unique_id. subst rp unique_id. unfold write_report.
  destruct (generate_unique_order_id now counters) as [id db'].
  cbn [fold_left enumerate headers fst snd].
  change (1 + 1)%Z with 2%Z. change (2 + 1)%Z with 3%Z.
  change (3 + 1)%Z with 4%Z. change (4 + 1)%Z with 5%Z.
  change (5 + 1)%Z with 6%Z. change (6 + 1)%Z with 7%Z.
  change (7 + 1)%Z with 8%Z. change (8 + 1)%Z with 9%Z.
  change (9 + 1)%Z with 10%Z. change (10 + 1)%Z with 11%Z.
  match goal with
  | |- context [fold_left (write_brand_group wm hd md pl pv wp) _ (?w, _, _)] =>
      set (ws0 := w)
  end.
  destruct (fold_left (write_brand_group wm hd md pl pv wp)
                      (groupby String.eqb brand_key df) (ws0, 11%Z, no_ranges))
    as [[ws1 r1] all_ranges] eqn:E.
  unfold add_separator_row. cbn [fold_left saved next_row counters_after
                                 sale_orders_after].
  exists ws0, ws1, r1, all_ranges.
  split; [| split; [| split; [| split; [| split; [| split; [| split; [| split]]]]]]].
  - unfold ws0. cbn [map fst snd]. cells. reflexivity.
  - unfold ws0. cbn [map]. cells. reflexivity.
  - exact E.
  - lia.
  - intros [kr kc] Hk. cbn [fst] in Hk.
    rewrite lookup_insert_ne by (intros [= ? ?]; lia).
    rewrite write_totals_other by (cbn; lia).
    rewrite !lookup_insert_ne by (intros [= ? ?]; lia). reflexivity.
  - rewrite lookup_insert_ne by (intros [= ?]; lia).
    rewrite write_totals_other by (cbn; lia). apply lookup_insert_eq.
  - intros c Hc. rewrite lookup_insert_ne by (intros [= ? ?]; lia).
    apply write_totals_same, Hc.
  - reflexivity.
  - reflexivity.
Qed.

Lemma agree_below_placed (ws ws' : sheet)
    (wm : gmap (string * string) cell) (hd md pl pv wp : gmap float_id cell)
    (lo hi : Z) (blocks : list block) :
  Forall (fun b => snd b <> []) blocks ->
  ordered_blocks lo blocks hi ->
  (forall k, (fst k < hi)%Z -> ws' !! k = ws !! k) ->
  Forall (placed ws wm hd md pl pv wp) blocks ->
  Forall (placed ws' wm hd md pl pv wp) blocks.
Proof.
  intros Hne Hord Hagree Hplaced.
  pose proof (ordered_blocks_bounds _ _ _ Hne Hord) as Hbounds.
  rewrite List.Forall_forall in Hplaced, Hbounds |- *. intros blk Hin.
  apply (placed_agree ws); [| now apply Hplaced].
  intros k Hk. apply Hagree. destruct (Hbounds blk Hin). lia.
Qed.

(** What the sheet holds below its head when every row has a finite
    quantity: for every brand group its blocks, subtotal rows and total row,
    and the grand total over all blocks. *)
Lemma write_report_body (df : list item) (output_file : string)
    (wm : gmap (string * string) cell) (hd md pl pv wp : gmap float_id cell)
    (username dealer_name city order_date freight_condition : string)
    (now : datetime) (generated_at : string)
    (counters : option (gmap string Z)) (sale_orders : option (list sale_order)) :
  Forall (fun row => writable row = true) df ->
  let rp := write_report df output_file wm hd md pl pv wp username dealer_name
                         city order_date freight_condition now generated_at
                         counters sale_orders in
  exists (blockss : list (list block)) (r1 : Z),
    next_row rp = (r1 + 3)%Z
    /\ Forall2 (brand_written (saved rp) 11 r1)
               (groupby String.eqb brand_key df) blockss
    /\ ordered_blocks 11 (concat blockss) r1
    /\ Forall (fun b => snd b <> []) (concat blockss)
    /\ Forall (placed (saved rp) wm hd md pl pv wp) (concat blockss)
    /\ has_totals (saved rp) (r1 + 1) "GRAND TOTAL" (concat blockss).
Proof.
  intros Hfin rp.
  destruct (write_report_parts df output_file wm hd md pl pv wp username
              dealer_name city order_date freight_condition now generated_at
              counters sale_orders)
    as (ws0 & ws1 & r1 & all_ranges & _ & _ & Hfold & Hnext & Hbelow & Hlabel
        & Htotals & _ & _).
  fold rp in Hnext, Hbelow, Hlabel, Htotals.
  pose proof (grouped_nonempty _ _ _ _ (brand_groups df)) as Hgne.
  pose proof (Forall_and_both _ _ _ Hgne
                (groupby_Forall String.eqb brand_key _ df Hfin)) as Hgfin.
  destruct (write_brand_groups_spec _ _ _ _ _ _ _ Hgfin _ _ _ _ _ _ Hfold)
    as (blockss & Hwritten & Hord & Hne & Hall & Hframe & Hplaced).
  rewrite extend_no_ranges in Hall. subst all_ranges.
  pose proof (ordered_blocks_bounds _ _ _ Hne Hord) as Hbounds.
  exists blockss, r1. split; [exact Hnext |]. split; [| split; [| split; [| split]]].
  - clear Hplaced Hord Hne Hfold Htotals Hgne Hgfin Hframe.
    induction Hwritten as [|bg bs bgs bss Hbg _ IH]; [constructor |].
    cbn [concat] in Hbounds. apply List.Forall_app in Hbounds.
    destruct Hbounds as [Hb1 Hb2].
    constructor; [| exact (IH Hb2)].
    apply (brand_written_agree ws1 (saved rp) 11 r1 11 r1); try lia; auto.
    eapply List.Forall_impl; [| exact Hb1]. intros blk [_ H]. exact H.
  - exact Hord.
  - exact Hne.
  - exact (agree_below_placed ws1 (saved rp) _ _ _ _ _ _ 11 r1 _ Hne Hord Hbelow Hplaced).
  - split; [exact Hlabel | exact Htotals].
Qed.

(** ** Sums over the written rows *)

Lemma total_quantity_app (l l' : list item) :
  total_quantity (l ++ l') = (total_quantity l + total_quantity l')%Z.
Proof.
  unfold total_quantity. induction l as [|x l IH]; cbn [app map fold_right];
    [reflexivity | rewrite IH; lia].
Qed.

Lemma total_quantity_perm (l l' : list item) :
  Permutation l l' -> total_quantity l = total_quantity l'.
Proof.
  unfold total_quantity.
  induction 1 as [| x l l' _ IH | x y l | l l' l'' _ IH1 _ IH2];
    cbn [map fold_right]; lia.
Qed.

Lemma block_rows_cons (s : Z) (x : item) (g : list item) :
  block_rows (s, x :: g) = s :: block_rows ((s + 1)%Z, g).
Proof.
  unfold block_rows. cbn [fst snd List.length seq map]. f_equal; [lia |].
  rewrite <- seq_shift, map_map. apply map_ext. intros i. lia.
Qed.

Lemma placed_cons (ws : sheet)
    (wm : gmap (string * string) cell) (hd md pl pv wp : gmap float_id cell)
    (s : Z) (x : item) (g : list item) :
  placed ws wm hd md pl pv wp (s, x :: g) ->
  is_data_row ws wm hd md pl pv wp s x
  /\ placed ws wm hd md pl pv wp ((s + 1)%Z, g).
Proof.
  intros H. split.
  - specialize (H O x eq_refl). cbn [fst] in H.
    now replace (s + Z.of_nat 0)%Z with s in H by lia.
  - intros i row Hi. specialize (H (S i) row Hi). cbn [fst] in H |- *.
    now replace (s + Z.of_nat (S i))%Z with (s + 1 + Z.of_nat i)%Z in H by lia.
Qed.

Lemma integer_at_data_row (ws : sheet)
    (wm : gmap (string * string) cell) (hd md pl pv wp : gmap float_id cell)
    (n : Z) (row : item) :
  is_data_row ws wm hd md pl pv wp n row ->
  integer_at ws 5 n = quantity_shown row.
Proof.
  intros [Hdone H]. unfold integer_at, quantity_shown. rewrite (H 5%Z) by lia.
  destruct (py_int (QUANTITY row)) as [z|e] eqn:Ez.
  - destruct (write_data_row_cells ∅ row wm hd md pl pv wp n z Ez)
      as (_ & -> & _).
    reflexivity.
  - unfold write_data_row in Hdone. rewrite Ez in Hdone. discriminate Hdone.
Qed.

Lemma placed_sum (ws : sheet)
    (wm : gmap (string * string) cell) (hd md pl pv wp : gmap float_id cell)
    (g : list item) :
  forall s, placed ws wm hd md pl pv wp (s, g) ->
    fold_right Z.add 0%Z (map (integer_at ws 5) (block_rows (s, g)))
    = total_quantity g.
Proof.
  induction g as [|x g IH]; intros s H; [reflexivity |].
  destruct (placed_cons _ _ _ _ _ _ _ _ _ _ H) as [Hx Hg].
  rewrite block_rows_cons. cbn [map fold_right].
  rewrite (IH _ Hg), (integer_at_data_row _ _ _ _ _ _ _ _ _ Hx). reflexivity.
Qed.

(** A SUM over the quantity cells of blocks that are on the sheet adds up
    the quantities of their rows. *)
Lemma sum_blocks_placed (ws : sheet)
    (wm : gmap (string * string) cell) (hd md pl pv wp : gmap float_id cell)
    (blocks : list block) :
  Forall (placed ws wm hd md pl pv wp) blocks ->
  sum_blocks ws 5 blocks = total_quantity (concat (map snd blocks)).
Proof.
  unfold sum_blocks. induction 1 as [|[s g] blocks Hb _ IH]; [reflexivity |].
  cbn [flat_map map concat snd]. rewrite map_app, fold_right_app, total_quantity_app.
  rewrite <- IH. rewrite <- (placed_sum ws wm hd md pl pv wp g s Hb).
  generalize (fold_right Z.add 0%Z
                (map (integer_at ws 5) (flat_map block_rows blocks))).
  intros z. induction (map (integer_at ws 5) (block_rows (s, g))) as [|a l IHl];
    cbn [fold_right]; lia.
Qed.

Lemma Permutation_filter {A} (f : A -> bool) (l l' : list A) :
  Permutation l l' -> Permutation (List.filter f l) (List.filter f l').
Proof.
  induction 1 as [| x l l' _ IH | x y l | l l' l'' _ IH1 _ IH2]; cbn [List.filter].
  - reflexivity.
  - destruct (f x); [now apply perm_skip | exact IH].
  - destruct (f x), (f y); try reflexivity. apply perm_swap.
  - now transitivity (List.filter f l').
Qed.

Lemma filter_filter {A} (f g : A -> bool) (l : list A) :
  List.filter f (List.filter g l) = List.filter (fun x => g x && f x) l.
Proof.
  induction l as [|x l IH]; [reflexivity |]. cbn [List.filter].
  destruct (g x); cbn [andb List.filter]; [destruct (f x) |]; now rewrite IH.
Qed.

Lemma filter_concat {A} (f : A -> bool) (ls : list (list A)) :
  List.filter f (concat ls) = concat (map (List.filter f) ls).
Proof.
  induction ls as [|l ls IH]; [reflexivity |].
  cbn [concat map]. now rewrite List.filter_app, IH.
Qed.

Lemma category_key_filter (l : list item) :
  List.filter (fun x => match category_key x with Some _ => true | None => false end) l
  = List.filter (fun row => negb (isna (CATEGORY_NORM row))) l.
Proof.
  apply List.filter_ext. intros x. unfold category_key.
  destruct (isna (CATEGORY_NORM x)); reflexivity.
Qed.

Lemma brand_key_filter (l : list item) :
  List.filter (fun x => match brand_key x with Some _ => true | None => false end) l = l.
Proof.
  rewrite (List.filter_ext _ (fun _ => true)) by reflexivity.
  apply List.filter_true.
Qed.

(** The rows of the blocks of one brand are the rows of the brand that
    have a category. *)
Lemma brand_written_rows (ws : sheet) (lo hi : Z) (group : string * list item)
    (blocks : list block) :
  brand_written ws lo hi group blocks ->
  Permutation (concat (map snd blocks))
              (List.filter (fun row => negb (isna (CATEGORY_NORM row))) (snd group)).
Proof.
  intros [Hsub _].
  apply (Forall2_snd (fun k b => has_subtotal ws (py_str k) b)) in Hsub.
  rewrite Hsub.
  rewrite groupby_perm. now rewrite category_key_filter.
Qed.

Lemma written_rows (ws : sheet) (lo hi : Z) (groups : list (string * list item))
    (blockss : list (list block)) :
  Forall2 (brand_written ws lo hi) groups blockss ->
  Permutation (concat (map snd (concat blockss)))
              (List.filter (fun row => negb (isna (CATEGORY_NORM row)))
                           (concat (map snd groups))).
Proof.
  induction 1 as [|bg bs bgs bss Hbg _ IH]; [reflexivity |].
  cbn [concat map]. rewrite map_app, concat_app, List.filter_app.
  apply Permutation_app; [exact (brand_written_rows _ _ _ _ _ Hbg) | exact IH].
Qed.

(** ** What the report holds *)

Lemma Forall2_In_l {A B} (R : A -> B -> Prop) (l : list A) (l' : list B) (a : A) :
  Forall2 R l l' -> In a l -> exists b, In b l' /\ R a b.
Proof.
  induction 1 as [|x y l l' Hxy _ IH]; intros Hin; [destruct Hin |].
  destruct Hin as [<- | Hin].
  - exists y. split; [now left | exact Hxy].
  - destruct (IH Hin) as (b & Hb & Hab). exists b. split; [now right | exact Hab].
Qed.

Lemma brand_groups_rows (df : list item) :
  Permutation (concat (map snd (groupby String.eqb brand_key df))) df.
Proof.
  rewrite groupby_perm. now rewrite brand_key_filter.
Qed.

Lemma two_brand_rows_writable :
  Forall (fun row => writable row = true) two_brand_rows.
Proof. repeat constructor. Qed.







Lemma has_key_category (k c : cell) (x : item) :
  cell_eqb c k = true ->
  has_key cell_eqb category_key k x = cell_eqb (CATEGORY_NORM x) c.
Proof.
  intros Hck. unfold has_key, category_key.
  destruct (isna (CATEGORY_NORM x)) eqn:Ena.
  - destruct (cell_eqb (CATEGORY_NORM x) c) eqn:E; [| reflexivity].
    destruct (cell_eqb_present _ _ E) as [Hx _]. congruence.
  - destruct (cell_eqb (CATEGORY_NORM x) k) eqn:E1,
             (cell_eqb (CATEGORY_NORM x) c) eqn:E2; try reflexivity.
    + rewrite cell_eqb_sym in Hck.
      rewrite (cell_eqb_trans _ _ _ E1 Hck) in E2. discriminate.
    + rewrite (cell_eqb_trans _ _ _ E2 Hck) in E1. discriminate.
Qed.

(** X20.  On a frame whose quantities are all finite numbers, the rows of
    one brand and one normalized category are written together: for every
    row of the frame that has a category, the rows with its brand and its
    category stand in consecutive sheet rows, in frame order, and the row
    directly below them is their subtotal row, labelled with the category,
    whose sums range over exactly these rows. *)
Theorem category_rows_and_subtotal (df : list item) (output_file : string)
    (wm : gmap (string * string) cell) (hd md pl pv wp : gmap float_id cell)
    (username dealer_name city order_date freight_condition : string)
    (now : datetime) (generated_at : string)
    (counters : option (gmap string Z)) (sale_orders : option (list sale_order))
    (row0 : item) :
  Forall (fun row => writable row = true) df ->
  In row0 df ->
  isna (CATEGORY_NORM row0) = false ->
  let rp := write_report df output_file wm hd md pl pv wp username dealer_name
                         city order_date freight_condition now generated_at
                         counters sale_orders in
  let group :=
    List.filter (fun row => String.eqb (BRAND row) (BRAND row0)
                            && cell_eqb (CATEGORY_NORM row) (CATEGORY_NORM row0))
                df in
  exists (first : Z) (label : cell),
    (11 <= first)%Z
    /\ cell_eqb (CATEGORY_NORM row0) label = true
    /\ placed (saved rp) wm hd md pl pv wp (first, group)
    /\ has_subtotal (saved rp) (py_str label) (first, group)
    /\ sum_blocks (saved rp) 5 [(first, group)] = total_quantity group.
Proof.
  intros Hfin Hin0 Hna rp group.
  destruct (write_report_body df output_file wm hd md pl pv wp username
              dealer_name city order_date freight_condition now generated_at
              counters sale_orders Hfin)
    as (blockss & r1 & Hnext & Hwritten & Hord & Hne & Hplaced & _).
  fold rp in Hnext, Hwritten, Hplaced.
  pose proof (ordered_blocks_bounds _ _ _ Hne Hord) as Hbounds.
  destruct (brand_groups df) as (Hgroups & _ & Hcover).
  destruct (Hcover row0 (BRAND row0) Hin0 eq_refl) as ([b g] & Hbg & Hkey).
  cbn [fst] in Hkey. apply String.eqb_eq in Hkey. subst b.
  rewrite List.Forall_forall in Hgroups.
  destruct (Hgroups _ Hbg) as [Hg _]. cbn [fst snd] in Hg.
  destruct (Forall2_In_l _ _ _ _ Hwritten Hbg) as (blocks & Hblocks & [Hsub _]).
  cbn [snd] in Hsub.
  destruct (category_groups g) as (Hcats & _ & Hccover).
  assert (In row0 g) as Hin0g.
  { rewrite Hg. apply filter_In. split; [exact Hin0 |].
    unfold has_key, brand_key. apply String.eqb_refl. }
  assert (category_key row0 = Some (CATEGORY_NORM row0)) as Hkey0
    by (unfold category_key; now rewrite Hna).
  destruct (Hccover row0 _ Hin0g Hkey0) as ([k gc] & Hkg & Hck). cbn [fst] in Hck.
  rewrite List.Forall_forall in Hcats.
  destruct (Hcats _ Hkg) as [Hgc _]. cbn [fst snd] in Hgc.
  destruct (Forall2_In_l _ _ _ _ Hsub Hkg) as ([first rows] & Hblk & Hrows & Hsubt).
  cbn [fst snd] in Hrows, Hsubt.
  assert (rows = group) as ->.
  { rewrite Hrows, Hgc, Hg, filter_filter. unfold group.
    apply List.filter_ext. intros x.
    rewrite (has_key_category k (CATEGORY_NORM row0) x Hck).
    unfold has_key, brand_key. reflexivity. }
  assert (In (first, group) (concat blockss)) as Hinb
    by (apply in_concat; eauto).
  rewrite List.Forall_forall in Hplaced, Hbounds.
  pose proof (Hplaced _ Hinb) as Hpl.
  exists first, k. split; [apply (Hbounds _ Hinb) |].
  split; [exact Hck |]. split; [exact Hpl |]. split; [exact Hsubt |].
  rewrite (sum_blocks_placed _ wm hd md pl pv wp) by (constructor; [exact Hpl | constructor]).
  cbn [map concat snd]. now rewrite List.app_nil_r.
Qed.

Lemma category_rows_and_subtotal_witness :
  exists (first : Z) (label : cell),
    (11 <= first)%Z
    /\ cell_eqb SF label = true
    /\ placed (saved sample_report) (build_weight_map sample_weights) ∅ ∅ ∅ ∅ ∅
              (first, [nth 0 two_brand_rows hdmr_row; nth 2 two_brand_rows hdmr_row])
    /\ has_subtotal (saved sample_report) (py_str label)
              (first, [nth 0 two_brand_rows hdmr_row; nth 2 two_brand_rows hdmr_row])
    /\ sum_blocks (saved sample_report) 5
              [(first, [nth 0 two_brand_rows hdmr_row; nth 2 two_brand_rows hdmr_row])]
       = 6%Z.
Proof.
  exact (category_rows_and_subtotal
           two_brand_rows "/var/data/reports/Acme_SALE_ORDER.xlsx"
           (build_weight_map sample_weights) ∅ ∅ ∅ ∅ ∅
           "asha" "Acme Traders" EmptyString "03-11-2026" "Paid"
           november_2026 "2026-11-03T10:15:00" (Some ∅) (Some [])
           (nth 0 two_brand_rows hdmr_row) two_brand_rows_writable
           (or_introl eq_refl) eq_refl).
Defined.

(** ** The head of the sheet and the order record *)

Lemma write_report_head_kept (df : list item) (output_file : string)
    (wm : gmap (string * string) cell) (hd md pl pv wp : gmap float_id cell)
    (username dealer_name city order_date freight_condition : string)
    (now : datetime) (generated_at : string)
    (counters : option (gmap string Z)) (sale_orders : option (list sale_order)) :
  let rp := write_report df output_file wm hd md pl pv wp username dealer_name
                         city order_date freight_condition now generated_at
                         counters sale_orders in
  let unique_id := fst (generate_unique_order_id now counters) in
  map (fun n => (saved rp !! (n, 1%Z), saved rp !! (n, 2%Z))) [4; 5; 6; 7; 8]%Z
  = map (fun e => (Some (XlStr (fst e)), Some (XlStr (or_na (snd e)))))
        [("DATE", order_date); ("DEALER NAME", dealer_name); ("CITY", city);
         ("FREIGHT CONDITION", freight_condition); ("ORDER ID", unique_id)]
  /\ map (fun c => saved rp !! (10%Z, c)) [1; 2; 3; 4; 5; 6; 7]%Z
     = map (fun h => Some (XlStr h)) headers.
Proof.
  intros rp unique_id.
  destruct (write_report_parts df output_file wm hd md pl pv wp username
              dealer_name city order_date freight_condition now generated_at
              counters sale_orders)
    as (ws0 & ws1 & r1 & all_ranges & Hinfo & Hheaders & Hfold & _ & Hbelow & _).
  fold rp in Hbelow. fold unique_id in Hinfo.
  destruct (write_brand_groups_below _ _ _ _ _ _ _ _ _ _ _ _ _ Hfold)
    as [Hle Hframe].
  assert (forall k, (fst k < 11)%Z -> saved rp !! k = ws0 !! k) as Hhead.
  { intros k Hk. rewrite Hbelow by lia. apply Hframe. lia. }
  rewrite <- Hinfo, <- Hheaders. cbn [map].
  rewrite !Hhead by (cbn; lia). split; reflexivity.
Qed.

(** X21.  The head of every report: rows 4 to 8 hold the labels DATE,
    DEALER NAME, CITY, FREIGHT CONDITION and ORDER ID in column 1 and the
    form values in column 2, an empty value being shown as "N/A" and the
    order identifier being the one just issued; row 10 holds the seven
    column headers.  Nothing written later touches these cells. *)
Theorem write_report_head (df : list item) (output_file : string)
    (wm : gmap (string * string) cell) (hd md pl pv wp : gmap float_id cell)
    (username dealer_name city order_date freight_condition : string)
    (now : datetime) (generated_at : string)
    (counters : option (gmap string Z)) (sale_orders : option (list sale_order)) :
  let rp := write_report df output_file wm hd md pl pv wp username dealer_name
                         city order_date freight_condition now generated_at
                         counters sale_orders in
  map (fun n => (saved rp !! (n, 1%Z), saved rp !! (n, 2%Z))) [4; 5; 6; 7; 8]%Z
  = [(Some (XlStr "DATE"), Some (XlStr (or_na order_date)));
     (Some (XlStr "DEALER NAME"), Some (XlStr (or_na dealer_name)));
     (Some (XlStr "CITY"), Some (XlStr (or_na city)));
     (Some (XlStr "FREIGHT CONDITION"), Some (XlStr (or_na freight_condition)));
     (Some (XlStr "ORDER ID"),
      Some (XlStr (fst (generate_unique_order_id now counters))))]
  /\ map (fun c => saved rp !! (10%Z, c)) [1; 2; 3; 4; 5; 6; 7]%Z
     = map (fun h => Some (XlStr h)) headers.
Proof.
  intros rp.
  destruct (write_report_head_kept df output_file wm hd md pl pv wp username
              dealer_name city order_date freight_condition now generated_at
              counters sale_orders) as [Hinfo Hheaders].
  fold rp in Hinfo, Hheaders. split; [| exact Hheaders].
  rewrite Hinfo. cbn [map fst snd].
  now rewrite generate_unique_order_id_nonempty.
Qed.

(** X22.  One report consumes one identifier and records it once: the
    counter table after the report is the one left by a single call of
    generate_unique_order_id, the identifier of that call is the text of
    the ORDER ID cell B8, and the order log gains exactly one row, which
    carries that same identifier, the base name of the output file and the
    form values; when the log table cannot be used nothing is recorded and
    the sheet is written all the same. *)
Theorem write_report_order_record (df : list item) (output_file : string)
    (wm : gmap (string * string) cell) (hd md pl pv wp : gmap float_id cell)
    (username dealer_name city order_date freight_condition : string)
    (now : datetime) (generated_at : string)
    (counters : option (gmap string Z)) (sale_orders : option (list sale_order)) :
  let rp := write_report df output_file wm hd md pl pv wp username dealer_name
                         city order_date freight_condition now generated_at
                         counters sale_orders in
  let unique_id := fst (generate_unique_order_id now counters) in
  saved rp !! (8%Z, 2%Z) = Some (XlStr unique_id)
  /\ counters_after rp = snd (generate_unique_order_id now counters)
  /\ sale_orders_after rp
     = match sale_orders with
       | Some logged =>
           Some (logged ++ [ {| so_username := username;
                                so_dealer_name := dealer_name;
                                so_city := city;
                                so_order_id := unique_id;
                                so_report_name := basename output_file;
                                so_generated_at := generated_at |} ])%list
       | None => None
       end.
Proof.
  intros rp unique_id.
  destruct (write_report_head_kept df output_file wm hd md pl pv wp username
              dealer_name city order_date freight_condition now generated_at
              counters sale_orders) as [Hinfo _].
  destruct (write_report_parts df output_file wm hd md pl pv wp username
              dealer_name city order_date freight_condition now generated_at
              counters sale_orders)
    as (_ & _ & _ & _ & _ & _ & _ & _ & _ & _ & _ & Hcounters & Hlog).
  fold rp in Hinfo, Hcounters, Hlog. fold unique_id in Hlog.
  split; [| split; [exact Hcounters |]].
  - cbn [map fst snd] in Hinfo. injection Hinfo as _ _ _ _ _ _ _ _ _ Hid.
    rewrite Hid. unfold unique_id.
    now rewrite generate_unique_order_id_nonempty.
  - rewrite Hlog. destruct sale_orders; reflexivity.
Qed.

(** ** The report of prepared data *)

Section Contiguous.

Context {K : Type} (eqb : K -> K -> bool) (key : item -> option K).
Hypothesis eqb_sym : forall a b, eqb a b = eqb b a.
Hypothesis eqb_trans : forall a b c, eqb a b = true -> eqb b c = true -> eqb a c = true.

(** When rows with equal keys stand together in the frame, the groups, one
    after the other, are the frame itself. *)
Lemma groupby_contiguous (l : list item) :
  (forall x, In x l -> exists k, key x = Some k /\ eqb k k = true) ->
  (forall l1 y l2 x l3 ky,
     l = (l1 ++ y :: l2 ++ x :: l3)%list -> key y = Some ky ->
     has_key eqb key ky x = true ->
     Forall (fun z => has_key eqb key ky z = true) l2) ->
  concat (map snd (groupby eqb key l)) = l.
Proof.
  induction l as [|x p IH] using rev_ind; intros Hkeys Hcont; [reflexivity |].
  assert (concat (map snd (groupby eqb key p)) = p) as Hp.
  { apply IH.
    - intros y Hy. apply Hkeys, in_or_app. now left.
    - intros l1 y l2 z l3 ky El Hy Hz.
      apply (Hcont l1 y l2 z (l3 ++ [x])%list ky); [| exact Hy | exact Hz].
      rewrite El, <- !List.app_assoc. cbn [app]. rewrite <- List.app_assoc.
      reflexivity. }
  assert (grouped eqb key p (groupby eqb key p)) as (Hgroups & Hpairs & _).
  { apply groupby_grouped; auto. intros y k Hy Hk.
    destruct (Hkeys y (in_or_app _ _ _ (or_introl Hy))) as (k' & Hk' & Hrefl).
    congruence. }
  destruct (Hkeys x) as (k & Hk & Hrefl);
    [apply in_or_app; right; now left |].
  unfold groupby in *. rewrite fold_left_app. cbn [fold_left]. rewrite Hk.
  set (groups := fold_left _ p []) in *.
  destruct (add_to_group_cases eqb k x groups)
    as [[_ ->] | (pre & k' & g & post & Egroups & _ & Hhit & ->)].
  - rewrite map_app, concat_app, Hp. cbn. reflexivity.
  - assert (post = []) as ->.
    { destruct post as [|[k2 g2] post']; [reflexivity | exfalso].
      rewrite Egroups in Hgroups, Hpairs, Hp.
      apply List.Forall_app in Hgroups. destruct Hgroups as [_ Hgroups].
      apply List.Forall_cons_iff in Hgroups. destruct Hgroups as [[Hg Hgne] Hrest].
      apply List.Forall_cons_iff in Hrest. destruct Hrest as [[Hg2 Hg2ne] _].
      cbn [fst snd] in Hg, Hgne, Hg2, Hg2ne.
      apply ForallOrdPairs_app_inv in Hpairs. destruct Hpairs as (_ & Hpairs & _).
      inversion Hpairs as [|? ? Hk'2 _].
      apply List.Forall_cons_iff in Hk'2. destruct Hk'2 as [Hne _].
      cbn [fst] in Hne.
      destruct g as [|y0 g']; [now contradiction Hgne |].
      destruct g2 as [|z0 g2']; [now contradiction Hg2ne |].
      assert (In y0 (List.filter (has_key eqb key k') p)) as Hy0
        by (rewrite <- Hg; now left).
      assert (In z0 (List.filter (has_key eqb key k2) p)) as Hz0
        by (rewrite <- Hg2; now left).
      apply filter_In in Hy0, Hz0.
      destruct Hy0 as [_ Hy0]. destruct Hz0 as [_ Hz0].
      unfold has_key in Hy0, Hz0.
      destruct (key y0) as [ky|] eqn:Eky; [| discriminate].
      destruct (key z0) as [kz|] eqn:Ekz; [| discriminate].
      assert (has_key eqb key ky x = true) as Hx.
      { unfold has_key. rewrite Hk. rewrite eqb_sym in Hy0.
        exact (eqb_trans _ _ _ Hhit Hy0). }
      assert ((p ++ [x])%list
              = (concat (map snd pre) ++ y0
                   :: (g' ++ z0 :: g2' ++ concat (map snd post')) ++ [x])%list)
        as El.
      { rewrite <- Hp, !map_app, !concat_app. cbn [map concat snd].
        repeat (rewrite <- List.app_assoc; cbn [app]). reflexivity. }
      pose proof (Hcont (concat (map snd pre)) y0
                        (g' ++ z0 :: g2' ++ concat (map snd post'))%list
                        x [] ky El Eky Hx) as Hmid.
      rewrite List.Forall_forall in Hmid.
      specialize (Hmid z0 ltac:(apply in_or_app; right; now left)).
      unfold has_key in Hmid. rewrite Ekz in Hmid.
      rewrite eqb_sym in Hy0, Hmid.
      pose proof (eqb_trans _ _ _ (eqb_trans _ _ _ Hy0 Hmid) Hz0) as Habs.
      congruence. }
    rewrite Egroups in Hp. rewrite !map_app, !concat_app in *.
    cbn [map concat snd] in *. rewrite !List.app_nil_r in *.
    rewrite List.app_assoc, Hp. reflexivity.
Qed.

End Contiguous.

Lemma ForallOrdPairs_between {A} (R : A -> A -> Prop) (l1 l2 l3 : list A) (y x z : A) :
  ForallOrdPairs R (l1 ++ y :: l2 ++ x :: l3) -> In z l2 -> R y z /\ R z x.
Proof.
  intros H Hz. apply ForallOrdPairs_app_inv in H. destruct H as (_ & H & _).
  inversion H as [|? ? Hy Hrest]; subst. split.
  - rewrite List.Forall_forall in Hy. apply Hy, in_or_app. now left.
  - apply ForallOrdPairs_app_inv in Hrest. destruct Hrest as (_ & _ & Hcross).
    apply Hcross; [exact Hz | now left].
Qed.

Lemma ForallOrdPairs_filter {A} (R : A -> A -> Prop) (f : A -> bool) (l : list A) :
  ForallOrdPairs R l -> ForallOrdPairs R (List.filter f l).
Proof.
  induction 1 as [|a l Ha _ IH]; cbn [List.filter]; [constructor |].
  destruct (f a); [| exact IH]. constructor; [| exact IH].
  rewrite List.Forall_forall in Ha |- *. intros b Hb.
  apply filter_In in Hb. now apply Ha.
Qed.

Lemma lex_not_Gt (c1 c2 : comparison) :
  lex c1 c2 <> Gt -> c1 <> Gt /\ (c1 = Eq -> c2 <> Gt).
Proof. destruct c1; cbn; intros H; split; congruence. Qed.

Lemma string_compare_refl (s : string) : String.compare s s = Eq.
Proof.
  pose proof (String.compare_antisym s s) as H.
  destruct (String.compare s s); [reflexivity | discriminate | discriminate].
Qed.

Lemma string_compare_between (a z : string) :
  String.compare a z <> Gt -> String.compare z a <> Gt -> z = a.
Proof.
  intros H1 H2. rewrite String.compare_antisym in H2.
  destruct (String.compare a z) eqn:E;
    [symmetry; now apply String.compare_eq_iff | now contradiction H2
     | now contradiction H1].
Qed.

Lemma position_eqb (c c' : cell) (l : list cell) :
  cell_eqb c c' = true -> position c l = position c' l.
Proof.
  intros H. induction l as [|h l IH]; [reflexivity |]. cbn [position].
  assert (cell_eqb c h = cell_eqb c' h) as ->; [| now rewrite IH].
  destruct (cell_eqb c h) eqn:E1, (cell_eqb c' h) eqn:E2; try reflexivity.
  - rewrite cell_eqb_sym in H. rewrite (cell_eqb_trans _ _ _ H E1) in E2.
    discriminate.
  - rewrite (cell_eqb_trans _ _ _ H E2) in E1. discriminate.
Qed.

Lemma position_mem (c : cell) (l : list cell) :
  mem c l = true -> exists i, position c l = Some i.
Proof.
  induction l as [|h l IH]; cbn [mem existsb position]; [discriminate |].
  destruct (cell_eqb c h); [eauto |]. cbn [orb]. intros H.
  destruct (IH H) as [i ->]. cbn. eauto.
Qed.

Lemma position_same (c c' : cell) (l : list cell) (i : nat) :
  position c l = Some i -> position c' l = Some i -> cell_eqb c c' = true.
Proof.
  revert i. induction l as [|h l IH]; intros i; cbn [position]; [discriminate |].
  destruct (cell_eqb c h) eqn:E1, (cell_eqb c' h) eqn:E2.
  - intros _ _. rewrite cell_eqb_sym in E2. exact (cell_eqb_trans _ _ _ E1 E2).
  - intros [= <-]. destruct (position c' l); discriminate.
  - destruct (position c l); [| discriminate]. intros [= <-]. discriminate.
  - destruct (position c l) as [j|] eqn:Ej; [| discriminate].
    destruct (position c' l) as [j'|] eqn:Ej'; [| discriminate].
    cbn. intros [= <-] [= ->]. exact (IH j eq_refl eq_refl).
Qed.

(** In a frame sorted by [prepare_data], the groups of the writer, one
    after the other, are the frame itself. *)
Lemma sorted_groups_in_order (numeric_of_text : reader) (order : list cell)
    (l : list item) :
  ForallOrdPairs (fun a b => sort_compare numeric_of_text order a b <> Gt) l ->
  Forall (fun it => mem (CATEGORY_NORM it) order = true) l ->
  concat (map (fun bg => concat (map snd (groupby cell_eqb category_key (snd bg))))
              (groupby String.eqb brand_key l)) = l.
Proof.
  intros Hsorted Hmem.
  assert (concat (map snd (groupby String.eqb brand_key l)) = l) as Hbrands.
  { apply groupby_contiguous.
    - apply String.eqb_sym.
    - intros a b c H1 H2. apply String.eqb_eq in H1, H2. subst.
      apply String.eqb_refl.
    - intros x _. exists (BRAND x). split; [reflexivity | apply String.eqb_refl].
    - intros l1 y l2 x l3 ky -> [= <-] Hx. apply List.Forall_forall. intros z Hz.
      destruct (ForallOrdPairs_between _ _ _ _ _ _ _ Hsorted Hz) as [Hyz Hzx].
      unfold has_key, brand_key in Hx |- *. apply String.eqb_eq in Hx.
      apply String.eqb_eq. unfold sort_compare in Hyz, Hzx.
      apply lex_not_Gt in Hyz, Hzx. destruct Hyz as [Hyz _], Hzx as [Hzx _].
      rewrite Hx in Hzx. exact (string_compare_between _ _ Hyz Hzx). }
  rewrite <- Hbrands at 2. f_equal. apply map_ext_in. intros [b g] Hbg.
  cbn [snd]. destruct (brand_groups l) as (Hgroups & _).
  rewrite List.Forall_forall in Hgroups. destruct (Hgroups _ Hbg) as [Hg _].
  cbn [fst snd] in Hg.
  assert (ForallOrdPairs
            (fun a b => sort_compare numeric_of_text order a b <> Gt) g) as Hgs
    by (rewrite Hg; now apply ForallOrdPairs_filter).
  assert (forall x, In x g -> BRAND x = b /\ mem (CATEGORY_NORM x) order = true)
    as Hin.
  { intros x Hx. rewrite Hg in Hx. apply filter_In in Hx. destruct Hx as [Hx Hb].
    unfold has_key, brand_key in Hb. apply String.eqb_eq in Hb.
    rewrite List.Forall_forall in Hmem. auto. }
  assert (forall x, In x g -> category_key x = Some (CATEGORY_NORM x)) as Hkey.
  { intros x Hx. destruct (Hin x Hx) as [_ Hm]. unfold category_key.
    now rewrite (mem_present _ _ Hm). }
  apply groupby_contiguous.
  - apply cell_eqb_sym.
  - apply cell_eqb_trans.
  - intros x Hx. exists (CATEGORY_NORM x). split; [now apply Hkey |].
    destruct (Hin x Hx) as [_ Hm]. apply cell_eqb_refl.
    exact (mem_present _ _ Hm).
  - intros l1 y l2 x l3 ky El Hy Hx. apply List.Forall_forall. intros z Hz.
    assert (In y g) as Hyg by (rewrite El; apply in_or_app; right; now left).
    assert (In x g) as Hxg
      by (rewrite El; apply in_or_app; right; right; apply in_or_app; right;
          now left).
    assert (In z g) as Hzg
      by (rewrite El; apply in_or_app; right; right; apply in_or_app; now left).
    rewrite El in Hgs.
    destruct (ForallOrdPairs_between _ _ _ _ _ _ _ Hgs Hz) as [Hyz Hzx].
    rewrite (Hkey y Hyg) in Hy. injection Hy as <-.
    unfold has_key in Hx |- *. rewrite (Hkey x Hxg) in Hx. rewrite (Hkey z Hzg).
    destruct (Hin y Hyg) as [Hby Hmy]. destruct (Hin x Hxg) as [Hbx Hmx].
    destruct (Hin z Hzg) as [Hbz Hmz].
    unfold sort_compare in Hyz, Hzx. rewrite Hby, Hbz, Hbx in *.
    rewrite string_compare_refl in Hyz, Hzx. cbn [lex] in Hyz, Hzx.
    apply lex_not_Gt in Hyz, Hzx. destruct Hyz as [Hyz _], Hzx as [Hzx _].
    rewrite (position_eqb _ _ order Hx) in Hzx.
    destruct (position_mem _ _ Hmy) as [i Hi].
    destruct (position_mem _ _ Hmz) as [j Hj].
    rewrite Hi, Hj in Hyz, Hzx. cbn [compare_last] in Hyz, Hzx.
    assert (j = i) as ->.
    { destruct (Nat.compare_spec i j), (Nat.compare_spec j i);
        try lia; congruence. }
    exact (position_same _ _ _ _ Hj Hi).
Qed.

Lemma written_in_order (ws : sheet) (lo hi : Z) (groups : list (string * list item))
    (blockss : list (list block)) :
  Forall2 (brand_written ws lo hi) groups blockss ->
  concat (map snd (concat blockss))
  = concat (map (fun bg => concat (map snd (groupby cell_eqb category_key (snd bg))))
                groups).
Proof.
  induction 1 as [|bg bs bgs bss [Hsub _] _ IH]; [reflexivity |].
  cbn [concat map]. rewrite map_app, concat_app, IH. f_equal. f_equal.
  exact (Forall2_snd (fun k b => has_subtotal ws (py_str k) b) _ _ Hsub).
Qed.

Lemma forallb_forall_writable (l : list item) :
  forallb writable l = true -> Forall (fun row => writable row = true) l.
Proof.
  intros H. apply List.Forall_forall. intros x Hx.
  rewrite forallb_forall in H. now apply H.
Qed.



(* ===================================================================== *)
(** * The web application *)
(* ===================================================================== *)

(** ** Splitting at separators *)

Lemma split_on_nonempty (p : ascii -> bool) (s : string) : split_on p s <> [].
Proof.
  destruct s as [|c s]; cbn [split_on]; [discriminate |].
  destruct (p c); [discriminate |]. destruct (split_on p s); discriminate.
Qed.

Lemma split_on_cons (p : ascii -> bool) (a b : string) (c : ascii) :
  p c = true -> has_char p a = false ->
  split_on p (a ++ String c b) = a :: split_on p b.
Proof.
  intros Hc Ha. induction a as [|x a IH]; cbn [String.append split_on].
  - now rewrite Hc.
  - cbn [has_char] in Ha. apply orb_false_iff in Ha. destruct Ha as [Hx Ha].
    rewrite Hx, (IH Ha). reflexivity.
Qed.

(** The part after the last separator. *)
Lemma last_split_on (p : ascii -> bool) (a b : string) (c : ascii) :
  p c = true -> has_char p b = false ->
  List.last (split_on p (a ++ String c b)) EmptyString = b.
Proof.
  intros Hc Hb.
  assert (forall parts d, List.last (parts ++ [b]) d = b) as Hlast
    by (intros parts d; apply List.last_last).
  assert (exists h t, split_on p (a ++ String c b) = ((h :: t) ++ [b])%list)
    as (h & t & ->); [| apply Hlast].
  induction a as [|x a (h & t & IH)]; cbn [String.append split_on].
  - rewrite Hc, (split_on_no_sep p b Hb). now exists EmptyString, [].
  - rewrite IH. destruct (p x).
    + now exists EmptyString, (h :: t).
    + cbn [app]. now exists (String x h), t.
Qed.

Lemma has_char_app (p : ascii -> bool) (a b : string) :
  has_char p (a ++ b) = has_char p a || has_char p b.
Proof.
  induction a as [|c a IH]; [reflexivity |].
  cbn [String.append has_char]. now rewrite IH, orb_assoc.
Qed.

(** X24.  An uploaded file is accepted by its last extension only, read
    without regard to letter case: a name without a dot is refused, and a
    name "<stem>.<ext>" whose ext has no dot is accepted exactly when ext in
    lower case is xls or xlsx, whatever dots and extensions the stem
    holds. *)
Theorem allowed_file_by_last_extension (stem ext : string) :
  has_char is_dot ext = false ->
  allowed_file ext = false
  /\ allowed_file (stem ++ "." ++ ext)
     = (String.eqb (lower ext) "xls" || String.eqb (lower ext) "xlsx").
Proof.
  intros Hext. unfold allowed_file. split.
  - now rewrite Hext.
  - change ("." ++ ext) with (String "." ext).
    rewrite has_char_app. cbn [has_char]. change (is_dot ".") with true.
    rewrite orb_true_r. cbn [andb].
    rewrite (last_split_on is_dot stem ext "." eq_refl Hext).
    cbn [existsb ALLOWED_EXTENSIONS]. now rewrite orb_false_r.
Qed.

Lemma allowed_file_by_last_extension_witness :
  allowed_file "XLSX" = false
  /\ allowed_file "orders.v2.XLSX" = true.
Proof.
  exact (allowed_file_by_last_extension "orders.v2" "XLSX" eq_refl).
Defined.

(** ** The suggested identifier *)

Lemma digits_no_dash (s : string) :
  all_digits s = true -> has_char is_dash s = false.
Proof.
  induction s as [|c s IH]; [reflexivity |]. cbn [all_digits has_char].
  intros H. apply andb_true_iff in H. destruct H as [Hc Hs].
  rewrite (IH Hs), orb_false_r.
  pose proof (digit_not_sign c Hc) as Hsign. apply orb_false_iff in Hsign.
  exact (proj2 Hsign).
Qed.

Lemma int_of_text_digits (s : string) (n : N) :
  all_digits s = true -> read_N s = Some n -> int_of_text s = Some (Z.of_N n).
Proof.
  intros Hd Hn. unfold int_of_text.
  rewrite (strip_c_digits s Hd), (drop_underscores_digits s _ Hd),
          (split_sign_digits s Hd), Hn.
  reflexivity.
Qed.

(** The parts of an identifier of the sequencer. *)
Lemma order_id_parts (now : datetime) (n : Z) :
  valid_month now -> (0 <= n)%Z ->
  split_on is_dash (strftime_m_y now ++ "-" ++ zfill 5 (str_int n))
  = [zfill 2 (str_int (dt_month now)); zfill 2 (str_int (dt_year now mod 100));
     zfill 5 (str_int n)].
Proof.
  intros Hm Hn. unfold valid_month in Hm. unfold strftime_m_y.
  destruct (zfill_str_int 2 (dt_month now)) as (_ & Hd1 & _); [lia |].
  destruct (zfill_str_int 2 (dt_year now mod 100)) as (_ & Hd2 & _).
  { apply Z.mod_pos_bound. lia. }
  destruct (zfill_str_int 5 n Hn) as (_ & Hd3 & _).
  rewrite !append_assoc.
  change ("-" ++ zfill 2 (str_int (dt_year now mod 100))
              ++ "-" ++ zfill 5 (str_int n))
    with (String "-" (zfill 2 (str_int (dt_year now mod 100))
                        ++ String "-" (zfill 5 (str_int n)))).
  rewrite (split_on_cons is_dash _ _ "-" eq_refl (digits_no_dash _ Hd1)).
  rewrite (split_on_cons is_dash _ _ "-" eq_refl (digits_no_dash _ Hd2)).
  now rewrite (split_on_no_sep is_dash _ (digits_no_dash _ Hd3)).
Qed.

(** X25.  The suggestion agrees with the sequencer.  When the latest
    identifier is the one generate_unique_order_id has just issued from a
    counter table without negative counters, and the month has not changed
    since, get_next_suggested_order_id returns exactly the identifier that
    the next call of generate_unique_order_id will issue. *)
Theorem suggested_id_is_next_id (issued now : datetime) (counters : gmap string Z) :
  valid_month issued ->
  strftime_m_y now = strftime_m_y issued ->
  (forall c, counters !! strftime_m_y issued = Some c -> (0 <= c)%Z) ->
  get_next_suggested_order_id
    (Some (fst (generate_unique_order_id issued (Some counters)))) now
  = fst (generate_unique_order_id now
           (snd (generate_unique_order_id issued (Some counters)))).
Proof.
  intros Hm Hsame Hpos. unfold generate_unique_order_id. cbn [fst snd].
  rewrite Hsame, lookup_insert_eq.
  set (n := match counters !! strftime_m_y issued with
            | Some c => (c + 1)%Z
            | None => 1%Z
            end).
  assert (0 <= n)%Z as Hn.
  { unfold n. destruct (counters !! strftime_m_y issued) as [c|] eqn:E; [| lia].
    specialize (Hpos c eq_refl). lia. }
  unfold get_next_suggested_order_id.
  destruct (strftime_m_y issued ++ "-" ++ zfill 5 (str_int n)) as [|c0 s0] eqn:Eid.
  { exfalso. unfold strftime_m_y in Eid. rewrite !append_assoc in Eid.
    destruct (zfill 2 (str_int (dt_month issued))); discriminate Eid. }
  rewrite <- Eid, (order_id_parts issued n Hm Hn), Hsame.
  change (zfill 2 (str_int (dt_month issued)) ++ "-"
            ++ zfill 2 (str_int (dt_year issued mod 100)))
    with (strftime_m_y issued).
  rewrite String.eqb_refl.
  destruct (zfill_str_int 5 n Hn) as (_ & Hd & Hread & _).
  rewrite (int_of_text_digits _ _ Hd Hread), Z2N.id by exact Hn.
  reflexivity.
Qed.

Lemma suggested_id_is_next_id_witness :
  get_next_suggested_order_id (Some "11-26-00042") november_2026 = "11-26-00043".
Proof.
  refine (suggested_id_is_next_id november_2026 november_2026
            (<["11-26" := 41%Z]> ∅) _ _ _).
  - unfold valid_month. cbn. lia.
  - reflexivity.
  - intros c. rewrite lookup_insert_eq. intros [= <-]. lia.
Defined.

(** X26.  Without a usable latest identifier the suggestion is the first
    identifier of the current month, "MM-YY-00001": when there is no latest
    identifier, when it is empty, when dashes do not cut it into exactly
    three parts (as for "ERROR-ID"), when its third part is not a text that
    int() reads, and when its month and year are not the current ones. *)
Theorem suggested_id_first_of_month (last_id : option string) (now : datetime) :
  (forall s, last_id = Some s ->
     match split_on is_dash s with
     | [p0; p1; num_part] =>
         String.eqb (p0 ++ "-" ++ p1) (strftime_m_y now) = false
         \/ int_of_text num_part = None
     | _ => True
     end) ->
  get_next_suggested_order_id last_id now = strftime_m_y now ++ "-00001".
Proof.
  intros H. unfold get_next_suggested_order_id.
  assert ((strftime_m_y now ++ "-") ++ "00001" = strftime_m_y now ++ "-00001")
    as Hfirst by (now rewrite append_assoc).
  rewrite Hfirst.
  destruct last_id as [[|c s]|]; [reflexivity | | reflexivity].
  specialize (H _ eq_refl).
  destruct (split_on is_dash (String c s)) as [|p0 [|p1 [|p2 [|p3 ps]]]];
    try reflexivity.
  destruct H as [-> | ->]; [reflexivity |].
  destruct (String.eqb (p0 ++ "-" ++ p1) (strftime_m_y now)); reflexivity.
Qed.

Lemma suggested_id_first_of_month_witness :
  get_next_suggested_order_id (Some "ERROR-ID") november_2026 = "11-26-00001"
  /\ get_next_suggested_order_id (Some "10-26-00042") november_2026 = "11-26-00001"
  /\ get_next_suggested_order_id (Some "11-26-4_") november_2026 = "11-26-00001".
Proof.
  split; [| split].
  - apply (suggested_id_first_of_month (Some "ERROR-ID") november_2026).
    intros s [= <-]. exact I.
  - apply (suggested_id_first_of_month (Some "10-26-00042") november_2026).
    intros s [= <-]. left. reflexivity.
  - apply (suggested_id_first_of_month (Some "11-26-4_") november_2026).
    intros s [= <-]. right. reflexivity.
Defined.

(** ** The name of the report file *)

Lemma sub_unsafe_safe (s : string) :
  forall in_run,
    has_char (fun c => negb (is_safe_char c)) (sub_unsafe in_run s) = false.
Proof.
  induction s as [|c s IH]; intros in_run; [reflexivity |]. cbn [sub_unsafe].
  destruct (is_safe_char c) eqn:Ec.
  - cbn [has_char]. now rewrite Ec, IH.
  - destruct in_run; [apply IH |]. cbn [has_char]. now rewrite IH.
Qed.

Lemma sub_unsafe_fixed (s : string) :
  forall in_run,
    has_char (fun c => negb (is_safe_char c)) s = false ->
    sub_unsafe in_run s = s.
Proof.
  induction s as [|c s IH]; intros in_run H; [reflexivity |].
  cbn [has_char] in H. apply orb_false_iff in H. destruct H as [Hc Hs].
  apply negb_false_iff in Hc. cbn [sub_unsafe]. rewrite Hc. f_equal.
  now apply IH.
Qed.

Lemma safe_dealer_name_no_slash (dealer_name : string) :
  has_char is_slash (safe_dealer_name dealer_name) = false.
Proof.
  unfold safe_dealer_name.
  pose proof (sub_unsafe_safe dealer_name false) as Hsafe.
  revert Hsafe. generalize (sub_unsafe false dealer_name). intros s.
  induction s as [|c s IH]; [reflexivity |]. cbn [has_char]. intros H.
  apply orb_false_iff in H. destruct H as [Hc Hs]. rewrite (IH Hs), orb_false_r.
  apply negb_false_iff in Hc. unfold is_slash.
  destruct (Ascii.eqb c "/") eqn:E; [| reflexivity].
  apply Ascii.eqb_eq in E. subst c. discriminate Hc.
Qed.

Lemma sub_unsafe_keeps (a s : string) :
  has_char (fun c => negb (is_safe_char c)) a = false ->
  sub_unsafe false (a ++ s) = a ++ sub_unsafe false s.
Proof.
  induction a as [|c a IH]; intros H; [reflexivity |].
  cbn [has_char] in H. apply orb_false_iff in H. destruct H as [Hc Ha].
  apply negb_false_iff in Hc. cbn [String.append sub_unsafe].
  now rewrite Hc, (IH Ha).
Qed.

Lemma sub_unsafe_run (u s : string) :
  has_char is_safe_char u = false ->
  sub_unsafe true (u ++ s) = sub_unsafe true s.
Proof.
  induction u as [|c u IH]; intros H; [reflexivity |].
  cbn [has_char] in H. apply orb_false_iff in H. destruct H as [Hc Hu].
  cbn [String.append sub_unsafe]. now rewrite Hc, (IH Hu).
Qed.

(** X27.  The dealer name that enters a file name holds only letters,
    digits, "_", "." and "-", so no path separator; a name that already
    consists of such characters is kept as it is; a run of other characters
    between two parts of such characters is replaced by one underscore and
    the parts are kept; and cleaning twice changes nothing. *)
Theorem safe_dealer_name_is_safe (dealer_name : string) :
  has_char (fun c => negb (is_safe_char c)) (safe_dealer_name dealer_name) = false
  /\ has_char is_slash (safe_dealer_name dealer_name) = false
  /\ (has_char (fun c => negb (is_safe_char c)) dealer_name = false ->
      safe_dealer_name dealer_name = dealer_name)
  /\ (forall (a b : string) (c : ascii) (u : string),
        dealer_name = a ++ String c u ++ b ->
        has_char (fun c => negb (is_safe_char c)) a = false ->
        has_char is_safe_char (String c u) = false ->
        has_char (fun c => negb (is_safe_char c)) b = false ->
        safe_dealer_name dealer_name = a ++ "_" ++ b)
  /\ safe_dealer_name (safe_dealer_name dealer_name) = safe_dealer_name dealer_name.
Proof.
  split; [apply sub_unsafe_safe |]. split; [apply safe_dealer_name_no_slash |].
  split; [apply sub_unsafe_fixed |].
  split; [| apply sub_unsafe_fixed, sub_unsafe_safe].
  intros a b c u -> Ha Hu Hb. unfold safe_dealer_name.
  rewrite (sub_unsafe_keeps a _ Ha). f_equal.
  cbn [has_char] in Hu. apply orb_false_iff in Hu. destruct Hu as [Hc Hu].
  cbn [String.append sub_unsafe]. rewrite Hc. f_equal.
  rewrite (sub_unsafe_run u b Hu). now apply sub_unsafe_fixed.
Qed.

Lemma safe_dealer_name_is_safe_witness :
  safe_dealer_name "Acme-Traders_2.0" = "Acme-Traders_2.0"
  /\ safe_dealer_name "Acme & Sons" = "Acme_Sons".
Proof.
  split.
  - exact (proj1 (proj2 (proj2 (safe_dealer_name_is_safe "Acme-Traders_2.0")))
             eq_refl).
  - exact (proj1 (proj2 (proj2 (proj2 (safe_dealer_name_is_safe "Acme & Sons"))))
             "Acme" "Sons" " "%char "& " eq_refl eq_refl eq_refl eq_refl).
Defined.

Lemma startswith_slash (s : string) :
  has_char is_slash s = false -> startswith "/" s = false.
Proof.
  destruct s as [|c s]; [reflexivity |]. cbn [has_char startswith]. intros H.
  apply orb_false_iff in H. destruct H as [Hc _]. unfold is_slash in Hc.
  rewrite Ascii.eqb_sym, Hc. reflexivity.
Qed.

(** X28.  The order log names the file that is offered for download: the
    output path of a report is the report folder, a slash and the report
    name, and the base name that log_order_to_database stores, taken from
    this path, is the report name again, for every dealer name and every
    time stamp without a slash. *)
Theorem logged_report_name (dealer_name timestamp : string) :
  has_char is_slash timestamp = false ->
  path_join REPORT_FOLDER (report_name dealer_name timestamp)
  = REPORT_FOLDER ++ "/" ++ report_name dealer_name timestamp
  /\ basename (path_join REPORT_FOLDER (report_name dealer_name timestamp))
     = report_name dealer_name timestamp.
Proof.
  intros Hts.
  assert (has_char is_slash (report_name dealer_name timestamp) = false) as Hname.
  { unfold report_name. rewrite !has_char_app, Hts.
    now rewrite safe_dealer_name_no_slash. }
  assert (path_join REPORT_FOLDER (report_name dealer_name timestamp)
          = REPORT_FOLDER ++ "/" ++ report_name dealer_name timestamp) as Hpath.
  { unfold path_join at 1. rewrite (startswith_slash _ Hname). reflexivity. }
  split; [exact Hpath |]. rewrite Hpath. unfold basename.
  change ("/" ++ report_name dealer_name timestamp)
    with (String "/" (report_name dealer_name timestamp)).
  exact (last_split_on is_slash REPORT_FOLDER _ "/" eq_refl Hname).
Qed.

Lemma logged_report_name_witness :
  basename (path_join REPORT_FOLDER (report_name "A/B Traders & Co" "20261103_101500"))
  = "A_B_Traders_Co_20261103_101500_SALE_ORDER.xlsx".
Proof.
  exact (proj2 (logged_report_name "A/B Traders & Co" "20261103_101500" eq_refl)).
Defined.

(** ** Sessions *)

Section SessionProofs.

Context (USERS : gmap string string)
        (check_password_hash : string -> string -> bool).

Lemma drop_session_consistent (st : server) (client : nat) :
  sessions_consistent st ->
  sessions_consistent
    {| ACTIVE_SESSIONS := ACTIVE_SESSIONS st;
       session_user := delete client (session_user st) |}.
Proof.
  intros [Hact Huniq]. unfold sessions_consistent, holds_session. cbn.
  split.
  - intros c u H. apply lookup_delete_Some in H. destruct H as [_ H].
    exact (Hact c u H).
  - intros c c' u H H'. apply lookup_delete_Some in H, H'.
    exact (Huniq c c' u (proj2 H) (proj2 H')).
Qed.

Lemma pop_session_consistent (st : server) (client : nat) (uname : string) :
  session_user st !! client = Some uname ->
  sessions_consistent st ->
  sessions_consistent
    {| ACTIVE_SESSIONS := ACTIVE_SESSIONS st ∖ {[uname]};
       session_user := delete client (session_user st) |}.
Proof.
  intros Hclient [Hact Huniq]. unfold sessions_consistent, holds_session. cbn.
  split.
  - intros c u H. apply lookup_delete_Some in H. destruct H as [Hne H].
    destruct (Hact c u H) as [Hin Hu]. split; [| exact Hu].
    apply elem_of_difference. split; [exact Hin |].
    intros Heq. apply elem_of_singleton in Heq. subst u.
    exact (Hne (Huniq client c uname Hclient H)).
  - intros c c' u H H'. apply lookup_delete_Some in H, H'.
    exact (Huniq c c' u (proj2 H) (proj2 H')).
Qed.

Lemma handle_consistent (st : server) (event : nat * request) :
  sessions_consistent st ->
  sessions_consistent (handle USERS check_password_hash st event).
Proof.
  intros Hst. destruct event as [client [username password | | |]];
    cbn [handle].
  - (* login *)
    unfold login.
    destruct (is_empty (strip username)) eqn:Ename; [exact Hst |].
    destruct (is_empty password); [exact Hst |]. cbn [orb].
    destruct (USERS !! strip username) as [hashed|]; [| exact Hst].
    destruct (check_password_hash hashed password); [| exact Hst].
    destruct (bool_decide (strip username ∈ ACTIVE_SESSIONS st)) eqn:Eact;
      [exact Hst |].
    apply bool_decide_eq_false in Eact. destruct Hst as [Hact Huniq].
    unfold sessions_consistent, holds_session. cbn. split.
    + intros c u H. apply lookup_insert_Some in H.
      destruct H as [[_ <-] | [_ H]].
      * split; [| exact Ename].
        apply elem_of_union. left. now apply elem_of_singleton.
      * destruct (Hact c u H) as [Hin Hu]. split; [| exact Hu].
        apply elem_of_union. now right.
    + intros c c' u H H'. apply lookup_insert_Some in H, H'.
      destruct H as [[<- <-] | [Hne H]], H' as [[<- Hu'] | [Hne' H']].
      * reflexivity.
      * exfalso. apply Eact. exact (proj1 (Hact c' _ H')).
      * exfalso. apply Eact. rewrite Hu'. exact (proj1 (Hact c _ H)).
      * exact (Huniq c c' u H H').
  - (* logout *)
    unfold logout. destruct (session_user st !! client) as [uname|] eqn:E.
    + destruct (is_empty uname) eqn:Eu.
      * destruct (proj1 Hst client uname E) as [_ Hu]. congruence.
      * now apply pop_session_consistent.
    + now apply drop_session_consistent.
  - (* a protected route *)
    unfold protected. destruct (session_user st !! client) as [uname|] eqn:E;
      [| exact Hst].
    destruct (negb (bool_decide (uname ∈ ACTIVE_SESSIONS st))); cbn [fst].
    + now apply drop_session_consistent.
    + destruct (USERS !! uname); cbn [fst]; [exact Hst |].
      now apply pop_session_consistent.
  - now apply drop_session_consistent.
Qed.

Lemma run_consistent (events : list (nat * request)) :
  forall st, sessions_consistent st ->
    sessions_consistent (run USERS check_password_hash events st).
Proof.
  unfold run. induction events as [|e events IH]; intros st Hst; [exact Hst |].
  cbn [fold_left]. apply IH, handle_consistent, Hst.
Qed.

Lemma handle_orphan (st : server) (event : nat * request) (u : string) :
  u ∈ ACTIVE_SESSIONS st -> (forall c, ~ holds_session st c u) ->
  u ∈ ACTIVE_SESSIONS (handle USERS check_password_hash st event)
  /\ forall c, ~ holds_session (handle USERS check_password_hash st event) c u.
Proof.
  intros Hin Hnone. unfold holds_session in *.
  assert (forall (A : gset string) client,
            u ∈ A -> (forall v, session_user st !! client = Some v -> u ∈ A ∖ {[v]}))
    as Hpop.
  { intros A client HA v Hv. apply elem_of_difference. split; [exact HA |].
    intros Heq. apply elem_of_singleton in Heq. subst v. exact (Hnone client Hv). }
  assert (forall client c, delete client (session_user st) !! c <> Some u) as Hdel.
  { intros client c H. apply lookup_delete_Some in H. exact (Hnone c (proj2 H)). }
  destruct event as [client [username password | | |]]; cbn [handle].
  - unfold login.
    destruct (is_empty (strip username) || is_empty password); [now split |].
    destruct (USERS !! strip username) as [hashed|]; [| now split].
    destruct (check_password_hash hashed password); [| now split].
    destruct (bool_decide (strip username ∈ ACTIVE_SESSIONS st)) eqn:Eact;
      [now split |].
    apply bool_decide_eq_false in Eact. cbn.
    split; [apply elem_of_union; now right |].
    intros c H. apply lookup_insert_Some in H.
    destruct H as [[_ Hu] | [_ H]]; [| exact (Hnone c H)].
    apply Eact. now rewrite Hu.
  - unfold logout. cbn. split; [| apply Hdel].
    destruct (session_user st !! client) as [v|] eqn:E; [| exact Hin].
    destruct (is_empty v); [exact Hin | now apply (Hpop _ client)].
  - unfold protected. destruct (session_user st !! client) as [v|] eqn:E;
      [| now split].
    destruct (negb (bool_decide (v ∈ ACTIVE_SESSIONS st))); cbn;
      [split; [exact Hin | apply Hdel] |].
    destruct (USERS !! v); cbn; [now split |].
    split; [now apply (Hpop _ client) | apply Hdel].
  - cbn. split; [exact Hin | apply Hdel].
Qed.

Lemma run_orphan (events : list (nat * request)) (u : string) :
  forall st,
    u ∈ ACTIVE_SESSIONS st -> (forall c, ~ holds_session st c u) ->
    u ∈ ACTIVE_SESSIONS (run USERS check_password_hash events st)
    /\ forall c, ~ holds_session (run USERS check_password_hash events st) c u.
Proof.
  unfold run. induction events as [|e events IH]; intros st Hin Hnone;
    [now split |].
  cbn [fold_left]. destruct (handle_orphan st e u Hin Hnone) as [Hin' Hnone'].
  exact (IH _ Hin' Hnone').
Qed.

End SessionProofs.



Lemma asha_logged_in_state :
  asha_logged_in
  = {| ACTIVE_SESSIONS := {["asha"]} ∪ ∅;
       session_user := <[1%nat := "asha"]> ∅ |}.
Proof. reflexivity. Qed.

